(** * MCPInteractiveHTTPClient: a shallow embedding of [http_client.py]

    The interactive MCP client opens a transport (streamable-http or SSE),
    wraps it in a protocol session, lists the server's tools, lets the
    operator pick one, prompts for its arguments according to the tool's
    input schema, calls it and renders the result.

    The embedding follows the Python source method by method.  The client
    object, standard input and the record of everything observable
    (log records, console output, calls into the transport and the session)
    are threaded through a small state-and-exception monad.  The
    collaborators the client does not implement (the transport context
    manager, [ClientSession], [float], [json.loads], [json.dumps], [repr])
    are interfaces whose behaviour is arbitrary.

    Text is ASCII: a Python [str] is a [string].  Exceptions are the
    instances of Python's [Exception]; signals that are not ([KeyboardInterrupt],
    task cancellation) are outside the model, except on the close path,
    which module [Signals] embeds with them. *)

From Stdlib Require Import String Ascii List ZArith Lia Bool Arith.
From Stdlib Require Import DecimalString DecimalNat.
From Corelib Require Import PrimFloat.
Import ListNotations.
Open Scope string_scope.
Open Scope list_scope.

Set Warnings "-register-all".

(* ================================================================= *)
(** ** Python text built-ins *)

(** String concatenation, Python's [+] on [str] and the pieces of an
    f-string. *)
Infix "^^" := String.append (at level 60, right associativity).

Definition LF : string := String (ascii_of_nat 10) EmptyString.

(** [str.isspace] on one ASCII character: TAB, LF, VT, FF, CR, the four
    separators FS, GS, RS, US, and the space. *)
Definition py_isspace (c : ascii) : bool :=
  let n := nat_of_ascii c in
  (((9 <=? n) && (n <=? 13)) || ((28 <=? n) && (n <=? 32)))%nat.

Fixpoint lstrip (s : string) : string :=
  match s with
  | EmptyString => EmptyString
  | String c s' => if py_isspace c then lstrip s' else s
  end.

Fixpoint rstrip (s : string) : string :=
  match s with
  | EmptyString => EmptyString
  | String c s' =>
      match rstrip s' with
      | EmptyString => if py_isspace c then EmptyString else String c EmptyString
      | r => String c r
      end
  end.

(** [s.strip()] *)
Definition strip (s : string) : string := rstrip (lstrip s).

Definition lower_ascii (c : ascii) : ascii :=
  let n := nat_of_ascii c in
  if ((65 <=? n) && (n <=? 90))%nat then ascii_of_nat (n + 32) else c.

(** [s.lower()] *)
Fixpoint lower (s : string) : string :=
  match s with
  | EmptyString => EmptyString
  | String c s' => String (lower_ascii c) (lower s')
  end.

(** [x in (a, b, ...)] for strings. *)
Definition str_in (x : string) (xs : list string) : bool :=
  existsb (String.eqb x) xs.

(** [not s]: the empty string is falsy. *)
Definition is_empty (s : string) : bool :=
  match s with EmptyString => true | _ => false end.

Definition digit_of (c : ascii) : option Z :=
  let n := nat_of_ascii c in
  if ((48 <=? n) && (n <=? 57))%nat then Some (Z.of_nat n - 48)%Z else None.

(** The digit part of an integer literal, as [int] reads it in base 10:
    decimal digits, with single underscores allowed between digits only. *)
Fixpoint int_digits (acc : Z) (prev_digit : bool) (s : string) : option Z :=
  match s with
  | EmptyString => if prev_digit then Some acc else None
  | String c s' =>
      match digit_of c with
      | Some d => int_digits (10 * acc + d)%Z true s'
      | None =>
          if Ascii.eqb c "_" && prev_digit then int_digits acc false s' else None
      end
  end.

(** [int(s)]: surrounding whitespace is ignored, then an optional sign and
    the digits.  [None] stands for [ValueError].  CPython's configurable
    bound on the number of digits (a [ValueError] beyond it) is left out.
    This is [int] where the text was trimmed by [str.strip] first;
    [int_of_str] below is [int] on any text, with that bound. *)
Definition py_int (s : string) : option Z :=
  match strip s with
  | String "+" r => int_digits 0 false r
  | String "-" r => option_map Z.opp (int_digits 0 false r)
  | r => int_digits 0 false r
  end.

(** [f"{n}"] for a natural number. *)
Definition str_of_nat (n : nat) : string :=
  NilZero.string_of_uint (Nat.to_uint n).

Fixpoint prefix_eqb (p s : string) : bool :=
  match p, s with
  | EmptyString, _ => true
  | String a p', String b s' => Ascii.eqb a b && prefix_eqb p' s'
  | String _ _, EmptyString => false
  end.

(** The scan of [s.replace(old, new)] for a non-empty [old]: occurrences are
    found from the left and do not overlap; [skip] counts the characters of
    the occurrence just replaced that are still to be passed over. *)
Fixpoint replace_scan (old new : string) (skip : nat) (s : string) : string :=
  match s with
  | EmptyString => EmptyString
  | String c s' =>
      match skip with
      | S k => replace_scan old new k s'
      | O =>
          if prefix_eqb old s
          then new ^^ replace_scan old new (String.length old - 1) s'
          else String c (replace_scan old new 0 s')
      end
  end.

Fixpoint intersperse (new s : string) : string :=
  match s with
  | EmptyString => EmptyString
  | String c s' => String c (new ^^ intersperse new s')
  end.

(** [s.replace(old, new)]; with an empty [old] Python puts [new] before
    every character and at the end. *)
Definition replace (old new s : string) : string :=
  match old with
  | EmptyString => new ^^ intersperse new s
  | _ => replace_scan old new 0 s
  end.

(* ================================================================= *)
(** ** Values, exceptions, tools *)

(** What [json.loads] returns and [json.dumps] renders; also the typed
    argument values of a call. *)
Inductive json : Type :=
| JNull
| JBool (b : bool)
| JInt (z : Z)
| JFloat (f : float)
| JStr (s : string)
| JArr (items : list json)
| JObj (members : list (string * json)).

(** A [dict] with string keys, in insertion order. *)
Definition dict (V : Type) : Type := list (string * V).

Fixpoint dict_get {V} (d : dict V) (k : string) : option V :=
  match d with
  | [] => None
  | (k', v) :: d' => if String.eqb k' k then Some v else dict_get d' k
  end.

(** [d[k] = v]: an existing key keeps its place, a new one goes last. *)
Fixpoint dict_set {V} (d : dict V) (k : string) (v : V) : dict V :=
  match d with
  | [] => [(k, v)]
  | (k', v') :: d' =>
      if String.eqb k' k then (k', v) :: d' else (k', v') :: dict_set d' k v
  end.

Definition dict_keys {V} (d : dict V) : list string := map fst d.

Definition dict_mem {V} (d : dict V) (k : string) : bool :=
  match dict_get d k with Some _ => true | None => false end.

Inductive exn_class : Type :=
| ValueError
| RuntimeError
| EOFError
| IndexError
| JSONDecodeError
| OtherException (name : string).

(** An exception instance: its class and [str(e)]. *)
Record exn : Type := Exn { exn_cls : exn_class; exn_msg : string }.

Inductive result (A : Type) : Type :=
| Ok (a : A)
| Raise (e : exn).
Arguments Ok {A} a.
Arguments Raise {A} e.

Definition is_ok {A} (r : result A) : bool :=
  match r with Ok _ => true | Raise _ => false end.

(** One entry of a schema's ["properties"]: the keys the client reads,
    [None] when the key is missing. *)
Record prop_def : Type := PropDef {
  pd_description : option string;
  pd_type : option string
}.

(** [tool.inputSchema]: the properties in the server's order and the list
    of required names; a missing key is the empty collection, which the
    client's [.get] defaults make indistinguishable. *)
Record schema : Type := Schema {
  properties : dict prop_def;
  required : list string
}.

Record Tool : Type := MkTool {
  name : string;
  description : option string;
  inputSchema : schema
}.

Definition arguments_t : Type := dict json.

(* ================================================================= *)
(** ** Observable events *)

Inductive level : Type := INFO | WARNING | ERROR.

(** The arguments of a log record, kept apart from its format string as
    [logging] keeps them. *)
Inductive logarg : Type :=
| LStr (s : string)
| LOptStr (o : option string)
| LNat (n : nat)
| LExn (e : exn)
| LArgs (a : arguments_t).

Inductive transport_kind : Type := StreamableHttp | Sse.

(** Calls into the collaborators. *)
Inductive extcall : Type :=
| TransportEnter (k : transport_kind) (url : string)
| TransportExit
| SessionEnter
| SessionExit
| SessionInitialize
| SessionListTools
| SessionCallTool (tool_name : string) (args : arguments_t).

Inductive event : Type :=
| EvLog (lvl : level) (fmt : string) (args : list logarg) (exc_info : bool)
| EvPrint (text : string)
| EvInput (prompt : string)
| EvCall (c : extcall) (returned : bool).

Definition history : Type := list event.

(* ================================================================= *)
(** ** Collaborators *)

(** Library functions the client calls and does not define. *)
Class Builtins : Type := {
  (** [float(s)]; [None] is [ValueError]. *)
  py_float : string -> option float;
  (** [repr(s)], as it appears in the messages of [int] and [float]. *)
  py_repr : string -> string;
  (** [json.loads(s)]: the value, or the exception raised: a
      [JSONDecodeError] for text that is not JSON, and whatever else the
      decoder raises ([RecursionError] on nesting too deep, a plain
      [ValueError] on a number beyond the digit limit). *)
  json_loads : string -> result json;
  (** [json.dumps(v, indent=2)]: the text, where it returns one. *)
  json_dumps : json -> string;
  (** The exception [json.dumps(v, indent=2)] raises instead of returning
      a text, if it does ([ValueError] on an integer beyond the digit
      limit, [RecursionError] on nesting too deep). *)
  json_dumps_raises : json -> option exn
}.

(** ** [int] on a [str], as CPython evaluates it *)

(** The default of [sys.int_max_str_digits]; the client never changes it. *)
Definition int_max_str_digits : nat := 4300.

(** The whitespace [int] skips is C's: TAB, LF, VT, FF, CR and the space.
    The separators FS, GS, RS, US, which [str.strip] removes, are not
    among it. *)
Definition int_isspace (c : ascii) : bool :=
  let n := nat_of_ascii c in
  (((9 <=? n) && (n <=? 13)) || (n =? 32))%nat.

Fixpoint int_skip_space (s : string) : string :=
  match s with
  | EmptyString => EmptyString
  | String c s' => if int_isspace c then int_skip_space s' else s
  end.

(** What the scan of the digits has just read. *)
Inductive scanned : Type := AtStart | AfterDigit | AfterUnderscore.

(** The outcome of the scan: the literal is refused, or the run of digits
    and underscores ends with a value, a number of digits and the text
    that follows. *)
Inductive scan_result : Type :=
| ScanInvalid
| ScanDone (value : Z) (digits : nat) (rest : string).

(** The run of digits and single underscores: an underscore may not come
    first, nor last, nor after another. *)
Fixpoint int_scan (acc : Z) (digits : nat) (prev : scanned) (s : string) : scan_result :=
  match s with
  | EmptyString =>
      match prev with
      | AfterUnderscore => ScanInvalid
      | _ => ScanDone acc digits EmptyString
      end
  | String c s' =>
      match digit_of c with
      | Some d => int_scan (10 * acc + d)%Z (S digits) AfterDigit s'
      | None =>
          if Ascii.eqb c "_" then
            match prev with
            | AfterDigit => int_scan acc digits AfterUnderscore s'
            | _ => ScanInvalid
            end
          else
            match prev with
            | AfterUnderscore => ScanInvalid
            | _ => ScanDone acc digits s
            end
      end
  end.

(** The optional sign: whether it is a minus, and what follows it. *)
Definition int_sign (body : string) : bool * string :=
  match body with
  | String "+" r => (false, r)
  | String "-" r => (true, r)
  | r => (false, r)
  end.

Definition int_invalid_literal {B : Builtins} (s : string) : exn :=
  Exn ValueError ("invalid literal for int() with base 10: " ^^ py_repr s).

Definition int_exceeds_limit (digits : nat) : exn :=
  Exn ValueError
    ("Exceeds the limit (" ^^ str_of_nat int_max_str_digits
     ^^ " digits) for integer string conversion: value has "
     ^^ str_of_nat digits
     ^^ " digits; use sys.set_int_max_str_digits() to increase the limit").

(** [int(s)]: leading whitespace, an optional sign, the digits; a run of
    more than [int_max_str_digits] digits is refused before anything after
    it is looked at; then only whitespace may follow.  Both refusals are
    [ValueError]s. *)
Definition int_of_str {B : Builtins} (s : string) : result Z :=
  let (negative, literal) := int_sign (int_skip_space s) in
  match int_scan 0 0 AtStart literal with
  | ScanInvalid => Raise (int_invalid_literal s)
  | ScanDone value digits rest =>
      if (int_max_str_digits <? digits)%nat then Raise (int_exceeds_limit digits)
      else if (digits =? 0)%nat then Raise (int_invalid_literal s)
      else if is_empty (int_skip_space rest)
           then Ok (if negative then (- value)%Z else value)
           else Raise (int_invalid_literal s)
  end.

(** The transport context manager and the [ClientSession] built on it.
    Every outcome may depend on all that happened before the call. *)
Class World : Type := {
  (** [await ctx.__aenter__()]: on success, the session id that the
      streamable-http accessor reports (the SSE transport has none). *)
  transport_aenter : transport_kind -> string -> history -> result (option string);
  transport_aexit : option exn -> history -> result unit;
  session_aenter : history -> result unit;
  session_aexit : option exn -> history -> result unit;
  session_initialize : history -> result unit;
  session_list_tools : history -> result (list Tool);
  (** [call_tool(name, arguments)] followed by [model_dump(mode="json")]. *)
  session_call_tool : string -> arguments_t -> history -> result json
}.

(* ================================================================= *)
(** ** The client object and the monad *)

Inductive stream : Type := ReadStream (k : transport_kind) | WriteStream (k : transport_kind).

Record ClientSession : Type := MkSession {
  cs_read : option stream;
  cs_write : option stream
}.

(** The attributes [__init__] sets.  [_get_session_id] is a callable in
    the source; here it is the id the callable returns. *)
Record client : Type := MkClient {
  url : string;
  transport : string;
  _ctx : option transport_kind;
  _read_stream : option stream;
  _write_stream : option stream;
  _get_session_id : option (option string);
  _session : option ClientSession
}.

(** [MCPInteractiveHTTPClient(url, transport)]: the attributes as the
    constructor leaves them (its logging set-up is not part of the model). *)
Definition __init__ (url transport : string) : client :=
  {| url := url; transport := transport; _ctx := None; _read_stream := None;
     _write_stream := None; _get_session_id := None; _session := None |}.

Record state : Type := MkState {
  self : client;
  stdin : list string;
  trace : history
}.

Definition M (A : Type) : Type := state -> result A * state.

Definition ret {A} (a : A) : M A := fun st => (Ok a, st).

Definition bind {A B} (c : M A) (k : A -> M B) : M B :=
  fun st =>
    match c st with
    | (Ok a, st') => k a st'
    | (Raise e, st') => (Raise e, st')
    end.

Declare Scope py_scope.
Delimit Scope py_scope with py.
Notation "x <- c1 ;; c2" := (bind c1 (fun x => c2))
  (at level 61, c1 at next level, right associativity) : py_scope.
Notation "c1 ;; c2" := (bind c1 (fun _ => c2))
  (at level 61, right associativity) : py_scope.
Open Scope py_scope.

Definition raise {A} (e : exn) : M A := fun st => (Raise e, st).

(** [try: body / except Exception as e: handler e] *)
Definition try_except {A} (body : M A) (handler : exn -> M A) : M A :=
  fun st =>
    match body st with
    | (Ok a, st') => (Ok a, st')
    | (Raise e, st') => handler e st'
    end.

(** [except ValueError]: [JSONDecodeError] derives from [ValueError]. *)
Definition is_ValueError (e : exn) : bool :=
  match exn_cls e with ValueError | JSONDecodeError => true | _ => false end.

(** [except json.JSONDecodeError] *)
Definition is_JSONDecodeError (e : exn) : bool :=
  match exn_cls e with JSONDecodeError => true | _ => false end.

Definition get_self : M client := fun st => (Ok (self st), st).

Definition set_self (c : client) : M unit :=
  fun st => (Ok tt, {| self := c; stdin := stdin st; trace := trace st |}).

Definition emit (e : event) : M unit :=
  fun st => (Ok tt, {| self := self st; stdin := stdin st; trace := trace st ++ [e] |}).

(** [self.logger.info / warning / error (fmt, *args, exc_info=...)] *)
Definition log (lvl : level) (fmt : string) (args : list logarg) (exc_info : bool) : M unit :=
  emit (EvLog lvl fmt args exc_info).

(** [print(text)] *)
Definition print (text : string) : M unit := emit (EvPrint text).

Definition eof_error : exn := Exn EOFError "EOF when reading a line".

(** [input(prompt)]: the prompt is written, one line is taken from standard
    input; at end of input Python raises [EOFError]. *)
Definition input (prompt : string) : M string :=
  fun st =>
    let tr := trace st ++ [EvInput prompt] in
    match stdin st with
    | [] => (Raise eof_error, {| self := self st; stdin := []; trace := tr |})
    | line :: rest => (Ok line, {| self := self st; stdin := rest; trace := tr |})
    end.

(** A call into a collaborator: its outcome is the collaborator's, given
    the history so far, and the call is recorded with whether it returned. *)
Definition call {A} (c : extcall) (behaviour : history -> result A) : M A :=
  fun st =>
    let r := behaviour (trace st) in
    (r, {| self := self st; stdin := stdin st; trace := trace st ++ [EvCall c (is_ok r)] |}).

Definition BACKSLASH : string := String (ascii_of_nat 92) EmptyString.

Definition or_empty (o : option string) : string :=
  match o with Some s => s | None => "" end.

Definition get_default (o : option string) (d : string) : string :=
  match o with Some s => s | None => d end.

(** How one pass through a [while True:] body ends. *)
Inductive loop_ctl (A : Type) : Type :=
| Continue
| Break (a : A).
Arguments Continue {A}.
Arguments Break {A} a.

(** [while True: line = input(prompt); body], for a body that reads no
    further input: the loop runs over the lines that standard input still
    holds, and stops with [EOFError] when they are used up. *)
Fixpoint while_input {A} (prompt : string) (body : string -> M (loop_ctl A))
    (lines : list string) : M A :=
  fun st =>
    let tr := trace st ++ [EvInput prompt] in
    match lines with
    | [] => (Raise eof_error, {| self := self st; stdin := []; trace := tr |})
    | line :: rest =>
        match body line {| self := self st; stdin := rest; trace := tr |} with
        | (Ok (Break a), st') => (Ok a, st')
        | (Ok Continue, st') => while_input prompt body rest st'
        | (Raise e, st') => (Raise e, st')
        end
    end.

(** How one pass through the body of [run]'s loop ends: [continue],
    [break], or on to the question that follows the [try] block. *)
Inductive pass : Type := PassContinue | PassBreak | PassAsk.

Definition fuel_exhausted : exn := Exn (OtherException "fuel") "".

(* ================================================================= *)
(** ** The methods of [MCPInteractiveHTTPClient] *)

Section Client.
Context {B : Builtins} {W : World}.

Definition set_ctx (k : transport_kind) : M unit :=
  c <- get_self ;;
  set_self {| url := url c; transport := transport c; _ctx := Some k;
              _read_stream := _read_stream c; _write_stream := _write_stream c;
              _get_session_id := _get_session_id c; _session := _session c |}.

Definition set_streams (r w : stream) (g : option (option string)) : M unit :=
  c <- get_self ;;
  set_self {| url := url c; transport := transport c; _ctx := _ctx c;
              _read_stream := Some r; _write_stream := Some w;
              _get_session_id := g; _session := _session c |}.

Definition set_session (s : ClientSession) : M unit :=
  c <- get_self ;;
  set_self {| url := url c; transport := transport c; _ctx := _ctx c;
              _read_stream := _read_stream c; _write_stream := _write_stream c;
              _get_session_id := _get_session_id c; _session := Some s |}.

Definition __aenter__ : M unit :=
  c <- get_self ;;
  log INFO "Opening interactive client (transport=%s, url=%s)"
      [LStr (transport c); LStr (url c)] false ;;
  try_except
    ((if transport c =? "http" then
        set_ctx StreamableHttp ;;
        sid <- call (TransportEnter StreamableHttp (url c))
                    (transport_aenter StreamableHttp (url c)) ;;
        set_streams (ReadStream StreamableHttp) (WriteStream StreamableHttp) (Some sid) ;;
        log INFO "Streamable-http session started (session_id=%s)" [LOptStr sid] false
      else if transport c =? "sse" then
        set_ctx Sse ;;
        _ <- call (TransportEnter Sse (url c)) (transport_aenter Sse (url c)) ;;
        set_streams (ReadStream Sse) (WriteStream Sse) (_get_session_id c) ;;
        log INFO "SSE connection established" [] false
      else
        log ERROR "Unknown client transport: '%s'" [LStr (transport c)] false ;;
        raise (Exn ValueError ("Unknown client transport: " ^^ transport c))) ;;
     c' <- get_self ;;
     set_session (MkSession (_read_stream c') (_write_stream c')) ;;
     call SessionEnter session_aenter ;;
     log INFO "ClientSession successfully entered" [] false)
    (fun e =>
       log ERROR "Failed to open interactive client: %s" [LExn e] true ;;
       raise e).

Definition __aexit__ (exc : option exn) : M unit :=
  log INFO "Closing interactive client" [] false ;;
  try_except
    (c <- get_self ;;
     match _session c with
     | Some _ =>
         call SessionExit (session_aexit exc) ;;
         log INFO "ClientSession closed" [] false
     | None => ret tt
     end)
    (fun e => log ERROR "Error while closing ClientSession: %s" [LExn e] true) ;;
  try_except
    (c <- get_self ;;
     match _ctx c with
     | Some _ =>
         call TransportExit (transport_aexit exc) ;;
         log INFO "Transport context closed" [] false
     | None => ret tt
     end)
    (fun e => log ERROR "Error while closing transport context: %s" [LExn e] true).

(** [async with client: body].  Python enters the manager, and only when
    [__aenter__] returned does it run the body and then [__aexit__], with
    the exception the body raised if any; [__aexit__] returns [None], so
    that exception is raised again.  A [return] inside the body leaves
    through the same exit as normal completion. *)
Definition async_with {A} (body : M A) : M A :=
  __aenter__ ;;
  fun st =>
    match body st with
    | (Ok a, st') => (__aexit__ None ;; ret a) st'
    | (Raise e, st') => (__aexit__ (Some e) ;; raise e) st'
    end.

Definition initialize : M unit :=
  c <- get_self ;;
  match _session c with
  | None => raise (Exn RuntimeError "Session not started")
  | Some _ =>
      log INFO "Initializing MCP session" [] false ;;
      try_except
        (call SessionInitialize session_initialize ;;
         log INFO "MCP session successfully initialized" [] false)
        (fun e => log ERROR "Initialize failed: %s" [LExn e] true ;; raise e)
  end.

Definition list_tools : M (list Tool) :=
  c <- get_self ;;
  match _session c with
  | None => raise (Exn RuntimeError "Session not started")
  | Some _ =>
      log INFO "Requesting tools/list" [] false ;;
      tools <- try_except
                 (call SessionListTools session_list_tools)
                 (fun e => log ERROR "tools/list failed: %s" [LExn e] true ;; raise e) ;;
      log INFO "Received %d tools" [LNat (length tools)] false ;;
      ret tools
  end.

Definition list_tools_simple : M (list string) :=
  tools <- list_tools ;;
  ret (map name tools).

(** [for i, tool in enumerate(tools, start=i): print(...)] *)
Fixpoint print_listing (i : nat) (tools : list Tool) : M unit :=
  match tools with
  | [] => ret tt
  | tool :: rest =>
      print (str_of_nat i ^^ ". " ^^ name tool ^^ " - " ^^ or_empty (description tool)) ;;
      print_listing (S i) rest
  end.

Definition choose_tool (tools : list Tool) : M (option Tool) :=
  match tools with
  | [] => ret None
  | _ =>
      print (LF ^^ "Available tools:") ;;
      print_listing 1 tools ;;
      line <- input (LF ^^ "Select a tool by number: ") ;;
      let choice := strip line in
      match py_int choice with
      | Some idx =>
          if ((1 <=? idx) && (idx <=? Z.of_nat (length tools)))%Z then
            match nth_error tools (Z.to_nat (idx - 1)) with
            | Some chosen =>
                log INFO "User selected tool: '%s'" [LStr (name chosen)] false ;;
                ret (Some chosen)
            | None => raise (Exn IndexError "list index out of range")
            end
          else ret None
      | None =>
          log WARNING "User entered invalid tool index: '%s'" [LStr choice] false ;;
          ret None
      end
  end.

Definition _parse_schema_value (prop_name prop_type value_str : string) : result json :=
  if prop_type =? "integer" then
    match int_of_str value_str with
    | Ok z => Ok (JInt z)
    | Raise e => Raise e
    end
  else if prop_type =? "number" then
    match py_float value_str with
    | Some f => Ok (JFloat f)
    | None =>
        Raise (Exn ValueError ("could not convert string to float: " ^^ py_repr value_str))
    end
  else if prop_type =? "boolean" then
    let lower := lower value_str in
    if str_in lower ["true"; "1"; "yes"; "y"] then Ok (JBool true)
    else if str_in lower ["false"; "0"; "no"; "n"] then Ok (JBool false)
    else Raise (Exn ValueError "Please enter true/false.")
  else if str_in prop_type ["array"; "object"] then
    match json_loads value_str with
    | Ok v => Ok v
    | Raise e =>
        if is_JSONDecodeError e then
          Raise (Exn ValueError
                   ("Please enter valid JSON for " ^^ prop_type ^^ ": " ^^ exn_msg e))
        else Raise e
    end
  else Ok (JStr value_str).

(** The body of the [while True:] loop of one property, after
    [input(...)]: [Break] carries the arguments dictionary as the loop
    leaves it. *)
Definition prompt_body (prop_name prop_type : string) (is_required : bool)
    (arguments : arguments_t) (line : string) : M (loop_ctl arguments_t) :=
  let value_str := strip line in
  if is_empty value_str then
    if is_required then
      print "This field is required." ;;
      log WARNING "Required field '%s' left empty by user" [LStr prop_name] false ;;
      ret Continue
    else ret (Break arguments)
  else
    match _parse_schema_value prop_name prop_type value_str with
    | Raise e =>
        if is_ValueError e then
          print (exn_msg e) ;;
          log WARNING "Invalid value for '%s': '%s' (%s)"
              [LStr prop_name; LStr value_str; LExn e] false ;;
          ret Continue
        else raise e
    | Ok value => ret (Break (dict_set arguments prop_name value))
    end.

Definition prop_label (prop_name : string) (prop_def : prop_def) (is_required : bool) : string :=
  let desc := get_default (pd_description prop_def) "" in
  let prop_type := get_default (pd_type prop_def) "string" in
  let label := prop_name ^^ " (" ^^ prop_type ^^ ")" in
  let label := if is_empty desc then label else label ^^ " - " ^^ desc in
  let label := label ^^ (if is_required then " [required]" else " [optional]") in
  if str_in prop_type ["array"; "object"] then label ^^ " (enter JSON value)" else label.

(** One property of the [for] loop: its label and its prompting loop. *)
Definition prompt_property (required : list string) (prop_name : string) (prop_def : prop_def)
    (arguments : arguments_t) : M arguments_t :=
  let prop_type := get_default (pd_type prop_def) "string" in
  let is_required := str_in prop_name required in
  let label := prop_label prop_name prop_def is_required in
  fun st =>
    while_input (label ^^ ": ") (prompt_body prop_name prop_type is_required arguments)
                (stdin st) st.

(** [for prop_name, prop_def in schema_props.items(): ...] *)
Fixpoint for_properties (required : list string) (props : dict prop_def)
    (arguments : arguments_t) : M arguments_t :=
  match props with
  | [] => ret arguments
  | (prop_name, prop_def) :: rest =>
      arguments' <- prompt_property required prop_name prop_def arguments ;;
      for_properties required rest arguments'
  end.

Definition prompt_arguments_for_tool (tool : Tool) : M arguments_t :=
  let name := name tool in
  let schema_props := properties (inputSchema tool) in
  let required := required (inputSchema tool) in
  print (LF ^^ "Tool '" ^^ name ^^ "' argument schema:") ;;
  match schema_props with
  | [] =>
      print "  (no schema provided, using empty arguments {})" ;;
      log INFO "Tool '%s' has no input schema; using empty arguments" [LStr name] false ;;
      ret []
  | _ =>
      arguments <- for_properties required schema_props [] ;;
      log INFO "Collected arguments for tool '%s': '%s'" [LStr name; LArgs arguments] false ;;
      ret arguments
  end.

(** [json.dumps(v, indent=2)] as a statement. *)
Definition dumps (v : json) : M string :=
  match json_dumps_raises v with
  | Some e => raise e
  | None => ret (json_dumps v)
  end.

(** The second rendering of [call_tool]. *)
Definition render_final (result_json_str : string) : string :=
  let result_final := replace (BACKSLASH ^^ "n") LF result_json_str in
  replace BACKSLASH "" result_final.

Definition call_tool (tool : Tool) (arguments : arguments_t) : M json :=
  c <- get_self ;;
  match _session c with
  | None => raise (Exn RuntimeError "Session not started")
  | Some _ =>
      log INFO "Calling tool '%s'" [LStr (name tool)] false ;;
      print (LF ^^ "Calling tool '" ^^ name tool ^^ "' with arguments:") ;;
      arguments_json_str <- dumps (JObj arguments) ;;
      print arguments_json_str ;;
      result_dict <-
        try_except
          (call (SessionCallTool (name tool) arguments)
                (session_call_tool (name tool) arguments))
          (fun e =>
             log ERROR "Tool call for '%s' failed: %s" [LStr (name tool); LExn e] true ;;
             raise e) ;;
      result_json_str <- dumps result_dict ;;
      print (LF ^^ "[TOOL RESULT (raw JSON)]") ;;
      print result_json_str ;;
      let result_final := render_final result_json_str in
      print (LF ^^ "[FINAL RESULT (rendered for readability, JSON formatting may be invalid)]") ;;
      print result_final ;;
      ret result_dict
  end.

Definition call_tool_by_name (name : string) (arguments : arguments_t) : M json :=
  c <- get_self ;;
  match _session c with
  | None => raise (Exn RuntimeError "Session not started")
  | Some _ =>
      log INFO "Calling tool by name '%s' (non-interactive)" [LStr name] false ;;
      try_except
        (call (SessionCallTool name arguments) (session_call_tool name arguments))
        (fun e =>
           log ERROR "Non-interactive tool call for '%s' failed: %s" [LStr name; LExn e] true ;;
           raise e)
  end.

(** The [try] block of one pass of [run]'s loop. *)
Definition loop_body (tools : list Tool) : M pass :=
  chosen_tool <- choose_tool tools ;;
  match chosen_tool with
  | None => ret PassContinue
  | Some tool =>
      arguments <- prompt_arguments_for_tool tool ;;
      _ <- call_tool tool arguments ;;
      ret PassAsk
  end.

(** The [try] block with its handler. *)
Definition loop_try (tools : list Tool) : M pass :=
  try_except (loop_body tools)
    (fun e =>
       log ERROR "Error during interactive tool call: %s" [LExn e] true ;;
       ret PassBreak).

(** The [while True:] loop of [run].  Every pass that comes round again
    has read at least one line, so a budget above the number of lines left
    on standard input is never used up ([run_loop_fuel]). *)
Fixpoint run_loop (fuel : nat) (tools : list Tool) : M unit :=
  match fuel with
  | O => raise fuel_exhausted
  | S fuel' =>
      p <- loop_try tools ;;
      match p with
      | PassContinue => run_loop fuel' tools
      | PassBreak => ret tt
      | PassAsk =>
          line <- input (LF ^^ "Call another tool? [y/n]: ") ;;
          let again := lower (strip line) in
          if str_in again ["n"; "no"; ""] then
            log INFO "User chose to exit interactive loop" [] false ;;
            ret tt
          else run_loop fuel' tools
      end
  end.

(** The loop, with a budget that the lines left on standard input cannot
    use up. *)
Definition interactive_loop (tools : list Tool) : M unit :=
  fun st => run_loop (S (length (stdin st))) tools st.

Definition run : M unit :=
  started <- try_except
               (initialize ;;
                tools <- list_tools ;;
                ret (Some tools))
               (fun e =>
                  log ERROR "Failed to start interactive loop: %s" [LExn e] true ;;
                  ret None) ;;
  match started with
  | None => ret tt
  | Some [] =>
      print "No tools available." ;;
      log WARNING "Server returned no tools" [] false ;;
      ret tt
  | Some tools => interactive_loop tools
  end.

End Client.

(* ================================================================= *)
(** ** [logging_setup.py] and the constructor's logging *)

(** The part of the [logging] module's state that the code touches: the
    root logger's level and its list of handlers. *)
Inductive formatter : Type :=
| ColorFormatter (fmt : string)
| OtherFormatter (name : string).

Inductive handler : Type :=
| StreamHandler (f : option formatter)
| OtherHandler (name : string).

Record root_logger : Type := MkRoot {
  root_level : Z;
  root_handlers : list handler
}.

(** [logging.INFO] *)
Definition logging_INFO : Z := 20.

(** [setup_colored_logger(level)]: a stream handler with the colour
    formatter replaces whatever handlers the root logger had. *)
Definition setup_colored_logger (level : Z) (root : root_logger) : root_logger :=
  let handler := StreamHandler (Some (ColorFormatter "[%(levelname)s] %(name)s: %(message)s")) in
  let root := {| root_level := level; root_handlers := root_handlers root |} in
  let root := {| root_level := root_level root; root_handlers := [] |} in
  {| root_level := root_level root; root_handlers := root_handlers root ++ [handler] |}.

(** The logging part of the constructor ([activate_logger] and below):
    the root logger as it leaves it, and the record it logs. *)
Definition init_logging (activate_logger : bool) (root : root_logger)
  : root_logger * list event :=
  if activate_logger then
    let root' :=
      match root_handlers root with
      | [] => setup_colored_logger logging_INFO root
      | _ => root
      end in
    (root', [EvLog INFO "Logger activated for MCPInteractiveHTTPClient" [] false])
  else (root, []).

(** Constructing clients one after the other, with the given flags. *)
Fixpoint construct_all (flags : list bool) (root : root_logger)
  : root_logger * list event :=
  match flags with
  | [] => (root, [])
  | f :: rest =>
      let (root1, evs1) := init_logging f root in
      let (root2, evs2) := construct_all rest root1 in
      (root2, evs1 ++ evs2)
  end.

(* ================================================================= *)
(** ** [example.py] *)

Definition HTTP_URL : string := "http://localhost:8000/mcp".
Definition SSE_URL : string := "http://localhost:8000/sse".

Definition transport_question : string :=
  "Choose transport type:" ^^ LF ^^ "1: 'http' (streamable-http)" ^^ LF
  ^^ "2: 'sse' (Server-Sent Events)" ^^ LF ^^ "Enter 1 or 2: ".

Section Example.
Context {B : Builtins} {W : World}.

(** [MCPInteractiveHTTPClient(url, transport, activate_logger)] as a
    statement: the new object becomes the client of the state, and the
    constructor's record is logged when [activate_logger] is true. *)
Definition construct (url transport : string) (activate_logger : bool) : M unit :=
  set_self (__init__ url transport) ;;
  if activate_logger then
    log INFO "Logger activated for MCPInteractiveHTTPClient" [] false
  else ret tt.

(** [async with MCPInteractiveHTTPClient(HTTP_URL, transport="http") as
    client: await client.run()]; [activate_logger] has its default. *)
Definition main_http : M unit :=
  construct HTTP_URL "http" true ;;
  async_with run.

Definition main_sse : M unit :=
  construct SSE_URL "sse" true ;;
  async_with run.

(** The [if __name__ == "__main__":] block. *)
Definition example_main : M unit :=
  transport <- input transport_question ;;
  if transport =? "1" then
    print "Running MCP Interactive HTTP Client with streamable-http transport..." ;;
    main_http
  else if transport =? "2" then
    print "Running MCP Interactive HTTP Client with SSE transport..." ;;
    main_sse
  else
    print "Invalid choice, defaulting to streamable-http transport..." ;;
    main_http.

End Example.

(* ================================================================= *)
(** ** The close path when a close operation is interrupted *)

(** [except Exception] catches the instances of [Exception].  An awaited
    operation can also end in an exception that is not one:
    [asyncio.CancelledError], [KeyboardInterrupt], [SystemExit] and
    [GeneratorExit] derive from [BaseException] alone.  The embedding above
    has the instances of [Exception] only; here [__aexit__] is embedded
    once more, from the same lines, with close operations that can end in
    all three ways. *)
Module Signals.

Inductive signal : Type :=
| CancelledError
| KeyboardInterrupt
| SystemExit
| GeneratorExit.

(** What is in flight when the block is left: the [exc] of [__aexit__]. *)
Inductive thrown : Type :=
| Exc (e : exn)
| Sig (s : signal).

Inductive outcome (A : Type) : Type :=
| Returned (a : A)
| Raised (e : exn)
| Signalled (s : signal).
Arguments Returned {A} a.
Arguments Raised {A} e.
Arguments Signalled {A} s.

Definition is_returned {A} (r : outcome A) : bool :=
  match r with Returned _ => true | _ => false end.

Definition of_result {A} (r : result A) : outcome A :=
  match r with Ok a => Returned a | Raise e => Raised e end.

Definition MS (A : Type) : Type := state -> outcome A * state.

(** A statement that ends in no signal of its own: logging, reading the
    client object. *)
Definition lift {A} (m : M A) : MS A :=
  fun st => let (r, st') := m st in (of_result r, st').

Definition bind_s {A C} (c : MS A) (k : A -> MS C) : MS C :=
  fun st =>
    match c st with
    | (Returned a, st') => k a st'
    | (Raised e, st') => (Raised e, st')
    | (Signalled s, st') => (Signalled s, st')
    end.

(** [try: body / except Exception as e: handler e]: a signal passes. *)
Definition try_except_s {A} (body : MS A) (handler : exn -> MS A) : MS A :=
  fun st =>
    match body st with
    | (Raised e, st') => handler e st'
    | other => other
    end.

Definition call_s {A} (c : extcall) (behaviour : history -> outcome A) : MS A :=
  fun st =>
    let r := behaviour (trace st) in
    (r, {| self := self st; stdin := stdin st;
           trace := trace st ++ [EvCall c (is_returned r)] |}).

(** [self._session.__aexit__(exc_type, exc, tb)] and
    [self._ctx.__aexit__(exc_type, exc, tb)]. *)
Class Closers : Type := {
  close_session : option thrown -> history -> outcome unit;
  close_transport : option thrown -> history -> outcome unit
}.

Section ClosePath.
Context {C : Closers}.

Definition __aexit__ (exc : option thrown) : MS unit :=
  bind_s (lift (log INFO "Closing interactive client" [] false)) (fun _ =>
  bind_s
    (try_except_s
       (bind_s (lift get_self) (fun c =>
        match _session c with
        | Some _ =>
            bind_s (call_s SessionExit (close_session exc)) (fun _ =>
            lift (log INFO "ClientSession closed" [] false))
        | None => lift (ret tt)
        end))
       (fun e => lift (log ERROR "Error while closing ClientSession: %s" [LExn e] true)))
    (fun _ =>
  try_except_s
    (bind_s (lift get_self) (fun c =>
     match _ctx c with
     | Some _ =>
         bind_s (call_s TransportExit (close_transport exc)) (fun _ =>
         lift (log INFO "Transport context closed" [] false))
     | None => lift (ret tt)
     end))
    (fun e => lift (log ERROR "Error while closing transport context: %s" [LExn e] true)))).

End ClosePath.

End Signals.

(* ================================================================= *)
(** ** Observations on histories *)

Definition is_call (c : extcall) (e : event) : bool :=
  match e, c with
  | EvCall (TransportEnter _ _) _, TransportEnter _ _ => true
  | EvCall TransportExit _, TransportExit => true
  | EvCall SessionEnter _, SessionEnter => true
  | EvCall SessionExit _, SessionExit => true
  | EvCall SessionInitialize _, SessionInitialize => true
  | EvCall SessionListTools _, SessionListTools => true
  | EvCall (SessionCallTool _ _) _, SessionCallTool _ _ => true
  | _, _ => false
  end.

(** Any call into the transport or the session. *)
Definition is_collaborator_call (e : event) : bool :=
  match e with EvCall _ _ => true | _ => false end.

Definition is_print (e : event) : bool :=
  match e with EvPrint _ => true | _ => false end.

Definition is_input (e : event) : bool :=
  match e with EvInput _ => true | _ => false end.

Definition is_log (e : event) : bool :=
  match e with EvLog _ _ _ _ => true | _ => false end.

(** The transport context manager was entered and [__aenter__] returned. *)
Definition transport_opened (e : event) : bool :=
  match e with EvCall (TransportEnter _ _) true => true | _ => false end.

(** [__aexit__] of the transport context manager was invoked. *)
Definition transport_exit_invoked (e : event) : bool :=
  match e with EvCall TransportExit _ => true | _ => false end.

Definition count (p : event -> bool) (h : history) : nat :=
  length (filter p h).

(** The handshake has completed: [session.initialize()] returned. *)
Definition handshake_done (h : history) : bool :=
  existsb (fun e => match e with EvCall SessionInitialize true => true | _ => false end) h.

(** The events of [__aexit__] for one of the two resources: nothing when
    the attribute is [None]; otherwise the call, followed by the
    confirmation or by the error record. *)
Definition close_events (present : bool) (c : extcall) (outcome : result unit)
    (ok_msg err_fmt : string) : list event :=
  if present then
    match outcome with
    | Ok _ => [EvCall c true; EvLog INFO ok_msg [] false]
    | Raise e => [EvCall c false; EvLog ERROR err_fmt [LExn e] true]
    end
  else [].

Definition is_some {A} (o : option A) : bool :=
  match o with Some _ => true | None => false end.

(* ================================================================= *)
(** ** The readability rendering, as the specification words it *)

Definition is_backslash (c : ascii) : bool := Ascii.eqb c (ascii_of_nat 92).

(** Every backslash followed by [n] becomes a line break. *)
Fixpoint unescape_newlines (s : string) : string :=
  match s with
  | EmptyString => EmptyString
  | String c1 s1 =>
      match s1 with
      | String c2 s2 =>
          if is_backslash c1 && Ascii.eqb c2 "n"
          then String (ascii_of_nat 10) (unescape_newlines s2)
          else String c1 (unescape_newlines s1)
      | EmptyString => String c1 EmptyString
      end
  end.

(** Every backslash is removed. *)
Fixpoint strip_backslashes (s : string) : string :=
  match s with
  | EmptyString => EmptyString
  | String c s' =>
      if is_backslash c then strip_backslashes s' else String c (strip_backslashes s')
  end.

(* ================================================================= *)
(** ** Sample collaborators, tools and inputs *)

Definition QUOTE : string := String (ascii_of_nat 34) EmptyString.

(** An indented JSON text whose string holds an escaped line break and an
    escaped backslash. *)
Definition sample_rendering : string :=
  "{" ^^ LF ^^ "  " ^^ QUOTE ^^ "text" ^^ QUOTE ^^ ": " ^^ QUOTE ^^ "a"
  ^^ BACKSLASH ^^ "nb" ^^ BACKSLASH ^^ BACKSLASH ^^ "c" ^^ QUOTE ^^ LF ^^ "}".

Definition plain_builtins : Builtins :=
  {| py_float := fun _ => None;
     py_repr := fun s => "'" ^^ s ^^ "'";
     json_loads := fun _ => Raise (Exn JSONDecodeError "Expecting value: line 1 column 1 (char 0)");
     json_dumps := fun _ => sample_rendering;
     json_dumps_raises := fun _ => None |}.

(** The tool of the specification's end-to-end scenario. *)
Definition echo_tool : Tool :=
  MkTool "echo" None (Schema [("msg", PropDef None (Some "string"))] ["msg"]).

(** A tool with one optional integer property. *)
Definition count_tool : Tool :=
  MkTool "count" (Some "Count") (Schema [("n", PropDef None (Some "integer"))] []).

(** A server where everything succeeds. *)
Definition healthy_world : World :=
  {| transport_aenter := fun _ _ _ => Ok (Some "session-1");
     transport_aexit := fun _ _ => Ok tt;
     session_aenter := fun _ => Ok tt;
     session_aexit := fun _ _ => Ok tt;
     session_initialize := fun _ => Ok tt;
     session_list_tools := fun _ => Ok [echo_tool; count_tool];
     session_call_tool := fun _ _ _ => Ok (JObj [("isError", JBool false)]) |}.

(** The transport opens, and entering the protocol session fails. *)
Definition session_entry_fails : World :=
  {| transport_aenter := fun _ _ _ => Ok (Some "session-1");
     transport_aexit := fun _ _ => Ok tt;
     session_aenter := fun _ => Raise (Exn RuntimeError "session entry failed");
     session_aexit := fun _ _ => Ok tt;
     session_initialize := fun _ => Ok tt;
     session_list_tools := fun _ => Ok [echo_tool];
     session_call_tool := fun _ _ _ => Ok JNull |}.

(** The handshake is refused. *)
Definition handshake_fails : World :=
  {| transport_aenter := fun _ _ _ => Ok (Some "session-1");
     transport_aexit := fun _ _ => Ok tt;
     session_aenter := fun _ => Ok tt;
     session_aexit := fun _ _ => Ok tt;
     session_initialize := fun _ => Raise (Exn (OtherException "McpError") "handshake refused");
     session_list_tools := fun _ => Ok [echo_tool];
     session_call_tool := fun _ _ _ => Ok JNull |}.

(** A freshly constructed client with the given lines on standard input. *)
Definition fresh (transport : string) (lines : list string) : state :=
  MkState (__init__ "http://localhost:8000/mcp" transport) lines [].

(** A client whose transport and session are entered, handshake pending. *)
Definition entered (lines : list string) : state :=
  MkState
    {| url := "http://localhost:8000/mcp"; transport := "http";
       _ctx := Some StreamableHttp;
       _read_stream := Some (ReadStream StreamableHttp);
       _write_stream := Some (WriteStream StreamableHttp);
       _get_session_id := Some (Some "session-1");
       _session := Some (MkSession (Some (ReadStream StreamableHttp))
                                   (Some (WriteStream StreamableHttp))) |}
    lines [].

(* ================================================================= *)
(** ** Proof tools *)

(** Unfold the monad on straight-line code. *)
Ltac step_m :=
  unfold bind, ret, raise, try_except, get_self, set_self, set_ctx, set_streams,
    set_session, log, print, emit, call, input in *; cbn [fst snd self stdin trace] in *.

Create HintDb pyclient.

(* ================================================================= *)
(** ** Notions used in the statements *)

(** The two transport kinds [__aenter__] knows. *)
Definition recognised (t : string) : bool := (t =? "http") || (t =? "sse").

(** The events of one close attempt when the operation can also be
    interrupted: a signal leaves the call on record and nothing after it. *)
Definition close_attempt (present : bool) (c : extcall) (outcome : Signals.outcome unit)
    (ok_msg err_fmt : string) : list event :=
  if present then
    match outcome with
    | Signals.Returned _ => [EvCall c true; EvLog INFO ok_msg [] false]
    | Signals.Raised e => [EvCall c false; EvLog ERROR err_fmt [LExn e] true]
    | Signals.Signalled _ => [EvCall c false]
    end
  else [].

(** The signal that ends a close attempt, if one does. *)
Definition interrupted_by (present : bool) (outcome : Signals.outcome unit)
  : option Signals.signal :=
  if present then
    match outcome with
    | Signals.Signalled s => Some s
    | _ => None
    end
  else None.

(** Close operations that end as those of a [World] do. *)
Definition without_signals (W : World) (C : Signals.Closers) : Prop :=
  forall exc h,
    Signals.close_session (option_map Signals.Exc exc) h
      = Signals.of_result (session_aexit exc h) /\
    Signals.close_transport (option_map Signals.Exc exc) h
      = Signals.of_result (transport_aexit exc h).

(** The task is cancelled while the session is being closed. *)
Definition cancelled_while_closing : Signals.Closers :=
  {| Signals.close_session := fun _ _ => Signals.Signalled Signals.CancelledError;
     Signals.close_transport := fun _ _ => Signals.Returned tt |}.

(** The lines of the enumerated listing, numbered from [i]. *)
Fixpoint listing (i : nat) (tools : list Tool) : list event :=
  match tools with
  | [] => []
  | t :: rest =>
      EvPrint (str_of_nat i ^^ ". " ^^ name t ^^ " - " ^^ or_empty (description t))
      :: listing (S i) rest
  end.

(** The history once the listing is shown and the selection is asked for. *)
Definition asked (tr : history) (tools : list Tool) : history :=
  tr ++ EvPrint (LF ^^ "Available tools:") :: listing 1 tools
     ++ [EvInput (LF ^^ "Select a tool by number: ")].

(** The tokens of a boolean entry, and the type tags with a parser of
    their own. *)
Definition truthy : list string := ["true"; "1"; "yes"; "y"].
Definition falsy : list string := ["false"; "0"; "no"; "n"].
Definition type_tags : list string := ["integer"; "number"; "boolean"; "array"; "object"].

(** Whether the scan has just read a digit. *)
Definition after_digit (prev : scanned) : bool :=
  match prev with AfterDigit => true | _ => false end.

(** The prompt of a property, and the two records of a rejected entry. *)
Definition prop_type_of (pd : prop_def) : string := get_default (pd_type pd) "string".

Definition prop_prompt (required : list string) (k : string) (pd : prop_def) : string :=
  prop_label k pd (str_in k required) ^^ ": ".

Definition rejected_empty (k : string) : list event :=
  [EvPrint "This field is required.";
   EvLog WARNING "Required field '%s' left empty by user" [LStr k] false].

Definition rejected_value (k value_str : string) (e : exn) : list event :=
  [EvPrint (exn_msg e);
   EvLog WARNING "Invalid value for '%s': '%s' (%s)" [LStr k; LStr value_str; LExn e] false].

(** The state once [prompt_arguments_for_tool] has printed its heading. *)
Definition heading_shown (tool : Tool) (st : state) : state :=
  MkState (self st) (stdin st)
    (trace st ++ [EvPrint (LF ^^ "Tool '" ^^ name tool ^^ "' argument schema:")]).

(** What is left of [prompt_arguments_for_tool] once the properties before
    [remaining] have been asked for and left [arguments]. *)
Definition prompt_rest {B : Builtins} (tool : Tool) (remaining : dict prop_def)
    (arguments : arguments_t) : M arguments_t :=
  arguments <- for_properties (required (inputSchema tool)) remaining arguments ;;
  log INFO "Collected arguments for tool '%s': '%s'" [LStr (name tool); LArgs arguments] false ;;
  ret arguments.

(** The decimal numeral of [n] digits one. *)
Fixpoint ones (n : nat) : string :=
  match n with
  | 0 => ""
  | S k => "1" ^^ ones k
  end.

(** A text of [n] opening brackets. *)
Fixpoint brackets (n : nat) : string :=
  match n with
  | 0 => ""
  | S k => "[" ^^ brackets k
  end.

(** [json.loads] on a text nested as deep as the interpreter's recursion
    limit: CPython raises [RecursionError], not [JSONDecodeError]. *)
Definition deep_text : string := brackets 1000.

Definition recursion_error : exn :=
  Exn (OtherException "RecursionError")
      "maximum recursion depth exceeded while decoding a JSON array from a unicode string".

Definition deep_builtins : Builtins :=
  {| py_float := fun _ => None;
     py_repr := fun s => "'" ^^ s ^^ "'";
     json_loads := fun s =>
       if s =? deep_text then Raise recursion_error
       else if s =? "[]" then Ok (JArr [])
       else Raise (Exn JSONDecodeError "Expecting value: line 1 column 1 (char 0)");
     json_dumps := fun _ => sample_rendering;
     json_dumps_raises := fun _ => None |}.

(** A tool with one required array property. *)
Definition list_tool : Tool :=
  MkTool "sum" None (Schema [("xs", PropDef None (Some "array"))] ["xs"]).

(** A backslash followed by [n]: the first pattern of the rendering. *)
Definition ESCAPED_N : string := BACKSLASH ^^ "n".

(** The history once [call_tool] has logged the call and printed its
    heading. *)
Definition call_heading (tool : Tool) (h : history) : history :=
  h ++ [EvLog INFO "Calling tool '%s'" [LStr (name tool)] false;
        EvPrint (LF ^^ "Calling tool '" ^^ name tool ^^ "' with arguments:")].

(** The history once [call_tool] has announced the call. *)
Definition announced {B : Builtins} (tool : Tool) (arguments : arguments_t) (h : history) : history :=
  h ++ [EvLog INFO "Calling tool '%s'" [LStr (name tool)] false;
        EvPrint (LF ^^ "Calling tool '" ^^ name tool ^^ "' with arguments:");
        EvPrint (json_dumps (JObj arguments))].

(** The events of the methods that work inside an open client: anything
    but entering or leaving the transport and the session. *)
Definition body_event (e : event) : bool :=
  match e with
  | EvCall (TransportEnter _ _) _ | EvCall TransportExit _
  | EvCall SessionEnter _ | EvCall SessionExit _ => false
  | _ => true
  end.

(** [st'] comes after [st] inside an open client: same client object, no
    more input than before, and a history longer by body events. *)
Definition follows (st st' : state) : Prop :=
  self st' = self st /\
  length (stdin st') <= length (stdin st) /\
  exists evs, trace st' = trace st ++ evs /\ forallb body_event evs = true.

(** A computation every run of which stays inside the open client. *)
Definition framed {A} (m : M A) : Prop := forall st, follows st (snd (m st)).

(** The answers that end the interactive loop. *)
Definition stop_answers : list string := ["n"; "no"; ""].

(** The question after an invocation. *)
Definition again_prompt : string := LF ^^ "Call another tool? [y/n]: ".

(** [st] with further events recorded. *)
Definition record (st : state) (evs : list event) : state :=
  MkState (self st) (stdin st) (trace st ++ evs).

(** [st] once [input(prompt)] has taken its first line. *)
Definition after_input (st : state) (prompt : string) : state :=
  MkState (self st) (tl (stdin st)) (trace st ++ [EvInput prompt]).

(** A request for the tool list or a tool call sent to the session. *)
Definition tool_traffic (e : event) : bool :=
  match e with
  | EvCall SessionListTools _ | EvCall (SessionCallTool _ _) _ => true
  | _ => false
  end.

(** The successful return of [session.initialize()]. *)
Definition handshake_event (e : event) : bool :=
  match e with EvCall SessionInitialize true => true | _ => false end.

(** A tool with a required name that is not declared, an optional integer
    and a required string. *)
Definition mixed_tool : Tool :=
  MkTool "mixed" None
    (Schema [("n", PropDef None (Some "integer")); ("msg", PropDef (Some "text") None)]
            ["ghost"; "msg"]).

(** A server that lists no tools. *)
Definition empty_server : World :=
  {| transport_aenter := fun _ _ _ => Ok None;
     transport_aexit := fun _ _ => Ok tt;
     session_aenter := fun _ => Ok tt;
     session_aexit := fun _ _ => Ok tt;
     session_initialize := fun _ => Ok tt;
     session_list_tools := fun _ => Ok [];
     session_call_tool := fun _ _ _ => Ok JNull |}.

(** The transport kind a transport string selects. *)
Definition kind_of (t : string) : option transport_kind :=
  if t =? "http" then Some StreamableHttp
  else if t =? "sse" then Some Sse
  else None.

(** [__aexit__] of the session was invoked. *)
Definition session_exit_invoked (e : event) : bool :=
  match e with EvCall SessionExit _ => true | _ => false end.

(** The root logger as [setup_colored_logger(logging.INFO)] leaves it. *)
Definition colored_root : root_logger :=
  {| root_level := logging_INFO;
     root_handlers :=
       [StreamHandler (Some (ColorFormatter "[%(levelname)s] %(name)s: %(message)s"))] |}.

(** How many of the constructions asked for logging. *)
Fixpoint activations (flags : list bool) : nat :=
  match flags with
  | [] => 0
  | f :: rest => (if f then 1 else 0) + activations rest
  end.

(** What the example program prints once the transport is chosen. *)
Definition banner (line : string) : string :=
  if line =? "1" then "Running MCP Interactive HTTP Client with streamable-http transport..."
  else if line =? "2" then "Running MCP Interactive HTTP Client with SSE transport..."
  else "Invalid choice, defaulting to streamable-http transport...".

Ltac norm_tr :=
  repeat (rewrite <- app_assoc); cbn [app]; repeat (rewrite <- app_assoc; cbn [app]).

(* ================================================================= *)
(** * Properties *)

(* ----------------------------------------------------------------- *)
(** ** Decimal numerals are read back by [int] *)

Lemma rstrip_digits : forall d, rstrip (NilEmpty.string_of_uint d) = NilEmpty.string_of_uint d.
Proof.
  induction d; cbn [NilEmpty.string_of_uint rstrip]; try reflexivity;
    rewrite IHd; destruct (NilEmpty.string_of_uint d); reflexivity.
Qed.

Lemma int_digits_step : forall (k : nat) c s acc b,
  digit_of c = Some (Z.of_nat k) ->
  int_digits (Z.of_nat acc) b (String c s) = int_digits (Z.of_nat (k + 10 * acc)) true s.
Proof.
  intros k c s acc b H. cbn [int_digits]. rewrite H. f_equal. lia.
Qed.

Lemma int_digits_uint : forall d acc,
  int_digits (Z.of_nat acc) true (NilEmpty.string_of_uint d)
  = Some (Z.of_nat (Nat.of_uint_acc d acc)).
Proof.
  induction d; intros acc; cbn [NilEmpty.string_of_uint Nat.of_uint_acc];
    [ reflexivity
    | rewrite (int_digits_step 0) by reflexivity
    | rewrite (int_digits_step 1) by reflexivity
    | rewrite (int_digits_step 2) by reflexivity
    | rewrite (int_digits_step 3) by reflexivity
    | rewrite (int_digits_step 4) by reflexivity
    | rewrite (int_digits_step 5) by reflexivity
    | rewrite (int_digits_step 6) by reflexivity
    | rewrite (int_digits_step 7) by reflexivity
    | rewrite (int_digits_step 8) by reflexivity
    | rewrite (int_digits_step 9) by reflexivity ];
    rewrite IHd, Nat.tail_mul_spec; reflexivity.
Qed.

Lemma py_int_digits : forall d,
  d <> Decimal.Nil ->
  py_int (NilEmpty.string_of_uint d) = Some (Z.of_nat (Nat.of_uint d)).
Proof.
  intros d Hd. unfold py_int, strip.
  assert (Hl : lstrip (NilEmpty.string_of_uint d) = NilEmpty.string_of_uint d)
    by (destruct d; reflexivity).
  rewrite Hl, rstrip_digits. unfold Nat.of_uint.
  destruct d; [congruence|..]; cbn [NilEmpty.string_of_uint Nat.of_uint_acc];
    [ rewrite (int_digits_step 0 _ _ 0) by reflexivity
    | rewrite (int_digits_step 1 _ _ 0) by reflexivity
    | rewrite (int_digits_step 2 _ _ 0) by reflexivity
    | rewrite (int_digits_step 3 _ _ 0) by reflexivity
    | rewrite (int_digits_step 4 _ _ 0) by reflexivity
    | rewrite (int_digits_step 5 _ _ 0) by reflexivity
    | rewrite (int_digits_step 6 _ _ 0) by reflexivity
    | rewrite (int_digits_step 7 _ _ 0) by reflexivity
    | rewrite (int_digits_step 8 _ _ 0) by reflexivity
    | rewrite (int_digits_step 9 _ _ 0) by reflexivity ];
    rewrite int_digits_uint; reflexivity.
Qed.

Lemma py_int_str_of_nat : forall n, py_int (str_of_nat n) = Some (Z.of_nat n).
Proof.
  intros n. unfold str_of_nat.
  rewrite <- (Unsigned.of_to n) at 2.
  destruct (Nat.to_uint n) eqn:E; [reflexivity|..];
    cbv beta iota delta [NilZero.string_of_uint]; apply py_int_digits; discriminate.
Qed.

(* ----------------------------------------------------------------- *)
(** ** Opening and closing the client *)

Section Lifecycle.
Context {W : World}.

Ltac done_gate :=
  eexists _, _, _;
  split; [reflexivity | split; [reflexivity | first [discriminate | intros _; auto]]].

(** C7.  Opening the client calls into the transport or the session
    exactly when the transport kind is "http" or "sse".  For any other
    kind [__aenter__] raises [ValueError] at once: the client object is
    left as it was (no context manager, no streams, no session), and the
    only events are three log records. *)
Theorem aenter_transport_gate : forall st,
  exists r c' evs,
    __aenter__ st = (r, MkState c' (stdin st) (trace st ++ evs)) /\
    existsb is_collaborator_call evs = recognised (transport (self st)) /\
    (recognised (transport (self st)) = false ->
       r = Raise (Exn ValueError ("Unknown client transport: " ^^ transport (self st))) /\
       c' = self st /\
       evs = [EvLog INFO "Opening interactive client (transport=%s, url=%s)"
                [LStr (transport (self st)); LStr (url (self st))] false;
              EvLog ERROR "Unknown client transport: '%s'" [LStr (transport (self st))] false;
              EvLog ERROR "Failed to open interactive client: %s"
                [LExn (Exn ValueError ("Unknown client transport: " ^^ transport (self st)))]
                true]).
Proof.
  intros [c lines tr]. unfold __aenter__, recognised. step_m.
  destruct (transport c =? "http") eqn:Hh.
  - step_m.
    destruct (transport_aenter StreamableHttp (url c) _) as [sid|e] eqn:Ht; step_m.
    + destruct (session_aenter _) as [[]|e] eqn:Hs; step_m; rewrite <- !app_assoc; cbn [app];
        done_gate.
    + rewrite <- !app_assoc; cbn [app].
      done_gate.
  - destruct (transport c =? "sse") eqn:Hs.
    + step_m.
      destruct (transport_aenter Sse (url c) _) as [sid|e] eqn:Ht; step_m.
      * destruct (session_aenter _) as [[]|e] eqn:Hs'; step_m; rewrite <- !app_assoc; cbn [app];
          done_gate.
      * rewrite <- !app_assoc; cbn [app].
        done_gate.
    + step_m. rewrite <- !app_assoc; cbn [app].
      done_gate.
Qed.
End Lifecycle.

Section Closing.
Context {W : World}.

Lemma aexit_spec : forall exc st,
  let h0 := trace st ++ [EvLog INFO "Closing interactive client" [] false] in
  let session_part :=
    close_events (is_some (_session (self st))) SessionExit (session_aexit exc h0)
      "ClientSession closed" "Error while closing ClientSession: %s" in
  let h1 := h0 ++ session_part in
  let transport_part :=
    close_events (is_some (_ctx (self st))) TransportExit (transport_aexit exc h1)
      "Transport context closed" "Error while closing transport context: %s" in
  __aexit__ exc st = (Ok tt, MkState (self st) (stdin st) (h1 ++ transport_part)).
Proof.
  intros exc [c lines tr]. unfold __aexit__, close_events. step_m.
  destruct (_session c) as [s|]; cbn [is_some]; step_m; norm_tr.
  - destruct (session_aexit exc _) as [[]|e]; step_m; norm_tr;
      (destruct (_ctx c) as [k|]; cbn [is_some]; step_m; norm_tr;
       [ destruct (transport_aexit exc _) as [[]|e']; step_m; norm_tr | ]);
      rewrite ?app_nil_r; reflexivity.
  - destruct (_ctx c) as [k|]; cbn [is_some]; step_m; norm_tr;
      [ destruct (transport_aexit exc _) as [[]|e']; step_m; norm_tr | ];
      rewrite ?app_nil_r; reflexivity.
Qed.

Lemma initialize_keeps_client : forall st,
  self (snd (initialize st)) = self st /\ stdin (snd (initialize st)) = stdin st.
Proof.
  intros [c lines tr]. unfold initialize. step_m.
  destruct (_session c); step_m; [|auto].
  destruct (session_initialize _) as [[]|e]; step_m; auto.
Qed.

Lemma count_app : forall p (a b : history), count p (a ++ b) = count p a + count p b.
Proof. intros. unfold count. rewrite filter_app, length_app. reflexivity. Qed.

End Closing.

Section InterruptedClosing.
Context {W : World} {C : Signals.Closers}.

Lemma signals_aexit_spec : forall exc st,
  let h0 := trace st ++ [EvLog INFO "Closing interactive client" [] false] in
  let session_present := is_some (_session (self st)) in
  let session_part :=
    close_attempt session_present SessionExit (Signals.close_session exc h0)
      "ClientSession closed" "Error while closing ClientSession: %s" in
  let h1 := h0 ++ session_part in
  let transport_present := is_some (_ctx (self st)) in
  let transport_part :=
    close_attempt transport_present TransportExit (Signals.close_transport exc h1)
      "Transport context closed" "Error while closing transport context: %s" in
  Signals.__aexit__ exc st =
    match interrupted_by session_present (Signals.close_session exc h0) with
    | Some s => (Signals.Signalled s, MkState (self st) (stdin st) h1)
    | None =>
        (match interrupted_by transport_present (Signals.close_transport exc h1) with
         | Some s => Signals.Signalled s
         | None => Signals.Returned tt
         end,
         MkState (self st) (stdin st) (h1 ++ transport_part))
    end.
Proof.
  intros exc [c lines tr].
  unfold Signals.__aexit__, Signals.bind_s, Signals.try_except_s, Signals.lift,
    Signals.call_s, Signals.of_result, close_attempt, interrupted_by.
  step_m.
  destruct (_session c) as [s|]; cbn [is_some]; step_m; norm_tr.
  - destruct (Signals.close_session exc _) as [[]|e|sg]; cbn [Signals.is_returned];
      step_m; norm_tr; [ | | reflexivity];
      (destruct (_ctx c) as [k|]; cbn [is_some]; step_m; norm_tr;
       [ destruct (Signals.close_transport exc _) as [[]|e'|sg']; cbn [Signals.is_returned];
         step_m; norm_tr | ]);
      rewrite ?app_nil_r; reflexivity.
  - destruct (_ctx c) as [k|]; cbn [is_some]; step_m; norm_tr;
      [ destruct (Signals.close_transport exc _) as [[]|e'|sg']; cbn [Signals.is_returned];
        step_m; norm_tr | ];
      rewrite ?app_nil_r; reflexivity.
Qed.

(** C2, as the code has it.  What [__aexit__] does with the two close
    operations.  The session is closed first, then the transport, each
    when its attribute is set.  A close operation that raises an [Exception] is recorded in
    an error log record of its own and does not stop the other attempt:
    no [Exception] ever leaves [__aexit__], and when neither operation
    is interrupted it returns normally.  An exception that is no
    [Exception] is not caught: it leaves [__aexit__], and when it comes
    from the session's exit the transport's exit is not attempted.  With
    close operations that are never interrupted this is the [__aexit__]
    of the embedding above, for which: an exception raised by the body of
    the [async with] block is the one that leaves the block, and after a
    failed [initialize] the close path returns and invokes the
    transport's exit. *)
Theorem aexit_catches_exceptions_only :
  (forall exc st,
     let h0 := trace st ++ [EvLog INFO "Closing interactive client" [] false] in
     let session_present := is_some (_session (self st)) in
     let session_part :=
       close_attempt session_present SessionExit (Signals.close_session exc h0)
         "ClientSession closed" "Error while closing ClientSession: %s" in
     let h1 := h0 ++ session_part in
     let transport_present := is_some (_ctx (self st)) in
     let transport_part :=
       close_attempt transport_present TransportExit (Signals.close_transport exc h1)
         "Transport context closed" "Error while closing transport context: %s" in
     Signals.__aexit__ exc st =
       match interrupted_by session_present (Signals.close_session exc h0) with
       | Some s => (Signals.Signalled s, MkState (self st) (stdin st) h1)
       | None =>
           (match interrupted_by transport_present (Signals.close_transport exc h1) with
            | Some s => Signals.Signalled s
            | None => Signals.Returned tt
            end,
            MkState (self st) (stdin st) (h1 ++ transport_part))
       end)
  /\ (forall exc st e, fst (Signals.__aexit__ exc st) <> Signals.Raised e)
  /\ (forall exc st s,
        _session (self st) <> None ->
        Signals.close_session exc
          (trace st ++ [EvLog INFO "Closing interactive client" [] false])
          = Signals.Signalled s ->
        fst (Signals.__aexit__ exc st) = Signals.Signalled s /\
        count transport_exit_invoked (trace (snd (Signals.__aexit__ exc st)))
        = count transport_exit_invoked (trace st))
  /\ (without_signals W C ->
      forall exc st,
        Signals.__aexit__ (option_map Signals.Exc exc) st
        = (Signals.of_result (fst (__aexit__ exc st)), snd (__aexit__ exc st))
        /\ fst (__aexit__ exc st) = Ok tt)
  /\ (forall (A : Type) (body : M A) st st1 e st2,
        __aenter__ st = (Ok tt, st1) -> body st1 = (Raise e, st2) ->
        fst (async_with body st) = Raise e)
  /\ (forall st e st1 exc k,
        initialize st = (Raise e, st1) -> _ctx (self st) = Some k ->
        fst (__aexit__ exc st1) = Ok tt /\
        count transport_exit_invoked (trace (snd (__aexit__ exc st1)))
        = S (count transport_exit_invoked (trace st1))).
Proof.
  split; [exact signals_aexit_spec|]. split; [|split; [|split; [|split]]].
  - intros exc st e. rewrite signals_aexit_spec. cbv zeta.
    destruct (interrupted_by _ _); [discriminate|]. cbn [fst].
    destruct (interrupted_by _ _); discriminate.
  - intros exc st s Hs Hc. rewrite signals_aexit_spec. cbv zeta. rewrite Hc.
    destruct (_session (self st)); [|contradiction]. cbn [is_some interrupted_by fst snd trace].
    split; [reflexivity|]. unfold close_attempt. rewrite !count_app. cbn. lia.
  - intros Hw exc st. rewrite signals_aexit_spec, aexit_spec. cbv zeta. cbn [fst snd].
    split; [|reflexivity].
    destruct (Hw exc (trace st ++ [EvLog INFO "Closing interactive client" [] false]))
      as [Hs _].
    rewrite Hs.
    assert (Hpart : forall p c o m1 m2,
              close_attempt p c (Signals.of_result o) m1 m2 = close_events p c o m1 m2
              /\ interrupted_by p (Signals.of_result o) = None).
    { intros p c o m1 m2. unfold close_attempt, close_events, interrupted_by.
      destruct p; [|auto]. destruct o; auto. }
    destruct (Hpart (is_some (_session (self st))) SessionExit
                (session_aexit exc (trace st ++ [EvLog INFO "Closing interactive client" [] false]))
                "ClientSession closed" "Error while closing ClientSession: %s") as [P1 I1].
    rewrite P1, I1.
    match goal with
    | |- context [Signals.close_transport _ ?h] => destruct (Hw exc h) as [_ Ht]; rewrite Ht
    end.
    match goal with
    | |- context [close_attempt ?p TransportExit (Signals.of_result ?o) ?m1 ?m2] =>
        destruct (Hpart p TransportExit o m1 m2) as [P2 I2]; rewrite P2, I2
    end.
    reflexivity.
  - intros A body st st1 e st2 Hin Hb. unfold async_with. unfold bind at 1.
    rewrite Hin, Hb. unfold bind. rewrite aexit_spec. reflexivity.
  - intros st e st1 exc k Hi Hc.
    pose proof (initialize_keeps_client st) as [Hs _]. rewrite Hi in Hs. cbn in Hs.
    rewrite aexit_spec. cbn [fst snd trace]. split; [reflexivity|].
    rewrite Hs, Hc. cbn [is_some]. rewrite !count_app.
    assert (Hz : forall b c o m1 m2, c <> TransportExit -> count transport_exit_invoked (close_events b c o m1 m2) = 0).
    { intros b c o m1 m2 Hne. unfold close_events. destruct b; [|reflexivity].
      destruct o; destruct c; try reflexivity; congruence. }
    rewrite Hz by discriminate.
    unfold close_events at 1. destruct (transport_aexit _ _); cbn; lia.
Qed.

End InterruptedClosing.

(** C2 fails as stated: a cancellation that arrives while the session is
    being closed leaves [__aexit__], and the transport, which is open, is
    not closed. *)
Lemma aexit_cancelled_leaves_transport_open :
  _ctx (self (entered [])) = Some StreamableHttp
  /\ fst (Signals.__aexit__ (C:=cancelled_while_closing) None (entered []))
     = Signals.Signalled Signals.CancelledError
  /\ count transport_exit_invoked
       (trace (snd (Signals.__aexit__ (C:=cancelled_while_closing) None (entered [])))) = 0.
Proof. vm_compute. repeat split; reflexivity. Qed.

(* ----------------------------------------------------------------- *)
(** ** Tool discovery *)

Section Discovery.
Context {W : World}.

(** C6, as the code has it.  [list_tools] raises [RuntimeError]
    ("Session not started"), issuing nothing, exactly when no session
    object exists.  Once the session is entered the listing request is
    issued whatever the handshake state, and the outcome is the session's:
    its tools, or its error after an error log record.
    [list_tools_simple] maps the tools to their names. *)
Theorem list_tools_needs_session_only : forall st,
  let h := trace st ++ [EvLog INFO "Requesting tools/list" [] false] in
  list_tools st =
    match _session (self st) with
    | None => (Raise (Exn RuntimeError "Session not started"), st)
    | Some _ =>
        match session_list_tools h with
        | Ok tools =>
            (Ok tools,
             MkState (self st) (stdin st)
               (h ++ [EvCall SessionListTools true;
                      EvLog INFO "Received %d tools" [LNat (length tools)] false]))
        | Raise e =>
            (Raise e,
             MkState (self st) (stdin st)
               (h ++ [EvCall SessionListTools false;
                      EvLog ERROR "tools/list failed: %s" [LExn e] true]))
        end
    end
  /\ list_tools_simple st =
       (match fst (list_tools st) with
        | Ok tools => Ok (map name tools)
        | Raise e => Raise e
        end, snd (list_tools st)).
Proof.
  intros [c lines tr]. split.
  - unfold list_tools. step_m. destruct (_session c); [|reflexivity]. step_m.
    destruct (session_list_tools _) as [tools|e]; step_m; norm_tr; reflexivity.
  - unfold list_tools_simple. unfold bind, ret.
    destruct (list_tools _) as [[tools|e] st']; reflexivity.
Qed.

End Discovery.

(** C6 fails as stated: a client that has entered its session and has not
    initialized it issues the listing and returns the tools. *)
Lemma listing_issued_before_handshake :
  exists st1,
    __aenter__ (W:=healthy_world) (fresh "http" []) = (Ok tt, st1) /\
    handshake_done (trace st1) = false /\
    exists st2,
      list_tools (W:=healthy_world) st1 = (Ok [echo_tool; count_tool], st2) /\
      count (is_call SessionListTools) (trace st2) = 1 /\
      handshake_done (trace st2) = false.
Proof.
  eexists. split; [vm_compute; reflexivity|]. split; [vm_compute; reflexivity|].
  eexists. split; [vm_compute; reflexivity|]. split; vm_compute; reflexivity.
Qed.

(* ----------------------------------------------------------------- *)
(** ** The start of the interactive run *)

Section ControllerStart.
Context {B : Builtins} {W : World}.

Lemma initialize_frame : forall st,
  exists evs, snd (initialize st) = MkState (self st) (stdin st) (trace st ++ evs) /\
              forallb (fun e => negb (is_print e) && negb (is_input e)) evs = true.
Proof.
  intros [c lines tr]. unfold initialize. step_m.
  destruct (_session c); step_m.
  - destruct (session_initialize _) as [[]|e]; step_m; norm_tr; eexists; split; reflexivity.
  - exists []. rewrite app_nil_r. split; reflexivity.
Qed.

Lemma list_tools_frame : forall st,
  exists evs, snd (list_tools st) = MkState (self st) (stdin st) (trace st ++ evs) /\
              forallb (fun e => negb (is_print e) && negb (is_input e)) evs = true.
Proof.
  intros [c lines tr]. unfold list_tools. step_m.
  destruct (_session c); step_m.
  - destruct (session_list_tools _) as [tools|e]; step_m; norm_tr; eexists; split; reflexivity.
  - exists []. rewrite app_nil_r. split; reflexivity.
Qed.

(** C8, as the code has it.  When [initialize] or the first [list_tools]
    fails, [run] adds one error log record that carries the exception
    (with [exc_info]) and returns; nothing is printed, no input is read,
    the selection loop is not entered. *)
Theorem run_start_failure_is_logged : forall st e st1,
  (initialize ;; list_tools) st = (Raise e, st1) ->
  run st = (Ok tt,
            MkState (self st) (stdin st)
              (trace st1 ++ [EvLog ERROR "Failed to start interactive loop: %s" [LExn e] true]))
  /\ exists evs, trace st1 = trace st ++ evs /\
                 forallb (fun e => negb (is_print e) && negb (is_input e)) evs = true.
Proof.
  intros st e st1 H.
  assert (Hfr : exists evs, st1 = MkState (self st) (stdin st) (trace st ++ evs) /\
                forallb (fun e => negb (is_print e) && negb (is_input e)) evs = true).
  { unfold bind in H.
    destruct (initialize_frame st) as [evs1 [E1 F1]].
    destruct (initialize st) as [[[]|e1] sti] eqn:Hi; cbn [snd] in E1.
    - destruct (list_tools_frame sti) as [evs2 [E2 F2]].
      destruct (list_tools sti) as [[tools|e2] stl] eqn:Hl; [discriminate|].
      cbn [snd] in E2. inversion H; subst. cbn [self stdin trace].
      exists (evs1 ++ evs2). rewrite app_assoc. split; [reflexivity|].
      rewrite forallb_app, F1, F2. reflexivity.
    - inversion H; subst. exists evs1. auto. }
  destruct Hfr as [evs [-> F]]. cbn [trace]. split; [|eauto].
  unfold run. unfold bind at 1. unfold try_except.
  unfold bind in H. unfold bind at 1.
  destruct (initialize st) as [[[]|e1] sti].
  - unfold bind at 1. destruct (list_tools sti) as [[tools|e2] stl]; [discriminate|].
    inversion H; subst. step_m. reflexivity.
  - inversion H; subst. step_m. reflexivity.
Qed.

End ControllerStart.

(** C8 fails as stated: with a refused handshake, [run] ends with three
    log records and no console output. *)
Lemma run_start_failure_prints_nothing :
  exists e st1 st2,
    initialize (W:=handshake_fails) (entered ["1"]) = (Raise e, st1) /\
    run (B:=plain_builtins) (W:=handshake_fails) (entered ["1"]) = (Ok tt, st2) /\
    count is_print (trace st2) = 0 /\ count is_log (trace st2) = 3.
Proof.
  do 3 eexists. split; [vm_compute; reflexivity|]. split; [vm_compute; reflexivity|].
  split; vm_compute; reflexivity.
Qed.

Lemma run_start_failure_is_logged_witness :
  exists e st1,
    (initialize (W:=handshake_fails) ;; list_tools (W:=handshake_fails)) (entered ["1"]) = (Raise e, st1) /\
    run (B:=plain_builtins) (W:=handshake_fails) (entered ["1"]) =
      (Ok tt, MkState (self (entered ["1"])) ["1"]
                (trace st1 ++ [EvLog ERROR "Failed to start interactive loop: %s" [LExn e] true])).
Proof.
  do 2 eexists. split; [vm_compute; reflexivity|].
  apply (run_start_failure_is_logged (B:=plain_builtins) (W:=handshake_fails) (entered ["1"])).
  vm_compute; reflexivity.
Defined.

(* ----------------------------------------------------------------- *)
(** ** Tool selection *)

Section Selection.

Lemma print_listing_spec : forall tools i st,
  print_listing i tools st = (Ok tt, MkState (self st) (stdin st) (trace st ++ listing i tools)).
Proof.
  induction tools as [|t ts IH]; intros i [c lines tr]; cbn [print_listing listing].
  - step_m. rewrite app_nil_r. reflexivity.
  - step_m. rewrite IH. cbn [self stdin trace]. norm_tr. reflexivity.
Qed.

Lemma choose_tool_eof : forall t ts c tr,
  choose_tool (t :: ts) (MkState c [] tr)
  = (Raise eof_error, MkState c [] (asked tr (t :: ts))).
Proof.
  intros. unfold choose_tool, asked. step_m.
  rewrite print_listing_spec. cbn [self stdin trace]. step_m.
  norm_tr. reflexivity.
Qed.

Lemma choose_tool_line : forall t ts c line rest tr,
  let tools := t :: ts in
  let h := asked tr tools in
  choose_tool tools (MkState c (line :: rest) tr) =
    match py_int (strip line) with
    | Some idx =>
        if ((1 <=? idx) && (idx <=? Z.of_nat (length tools)))%Z then
          match nth_error tools (Z.to_nat (idx - 1)) with
          | Some chosen =>
              (Ok (Some chosen),
               MkState c rest (h ++ [EvLog INFO "User selected tool: '%s'" [LStr (name chosen)] false]))
          | None =>
              (Raise (Exn IndexError "list index out of range"), MkState c rest h)
          end
        else (Ok None, MkState c rest h)
    | None =>
        (Ok None,
         MkState c rest
           (h ++ [EvLog WARNING "User entered invalid tool index: '%s'" [LStr (strip line)] false]))
    end.
Proof.
  intros. subst tools h. unfold choose_tool, asked. step_m.
  rewrite print_listing_spec. cbn [self stdin trace]. step_m.
  norm_tr.
  destruct (py_int (strip line)) as [idx|]; step_m; norm_tr; [|reflexivity].
  destruct ((1 <=? idx) && (idx <=? Z.of_nat (length (t :: ts))))%Z; [|reflexivity].
  destruct (nth_error (t :: ts) (Z.to_nat (idx - 1))); step_m; norm_tr; reflexivity.
Qed.

Lemma in_range_nth : forall (tools : list Tool) idx,
  (1 <= idx <= Z.of_nat (length tools))%Z ->
  exists tool, nth_error tools (Z.to_nat (idx - 1)) = Some tool.
Proof.
  intros tools idx H.
  destruct (nth_error tools (Z.to_nat (idx - 1))) eqn:E; [eauto|].
  apply nth_error_None in E. lia.
Qed.


End Selection.

(* ----------------------------------------------------------------- *)
(** ** Parsing one entry *)

Lemma str_in_In : forall x xs, str_in x xs = true <-> In x xs.
Proof.
  intros x xs. unfold str_in. rewrite existsb_exists. split.
  - intros [y [Hy He]]. apply String.eqb_eq in He. subst. exact Hy.
  - intros H. exists x. split; [exact H | apply String.eqb_refl].
Qed.

Lemma str_in_not_In : forall x xs, str_in x xs = false <-> ~ In x xs.
Proof.
  intros x xs. rewrite <- str_in_In. destruct (str_in x xs); split; congruence.
Qed.

(* ----------------------------------------------------------------- *)
(** ** [int] on decimal numerals *)

Lemma int_scan_step : forall (k : nat) c s acc n prev,
  digit_of c = Some (Z.of_nat k) ->
  int_scan (Z.of_nat acc) n prev (String c s)
  = int_scan (Z.of_nat (k + 10 * acc)) (S n) AfterDigit s.
Proof.
  intros k c s acc n prev H. cbn [int_scan]. rewrite H. f_equal. lia.
Qed.

Lemma int_scan_uint : forall d acc n,
  int_scan (Z.of_nat acc) n AfterDigit (NilEmpty.string_of_uint d)
  = ScanDone (Z.of_nat (Nat.of_uint_acc d acc))
             (n + String.length (NilEmpty.string_of_uint d)) "".
Proof.
  induction d; intros acc n; cbn [NilEmpty.string_of_uint Nat.of_uint_acc String.length];
    [ rewrite Nat.add_0_r; reflexivity
    | rewrite (int_scan_step 0) by reflexivity
    | rewrite (int_scan_step 1) by reflexivity
    | rewrite (int_scan_step 2) by reflexivity
    | rewrite (int_scan_step 3) by reflexivity
    | rewrite (int_scan_step 4) by reflexivity
    | rewrite (int_scan_step 5) by reflexivity
    | rewrite (int_scan_step 6) by reflexivity
    | rewrite (int_scan_step 7) by reflexivity
    | rewrite (int_scan_step 8) by reflexivity
    | rewrite (int_scan_step 9) by reflexivity ];
    rewrite IHd, Nat.tail_mul_spec, Nat.add_succ_r; reflexivity.
Qed.

Lemma int_scan_numeral : forall d,
  d <> Decimal.Nil ->
  int_scan 0 0 AtStart (NilEmpty.string_of_uint d)
  = ScanDone (Z.of_nat (Nat.of_uint d)) (String.length (NilEmpty.string_of_uint d)) "".
Proof.
  intros d Hd. unfold Nat.of_uint.
  destruct d; [congruence|..];
    cbn [NilEmpty.string_of_uint Nat.of_uint_acc String.length];
    [ rewrite (int_scan_step 0 _ _ 0) by reflexivity
    | rewrite (int_scan_step 1 _ _ 0) by reflexivity
    | rewrite (int_scan_step 2 _ _ 0) by reflexivity
    | rewrite (int_scan_step 3 _ _ 0) by reflexivity
    | rewrite (int_scan_step 4 _ _ 0) by reflexivity
    | rewrite (int_scan_step 5 _ _ 0) by reflexivity
    | rewrite (int_scan_step 6 _ _ 0) by reflexivity
    | rewrite (int_scan_step 7 _ _ 0) by reflexivity
    | rewrite (int_scan_step 8 _ _ 0) by reflexivity
    | rewrite (int_scan_step 9 _ _ 0) by reflexivity ];
    rewrite int_scan_uint; reflexivity.
Qed.

Section Parsing.
Context {B : Builtins}.

Lemma int_of_str_numeral : forall d,
  d <> Decimal.Nil ->
  String.length (NilEmpty.string_of_uint d) <= int_max_str_digits ->
  int_of_str (NilEmpty.string_of_uint d) = Ok (Z.of_nat (Nat.of_uint d)).
Proof.
  intros d Hd Hlen. unfold int_of_str.
  assert (Hs : int_skip_space (NilEmpty.string_of_uint d) = NilEmpty.string_of_uint d)
    by (destruct d; reflexivity).
  rewrite Hs.
  assert (Hm : int_sign (NilEmpty.string_of_uint d) = (false, NilEmpty.string_of_uint d))
    by (destruct d; reflexivity).
  rewrite Hm, (int_scan_numeral d Hd).
  assert (H1 : (int_max_str_digits <? String.length (NilEmpty.string_of_uint d))%nat = false)
    by (apply Nat.ltb_ge; exact Hlen).
  assert (H2 : (String.length (NilEmpty.string_of_uint d) =? 0)%nat = false)
    by (apply Nat.eqb_neq; destruct d; [congruence|..]; discriminate).
  rewrite H1, H2. reflexivity.
Qed.

Lemma int_of_str_numeral_long : forall d,
  d <> Decimal.Nil ->
  int_max_str_digits < String.length (NilEmpty.string_of_uint d) ->
  int_of_str (NilEmpty.string_of_uint d)
  = Raise (int_exceeds_limit (String.length (NilEmpty.string_of_uint d))).
Proof.
  intros d Hd Hlen. unfold int_of_str.
  assert (Hs : int_skip_space (NilEmpty.string_of_uint d) = NilEmpty.string_of_uint d)
    by (destruct d; reflexivity).
  rewrite Hs.
  assert (Hm : int_sign (NilEmpty.string_of_uint d) = (false, NilEmpty.string_of_uint d))
    by (destruct d; reflexivity).
  rewrite Hm, (int_scan_numeral d Hd).
  apply Nat.ltb_lt in Hlen. rewrite Hlen. reflexivity.
Qed.

(** A decimal numeral within the digit limit is read back. *)
Lemma int_of_str_of_nat : forall k,
  String.length (str_of_nat k) <= int_max_str_digits ->
  int_of_str (str_of_nat k) = Ok (Z.of_nat k).
Proof.
  intros k. unfold str_of_nat.
  rewrite <- (Unsigned.of_to k) at 3.
  destruct (Nat.to_uint k) eqn:E; [intros _; reflexivity|..];
    cbv beta iota delta [NilZero.string_of_uint]; intros H;
    (apply int_of_str_numeral; [discriminate | exact H]).
Qed.

(** Every refusal of [int] is a [ValueError]. *)
Lemma int_of_str_raises : forall s e,
  int_of_str s = Raise e -> exn_cls e = ValueError.
Proof.
  intros s e. unfold int_of_str.
  destruct (int_sign (int_skip_space s)) as [negative literal].
  destruct (int_scan 0 0 AtStart literal) as [|value digits rest].
  - intros H. inversion H. reflexivity.
  - destruct (int_max_str_digits <? digits)%nat; [intros H; inversion H; reflexivity|].
    destruct (digits =? 0)%nat; [intros H; inversion H; reflexivity|].
    destruct (is_empty (int_skip_space rest)); [discriminate|].
    intros H; inversion H; reflexivity.
Qed.

Lemma parse_integer : forall n s,
  _parse_schema_value n "integer" s =
    match int_of_str s with
    | Ok z => Ok (JInt z)
    | Raise e => Raise e
    end.
Proof. reflexivity. Qed.

Lemma parse_boolean : forall n s,
  _parse_schema_value n "boolean" s =
    if str_in (lower s) truthy then Ok (JBool true)
    else if str_in (lower s) falsy then Ok (JBool false)
    else Raise (Exn ValueError "Please enter true/false.").
Proof. reflexivity. Qed.

Lemma parse_json : forall n t s,
  t = "array" \/ t = "object" ->
  _parse_schema_value n t s =
    match json_loads s with
    | Ok v => Ok v
    | Raise e =>
        if is_JSONDecodeError e
        then Raise (Exn ValueError ("Please enter valid JSON for " ^^ t ^^ ": " ^^ exn_msg e))
        else Raise e
    end.
Proof. intros n t s [->| ->]; reflexivity. Qed.

Lemma parse_other : forall n t s, ~ In t type_tags -> _parse_schema_value n t s = Ok (JStr s).
Proof.
  intros n t s H. unfold _parse_schema_value.
  assert (H1 : (t =? "integer") = false) by (apply String.eqb_neq; intros ->; apply H; cbn; auto).
  assert (H2 : (t =? "number") = false) by (apply String.eqb_neq; intros ->; apply H; cbn; auto).
  assert (H3 : (t =? "boolean") = false) by (apply String.eqb_neq; intros ->; apply H; cbn; auto).
  assert (H4 : str_in t ["array"; "object"] = false).
  { apply str_in_not_In. intros [<-|[<-|[]]]; apply H; cbn; auto 6. }
  rewrite H1, H2, H3, H4. reflexivity.
Qed.

(** What [_parse_schema_value] can raise: a [ValueError], or what
    [json.loads] raised when that is not a [JSONDecodeError]. *)
Lemma parse_raises : forall n t s e,
  _parse_schema_value n t s = Raise e ->
  exn_cls e = ValueError
  \/ ((t = "array" \/ t = "object") /\ json_loads s = Raise e /\ is_JSONDecodeError e = false).
Proof.
  intros n t s e. unfold _parse_schema_value.
  destruct (t =? "integer") eqn:E1.
  { destruct (int_of_str s) as [z|e0] eqn:Hi; [discriminate|].
    intros H. inversion H; subst. left. eapply int_of_str_raises; eassumption. }
  destruct (t =? "number") eqn:E2.
  { destruct (py_float s); [discriminate|]. intros H. inversion H. left. reflexivity. }
  destruct (t =? "boolean") eqn:E3.
  { destruct (str_in (lower s) _); [discriminate|].
    destruct (str_in (lower s) _); [discriminate|].
    intros H. inversion H. left. reflexivity. }
  destruct (str_in t ["array"; "object"]) eqn:E4; [|discriminate].
  apply str_in_In in E4.
  destruct (json_loads s) as [v|e0] eqn:Hl; [discriminate|].
  destruct (is_JSONDecodeError e0) eqn:Hj; intros H; inversion H; subst.
  - left. reflexivity.
  - right. split; [|auto]. destruct E4 as [<-|[<-|[]]]; auto.
Qed.

End Parsing.

(* ----------------------------------------------------------------- *)
(** ** The two readings of [int] agree on trimmed text *)

Section TrimmedText.

Lemma int_isspace_py_isspace : forall c, int_isspace c = true -> py_isspace c = true.
Proof.
  intros c. unfold int_isspace, py_isspace. set (n := nat_of_ascii c).
  rewrite !orb_true_iff, !andb_true_iff, !Nat.leb_le, Nat.eqb_eq. lia.
Qed.

Lemma rstrip_cons : forall c s,
  rstrip (String c s) =
    match rstrip s with
    | "" => if py_isspace c then "" else String c ""
    | r => String c r
    end.
Proof. reflexivity. Qed.

Lemma rstrip_rstrip : forall s, rstrip (rstrip s) = rstrip s.
Proof.
  induction s as [|c s IH]; [reflexivity|]. rewrite rstrip_cons.
  destruct (rstrip s) as [|c' r] eqn:E.
  - destruct (py_isspace c) eqn:Hc; [reflexivity|]. rewrite rstrip_cons, Hc. reflexivity.
  - rewrite rstrip_cons, IH. reflexivity.
Qed.

Lemma lstrip_head : forall s,
  lstrip s = "" \/ exists c r, lstrip s = String c r /\ py_isspace c = false.
Proof.
  induction s as [|c s IH]; [left; reflexivity|]. cbn [lstrip].
  destruct (py_isspace c) eqn:Hc; [exact IH|]. right. eauto.
Qed.

Lemma rstrip_keeps_head : forall c s,
  py_isspace c = false -> exists r, rstrip (String c s) = String c r.
Proof.
  intros c s Hc. cbn [rstrip]. destruct (rstrip s); [rewrite Hc|]; eauto.
Qed.

Lemma strip_is_trimmed : forall s,
  lstrip (strip s) = strip s /\ rstrip (strip s) = strip s.
Proof.
  intros s. unfold strip. split; [|apply rstrip_rstrip].
  destruct (lstrip_head s) as [->|[c [r [-> Hc]]]]; [reflexivity|].
  destruct (rstrip_keeps_head c r Hc) as [r' ->]. cbn [lstrip]. rewrite Hc. reflexivity.
Qed.

Lemma int_skip_space_trimmed : forall t, lstrip t = t -> int_skip_space t = t.
Proof.
  intros [|c t] H; [reflexivity|]. cbn [int_skip_space].
  destruct (int_isspace c) eqn:Hc; [|reflexivity].
  apply int_isspace_py_isspace in Hc. cbn [lstrip] in H. rewrite Hc in H.
  exfalso. assert (Hl : forall s, String.length (lstrip s) <= String.length s).
  { induction s as [|a s IHs]; [auto|]. cbn [lstrip]. destruct (py_isspace a); cbn; lia. }
  specialize (Hl t). rewrite H in Hl. cbn in Hl. lia.
Qed.

Lemma rstrip_tail : forall c s, rstrip (String c s) = String c s -> rstrip s = s.
Proof.
  intros c s H. cbn [rstrip] in H. destruct (rstrip s) as [|c' r] eqn:E.
  - destruct (py_isspace c); [discriminate H|]. inversion H. reflexivity.
  - inversion H. reflexivity.
Qed.

Lemma rstrip_of_blanks : forall s, int_skip_space s = "" -> rstrip s = "".
Proof.
  induction s as [|c s IH]; [reflexivity|]. cbn [int_skip_space rstrip].
  destruct (int_isspace c) eqn:Hc; [|discriminate].
  intros H. rewrite (IH H), (int_isspace_py_isspace c Hc). reflexivity.
Qed.

(** On text whose end is no blank, a scan that ends well has read all of
    it, and [int_digits] reads the same value. *)
Lemma int_scan_int_digits : forall lit acc n prev v n' rest,
  int_scan acc n prev lit = ScanDone v n' rest ->
  (prev = AtStart -> n' <> n) ->
  is_empty (int_skip_space rest) = true ->
  rstrip lit = lit ->
  int_digits acc (after_digit prev) lit = Some v.
Proof.
  induction lit as [|c l IH]; intros acc n prev v n' rest H Hn Hr Ht.
  - cbn [int_scan] in H. destruct prev; inversion H; subst; cbn;
      [exfalso; apply Hn; reflexivity | reflexivity].
  - cbn [int_scan int_digits] in *. apply rstrip_tail in Ht as Hl.
    destruct (digit_of c) as [d|].
    + apply (IH _ _ _ _ _ _ H); [discriminate | exact Hr | exact Hl].
    + destruct (Ascii.eqb c "_") eqn:Hu.
      * destruct prev; try discriminate H. cbn [after_digit andb].
        assert (Hgt : n' <> n \/ True) by auto.
        destruct l as [|c' l'].
        { cbn in H. discriminate H. }
        apply (IH _ _ _ _ _ _ H); [discriminate | exact Hr | exact Hl].
      * destruct prev; try discriminate H; inversion H; subst.
        -- exfalso. apply Hn; reflexivity.
        -- exfalso. destruct (int_skip_space (String c l)) eqn:Hs; [|discriminate Hr].
           apply rstrip_of_blanks in Hs. rewrite Hs in Ht. discriminate Ht.
Qed.

(** Conversely, what [int_digits] reads, the scan reads to the end. *)
Lemma int_digits_int_scan : forall lit acc n prev v,
  int_digits acc (after_digit prev) lit = Some v ->
  exists n', int_scan acc n prev lit = ScanDone v n' ""
             /\ (after_digit prev = false -> n' <> 0).
Proof.
  induction lit as [|c l IH]; intros acc n prev v H.
  - cbn [int_digits int_scan] in *. destruct prev; cbn [after_digit] in H; try discriminate H.
    inversion H; subst. exists n. split; [reflexivity | discriminate].
  - cbn [int_digits int_scan] in *. destruct (digit_of c) as [d|].
    + destruct (IH (10 * acc + d)%Z (S n) AfterDigit v H) as [n' [Hs _]].
      exists n'. split; [exact Hs|]. intros _ Hz. subst n'.
      assert (Hge : forall s a k p w k' r, int_scan a k p s = ScanDone w k' r -> k <= k').
      { induction s as [|x s IHs]; intros a k p w k' r Hx; cbn [int_scan] in Hx.
        - destruct p; inversion Hx; lia.
        - destruct (digit_of x).
          + apply IHs in Hx. lia.
          + destruct (Ascii.eqb x "_").
            * destruct p; try discriminate Hx. apply IHs in Hx. lia.
            * destruct p; inversion Hx; lia. }
      apply Hge in Hs. lia.
    + destruct (Ascii.eqb c "_"); [|discriminate H].
      destruct prev; cbn [after_digit andb] in H; try discriminate H.
      destruct (IH acc n AfterUnderscore v H) as [n' [Hs Hz]].
      exists n'. split; [exact Hs | discriminate].
Qed.

Lemma int_sign_tail : forall t neg lit,
  int_sign t = (neg, lit) -> lit = t \/ exists c, t = String c lit.
Proof.
  intros [|c r] neg lit H; [inversion H; auto|].
  unfold int_sign in H.
  destruct c as [[] [] [] [] [] [] [] []]; inversion H; eauto.
Qed.

(** The sign as [py_int] reads it. *)
Lemma py_int_sign : forall s,
  py_int s
  = option_map (fun v => if fst (int_sign (strip s)) then (- v)%Z else v)
               (int_digits 0 false (snd (int_sign (strip s)))).
Proof.
  intros s. unfold py_int. destruct (strip s) as [|c r]; [reflexivity|].
  destruct c as [[] [] [] [] [] [] [] []]; cbn [int_sign fst snd];
    match goal with
    | |- context [int_digits 0 false ?x] => destruct (int_digits 0 false x); reflexivity
    end.
Qed.

End TrimmedText.

Section IntOnTrimmedText.
Context {B : Builtins}.

(** On trimmed text, [py_int] and [int_of_str] read the same integers;
    [int_of_str] refuses those with more digits than the limit. *)
Lemma py_int_on_trimmed : forall line z,
  (int_of_str (strip line) = Ok z -> py_int (strip line) = Some z)
  /\ (py_int (strip line) = Some z ->
      int_of_str (strip line) = Ok z
      \/ exists digits, int_of_str (strip line) = Raise (int_exceeds_limit digits)).
Proof.
  intros line z. destruct (strip_is_trimmed line) as [Hl Hr].
  set (t := strip line) in *. rewrite py_int_sign. unfold int_of_str.
  assert (Hs : strip t = t) by (unfold strip; rewrite Hl; exact Hr).
  rewrite Hs, (int_skip_space_trimmed t Hl).
  assert (Hsign : forall (neg : bool) lit,
            rstrip lit = lit ->
            (match int_scan 0 0 AtStart lit with
             | ScanInvalid => Raise (int_invalid_literal t)
             | ScanDone value digits rest =>
                 if (int_max_str_digits <? digits)%nat then Raise (int_exceeds_limit digits)
                 else if (digits =? 0)%nat then Raise (int_invalid_literal t)
                 else if is_empty (int_skip_space rest)
                      then Ok (if neg then (- value)%Z else value)
                      else Raise (int_invalid_literal t)
             end = Ok z ->
             option_map (fun v => if neg then (- v)%Z else v) (int_digits 0 false lit) = Some z)
            /\ (option_map (fun v => if neg then (- v)%Z else v) (int_digits 0 false lit) = Some z ->
                match int_scan 0 0 AtStart lit with
                | ScanInvalid => Raise (int_invalid_literal t)
                | ScanDone value digits rest =>
                    if (int_max_str_digits <? digits)%nat then Raise (int_exceeds_limit digits)
                    else if (digits =? 0)%nat then Raise (int_invalid_literal t)
                    else if is_empty (int_skip_space rest)
                         then Ok (if neg then (- value)%Z else value)
                         else Raise (int_invalid_literal t)
                end = Ok z
                \/ exists digits,
                    match int_scan 0 0 AtStart lit with
                    | ScanInvalid => Raise (int_invalid_literal t)
                    | ScanDone value digits rest =>
                        if (int_max_str_digits <? digits)%nat then Raise (int_exceeds_limit digits)
                        else if (digits =? 0)%nat then Raise (int_invalid_literal t)
                        else if is_empty (int_skip_space rest)
                             then Ok (if neg then (- value)%Z else value)
                             else Raise (int_invalid_literal t)
                    end = Raise (int_exceeds_limit digits))).
  { intros neg lit Hlit. split.
    - destruct (int_scan 0 0 AtStart lit) as [|value digits rest] eqn:Hscan; [discriminate|].
      destruct (int_max_str_digits <? digits)%nat; [discriminate|].
      destruct (digits =? 0)%nat eqn:Hz; [discriminate|].
      destruct (is_empty (int_skip_space rest)) eqn:He; [|discriminate].
      intros H. inversion H; subst.
      apply Nat.eqb_neq in Hz.
      pose proof (int_scan_int_digits lit 0%Z 0 AtStart value digits rest Hscan
                    (fun _ => Hz) He Hlit) as Hd.
      cbn [after_digit] in Hd. rewrite Hd. reflexivity.
    - destruct (int_digits 0 false lit) as [v|] eqn:Hd; [|discriminate].
      cbn [option_map]. intros H. inversion H; subst.
      destruct (int_digits_int_scan lit 0%Z 0 AtStart v Hd) as [n' [Hscan Hz]].
      rewrite Hscan. specialize (Hz eq_refl). apply Nat.eqb_neq in Hz. rewrite Hz.
      destruct (int_max_str_digits <? n')%nat; [right; eauto|]. left. reflexivity. }
  destruct (int_sign t) as [neg lit] eqn:E. cbn [fst snd].
  assert (Hlit : rstrip lit = lit).
  { destruct (int_sign_tail t neg lit E) as [->|[c ->]]; [exact Hr|].
    exact (rstrip_tail c lit Hr). }
  exact (Hsign neg lit Hlit).
Qed.

End IntOnTrimmedText.

(* ----------------------------------------------------------------- *)
(** ** The prompting loop of one property *)

Lemma is_empty_true : forall s, is_empty s = true <-> s = "".
Proof. destruct s; cbn; split; congruence. Qed.

Section Prompting.
Context {B : Builtins}.

Lemma prompt_property_eof : forall required k pd args c tr,
  prompt_property required k pd args (MkState c [] tr)
  = (Raise eof_error, MkState c [] (tr ++ [EvInput (prop_prompt required k pd)])).
Proof. reflexivity. Qed.

(** One pass of the prompting loop. *)
Lemma prompt_property_step : forall required k pd args c line rest tr,
  let shown := tr ++ [EvInput (prop_prompt required k pd)] in
  let value_str := strip line in
  prompt_property required k pd args (MkState c (line :: rest) tr) =
    if is_empty value_str then
      if str_in k required
      then prompt_property required k pd args (MkState c rest (shown ++ rejected_empty k))
      else (Ok args, MkState c rest shown)
    else
      match _parse_schema_value k (prop_type_of pd) value_str with
      | Ok value => (Ok (dict_set args k value), MkState c rest shown)
      | Raise e =>
          if is_ValueError e then
            prompt_property required k pd args
              (MkState c rest (shown ++ rejected_value k value_str e))
          else (Raise e, MkState c rest shown)
      end.
Proof.
  intros required k pd args c line rest tr shown value_str.
  subst shown value_str. unfold prop_prompt.
  unfold prompt_property at 1. cbn [stdin while_input self trace].
  unfold prompt_body at 1.
  destruct (is_empty (strip line)) eqn:He.
  - destruct (str_in k required) eqn:Hr; step_m; [|reflexivity].
    norm_tr. unfold prompt_property. cbn [stdin]. unfold rejected_empty. norm_tr. rewrite Hr. reflexivity.
  - fold (prop_type_of pd).
    destruct (_parse_schema_value k (prop_type_of pd) (strip line)) as [v|e] eqn:Hp.
    + step_m. reflexivity.
    + destruct (is_ValueError e); step_m; [|reflexivity]. norm_tr.
      unfold prompt_property. cbn [stdin]. unfold rejected_value. norm_tr. reflexivity.
Qed.

(** What the loop of one property can leave behind. *)
Lemma prompt_property_result : forall required k pd args lines c tr args' st',
  prompt_property required k pd args (MkState c lines tr) = (Ok args', st') ->
  (str_in k required = false /\ args' = args) \/ (exists v, args' = dict_set args k v).
Proof.
  intros required k pd args lines. induction lines as [|line rest IH]; intros c tr args' st' H.
  - rewrite prompt_property_eof in H. discriminate.
  - rewrite prompt_property_step in H. cbv zeta in H.
    destruct (is_empty (strip line)).
    + destruct (str_in k required) eqn:Hr; [eapply IH; eauto|].
      inversion H; subst. auto.
    + destruct (_parse_schema_value k (prop_type_of pd) (strip line)) as [v|e].
      * inversion H; subst. eauto.
      * destruct (is_ValueError e); [eapply IH; eauto | discriminate].
Qed.

Lemma prompt_property_stdin : forall required k pd args lines c tr r st',
  prompt_property required k pd args (MkState c lines tr) = (r, st') ->
  self st' = c /\ length (stdin st') <= length lines /\
  (forall a, r = Ok a -> length (stdin st') < length lines).
Proof.
  intros required k pd args lines. induction lines as [|line rest IH]; intros c tr r st' H.
  - rewrite prompt_property_eof in H. inversion H; subst. cbn. repeat split; auto. discriminate.
  - rewrite prompt_property_step in H. cbv zeta in H.
    assert (Hrec : forall tr0, prompt_property required k pd args (MkState c rest tr0) = (r, st') ->
              self st' = c /\ length (stdin st') <= length (line :: rest) /\
              (forall a, r = Ok a -> length (stdin st') < length (line :: rest))).
    { intros tr0 H0. destruct (IH _ _ _ _ H0) as [Hs [Hl Hk]]. cbn [length].
      repeat split; auto. intros a Ha. specialize (Hk a Ha). lia. }
    destruct (is_empty (strip line)).
    + destruct (str_in k required); [eapply Hrec; eauto|].
      inversion H; subst. cbn. repeat split; auto.
    + destruct (_parse_schema_value k (prop_type_of pd) (strip line)) as [v|e].
      * inversion H; subst. cbn. repeat split; auto.
      * destruct (is_ValueError e); [eapply Hrec; eauto|].
        inversion H; subst. cbn. repeat split; auto; discriminate.
Qed.

(** The lines the loop of one property reads are the first ones of
    standard input. *)
Lemma prompt_property_consumes : forall required k pd args lines c tr r st',
  prompt_property required k pd args (MkState c lines tr) = (r, st') ->
  exists consumed, lines = consumed ++ stdin st'.
Proof.
  intros required k pd args lines. induction lines as [|line rest IH]; intros c tr r st' H.
  - rewrite prompt_property_eof in H. inversion H; subst. exists []. reflexivity.
  - rewrite prompt_property_step in H. cbv zeta in H.
    assert (Hrec : forall tr0, prompt_property required k pd args (MkState c rest tr0) = (r, st') ->
              exists consumed, line :: rest = consumed ++ stdin st').
    { intros tr0 H0. destruct (IH _ _ _ _ H0) as [consumed Hc].
      exists (line :: consumed). cbn [app]. rewrite <- Hc. reflexivity. }
    assert (Hone : forall tr0 r0, (r0, MkState c rest tr0) = (r, st') ->
              exists consumed, line :: rest = consumed ++ stdin st').
    { intros tr0 r0 H0. inversion H0; subst. exists [line]. reflexivity. }
    destruct (is_empty (strip line)).
    + destruct (str_in k required); [eapply Hrec; eauto | eapply Hone; eauto].
    + destruct (_parse_schema_value k (prop_type_of pd) (strip line)) as [v|e].
      * eapply Hone; eauto.
      * destruct (is_ValueError e); [eapply Hrec; eauto | eapply Hone; eauto].
Qed.

(** How the loop of one property ends: with the arguments, with
    [EOFError] once standard input is used up, or with an exception of
    [_parse_schema_value] that is no [ValueError]. *)
Lemma prompt_property_ends : forall required k pd args lines c tr r st',
  prompt_property required k pd args (MkState c lines tr) = (r, st') ->
  (exists a, r = Ok a)
  \/ (r = Raise eof_error /\ stdin st' = [])
  \/ (exists line e,
        In line lines /\
        _parse_schema_value k (prop_type_of pd) (strip line) = Raise e /\
        is_ValueError e = false /\ r = Raise e).
Proof.
  intros required k pd args lines. induction lines as [|line rest IH]; intros c tr r st' H.
  - rewrite prompt_property_eof in H. inversion H; subst. right. left. auto.
  - rewrite prompt_property_step in H. cbv zeta in H.
    assert (Hrec : forall tr0, prompt_property required k pd args (MkState c rest tr0) = (r, st') ->
              (exists a, r = Ok a)
              \/ (r = Raise eof_error /\ stdin st' = [])
              \/ (exists l e,
                    In l (line :: rest) /\
                    _parse_schema_value k (prop_type_of pd) (strip l) = Raise e /\
                    is_ValueError e = false /\ r = Raise e)).
    { intros tr0 H0. destruct (IH _ _ _ _ H0) as [Ha|[He|[l [e [Hin Hrest]]]]]; auto.
      right. right. exists l, e. split; [right; exact Hin | exact Hrest]. }
    destruct (is_empty (strip line)).
    + destruct (str_in k required); [eapply Hrec; eauto|].
      inversion H; subst. eauto.
    + destruct (_parse_schema_value k (prop_type_of pd) (strip line)) as [v|e] eqn:Hp.
      * inversion H; subst. eauto.
      * destruct (is_ValueError e) eqn:Hv; [eapply Hrec; eauto|].
        inversion H; subst. right. right. exists line, e. cbn [In]. auto.
Qed.

End Prompting.

(* ----------------------------------------------------------------- *)
(** ** The loop over the properties *)

Section Dicts.
Context {V : Type}.

Lemma dict_mem_set_same : forall (d : dict V) k v, dict_mem (dict_set d k v) k = true.
Proof.
  unfold dict_mem. induction d as [|[k' v'] d IH]; intros k v; cbn [dict_set dict_get].
  - rewrite String.eqb_refl. reflexivity.
  - destruct (k' =? k) eqn:E; cbn [dict_get]; rewrite E; [reflexivity | apply IH].
Qed.

Lemma dict_mem_set_other : forall (d : dict V) k v k',
  k' <> k -> dict_mem (dict_set d k v) k' = dict_mem d k'.
Proof.
  unfold dict_mem. induction d as [|[k0 v0] d IH]; intros k v k' Hne; cbn [dict_set dict_get].
  - apply String.eqb_neq in Hne. rewrite String.eqb_sym, Hne. reflexivity.
  - destruct (k0 =? k) eqn:E; cbn [dict_get].
    + apply String.eqb_eq in E. subst k0.
      assert (E' : (k =? k') = false) by (apply String.eqb_neq; congruence).
      rewrite E'. reflexivity.
    + destruct (k0 =? k'); [reflexivity | apply IH; exact Hne].
Qed.

Lemma dict_mem_set : forall (d : dict V) k v k',
  dict_mem (dict_set d k v) k' = (k' =? k) || dict_mem d k'.
Proof.
  intros d k v k'. destruct (k' =? k) eqn:E.
  - apply String.eqb_eq in E. subst. rewrite dict_mem_set_same. reflexivity.
  - apply String.eqb_neq in E. rewrite dict_mem_set_other by exact E. reflexivity.
Qed.

End Dicts.

Section ForLoop.
Context {B : Builtins}.

Lemma for_properties_app : forall required before after args st,
  for_properties required (before ++ after) args st =
  (args1 <- for_properties required before args ;; for_properties required after args1) st.
Proof.
  intros required before. induction before as [|[k pd] before IH]; intros after args st.
  - reflexivity.
  - cbn [app for_properties]. unfold bind.
    destruct (prompt_property required k pd args st) as [[args1|e] st1]; [|reflexivity].
    rewrite IH. reflexivity.
Qed.

(** The keys of the collected arguments: those already there, and of the
    properties prompted for, all the required ones. *)
Lemma for_properties_keys : forall required props args st args' st',
  for_properties required props args st = (Ok args', st') ->
  forall k,
    (dict_mem args k = true -> dict_mem args' k = true) /\
    (In k (dict_keys props) -> str_in k required = true -> dict_mem args' k = true) /\
    (dict_mem args' k = true -> dict_mem args k = true \/ In k (dict_keys props)).
Proof.
  intros required props. induction props as [|[k0 pd] props IH]; intros args st args' st' H k.
  - cbn in H. inversion H; subst. cbn. tauto.
  - cbn [for_properties] in H. unfold bind in H.
    destruct (prompt_property required k0 pd args st) as [[args1|e] st1] eqn:Hp; [|discriminate].
    destruct st as [c lines tr].
    pose proof (prompt_property_result _ _ _ _ _ _ _ _ _ Hp) as Hres.
    destruct (IH _ _ _ _ H k) as [Hmono [Hreq Hinv]].
    assert (Hm1 : dict_mem args k = true -> dict_mem args1 k = true).
    { intros Hk. destruct Hres as [[_ ->]|[v ->]]; [exact Hk|].
      rewrite dict_mem_set, Hk. apply orb_true_r. }
    assert (Hi1 : dict_mem args1 k = true -> dict_mem args k = true \/ k = k0).
    { intros Hk. destruct Hres as [[_ ->]|[v ->]]; [auto|].
      rewrite dict_mem_set in Hk. apply orb_true_iff in Hk as [Hk|Hk]; [|auto].
      apply String.eqb_eq in Hk. auto. }
    cbn [dict_keys map fst In]. repeat split.
    + auto.
    + intros [<-|Hin] Hr.
      * apply Hmono. destruct Hres as [[Hf _]|[v ->]]; [congruence|].
        apply dict_mem_set_same.
      * apply Hreq; assumption.
    + intros Hk. destruct (Hinv Hk) as [Hk1|Hin]; [|auto].
      destruct (Hi1 Hk1) as [Ha|Heq]; [auto | subst; auto].
Qed.

Lemma for_properties_consumes : forall required props args st r st',
  for_properties required props args st = (r, st') ->
  exists consumed, stdin st = consumed ++ stdin st'.
Proof.
  intros required props. induction props as [|[k pd] props IH]; intros args st r st' H.
  - cbn in H. inversion H; subst. exists []. reflexivity.
  - cbn [for_properties] in H. unfold bind in H.
    destruct (prompt_property required k pd args st) as [[args1|e] st1] eqn:Hp.
    + destruct st as [c lines tr].
      destruct (prompt_property_consumes _ _ _ _ _ _ _ _ _ Hp) as [c1 H1].
      destruct (IH _ _ _ _ H) as [c2 H2].
      exists (c1 ++ c2). cbn [stdin]. rewrite H1, H2, app_assoc. reflexivity.
    + inversion H; subst. destruct st as [c lines tr].
      exact (prompt_property_consumes _ _ _ _ _ _ _ _ _ Hp).
Qed.

(** How the loop over the properties ends: with the arguments, with
    [EOFError] once standard input is used up, or with an exception of
    [_parse_schema_value] that is no [ValueError], raised on a line that
    was read. *)
Lemma for_properties_ends : forall required props args st r st',
  for_properties required props args st = (r, st') ->
  (exists args', r = Ok args')
  \/ (r = Raise eof_error /\ stdin st' = [])
  \/ (exists k pd line e,
        In (k, pd) props /\ In line (stdin st) /\
        _parse_schema_value k (prop_type_of pd) (strip line) = Raise e /\
        is_ValueError e = false /\ r = Raise e).
Proof.
  intros required props. induction props as [|[k pd] props IH]; intros args st r st' H.
  - cbn in H. inversion H; subst. eauto.
  - cbn [for_properties] in H. unfold bind in H.
    destruct (prompt_property required k pd args st) as [[args1|e] st1] eqn:Hp.
    + destruct st as [c lines tr].
      destruct (prompt_property_consumes _ _ _ _ _ _ _ _ _ Hp) as [c1 H1].
      destruct (IH _ _ _ _ H) as [Ha|[He|[k' [pd' [l [e [Hin [Hl Hrest]]]]]]]]; auto.
      right. right. exists k', pd', l, e. cbn [stdin].
      split; [right; exact Hin|]. split; [|exact Hrest].
      rewrite H1. apply in_or_app. right. exact Hl.
    + inversion H; subst. destruct st as [c lines tr].
      destruct (prompt_property_ends _ _ _ _ _ _ _ _ _ Hp) as [[a Ha]|[He|[l [e0 [Hin Hrest]]]]].
      * discriminate.
      * auto.
      * right. right. exists k, pd, l, e0. cbn [stdin In]. auto.
Qed.

Lemma prompt_arguments_unfold : forall tool st,
  prompt_arguments_for_tool tool st =
    match properties (inputSchema tool) with
    | [] =>
        (Ok [],
         MkState (self st) (stdin st)
           (trace (heading_shown tool st)
              ++ [EvPrint "  (no schema provided, using empty arguments {})";
                  EvLog INFO "Tool '%s' has no input schema; using empty arguments"
                    [LStr (name tool)] false]))
    | props =>
        match for_properties (required (inputSchema tool)) props [] (heading_shown tool st) with
        | (Ok args, st1) =>
            (Ok args,
             MkState (self st1) (stdin st1)
               (trace st1 ++ [EvLog INFO "Collected arguments for tool '%s': '%s'"
                                [LStr (name tool); LArgs args] false]))
        | (Raise e, st1) => (Raise e, st1)
        end
    end.
Proof.
  intros tool [c lines tr]. unfold prompt_arguments_for_tool, heading_shown.
  destruct (properties (inputSchema tool)) as [|p props] eqn:E.
  - step_m. norm_tr. reflexivity.
  - unfold bind at 1. unfold print at 1. unfold emit. cbn [self stdin trace].
    unfold bind at 1.
    destruct (for_properties _ _ _ _) as [[args|e] st1]; [|reflexivity].
    step_m. reflexivity.
Qed.

Lemma prompt_arguments_ok : forall tool st args st',
  prompt_arguments_for_tool tool st = (Ok args, st') ->
  properties (inputSchema tool) <> [] ->
  exists st2,
    for_properties (required (inputSchema tool)) (properties (inputSchema tool)) []
      (heading_shown tool st) = (Ok args, st2).
Proof.
  intros tool st args st' H Hne. rewrite prompt_arguments_unfold in H.
  destruct (properties (inputSchema tool)) as [|p props]; [contradiction|].
  destruct (for_properties (required (inputSchema tool)) (p :: props) []
              (heading_shown tool st)) as [[a|e] st2]; [|discriminate].
  inversion H; subst. eauto.
Qed.

End ForLoop.

(* ----------------------------------------------------------------- *)
(** ** Prompting: the claims *)

Section PromptingClaims.
Context {B : Builtins}.

Lemma prompt_rest_app : forall tool before after args st args0 st1,
  for_properties (required (inputSchema tool)) before args st = (Ok args0, st1) ->
  prompt_rest tool (before ++ after) args st = prompt_rest tool after args0 st1.
Proof.
  intros tool before after args st args0 st1 Hb. unfold prompt_rest, bind.
  rewrite for_properties_app. unfold bind. rewrite Hb. reflexivity.
Qed.

(** [prompt_arguments_for_tool] once the first properties are done. *)
Lemma prompt_arguments_resume : forall tool before k pd after st args0 st1,
  properties (inputSchema tool) = before ++ (k, pd) :: after ->
  for_properties (required (inputSchema tool)) before [] (heading_shown tool st)
    = (Ok args0, st1) ->
  prompt_arguments_for_tool tool st = prompt_rest tool ((k, pd) :: after) args0 st1.
Proof.
  intros tool before k pd after st args0 st1 Hprops Hb.
  rewrite <- (prompt_rest_app tool before ((k, pd) :: after) [] _ _ _ Hb), <- Hprops.
  rewrite prompt_arguments_unfold.
  destruct (properties (inputSchema tool)) as [|p props] eqn:E;
    [destruct before; discriminate|].
  unfold prompt_rest, bind.
  destruct (for_properties (required (inputSchema tool)) (p :: props) [] (heading_shown tool st))
    as [[args|e] st2]; [|reflexivity].
  step_m. reflexivity.
Qed.

Lemma prompt_rest_step : forall tool k pd after args0 st,
  prompt_rest tool ((k, pd) :: after) args0 st =
    match prompt_property (required (inputSchema tool)) k pd args0 st with
    | (Ok args1, st1) => prompt_rest tool after args1 st1
    | (Raise e, st1) => (Raise e, st1)
    end.
Proof.
  intros tool k pd after args0 st. unfold prompt_rest. cbn [for_properties].
  unfold bind at 1 2.
  destruct (prompt_property (required (inputSchema tool)) k pd args0 st) as [[args1|e] st1];
    reflexivity.
Qed.

(** A numeral with more digits than the limit is refused, with the
    message that names the limit. *)
Lemma int_of_str_beyond_limit : forall k,
  int_max_str_digits < String.length (str_of_nat k) ->
  int_of_str (str_of_nat k) = Raise (int_exceeds_limit (String.length (str_of_nat k))).
Proof.
  intros k. unfold str_of_nat.
  destruct (Nat.to_uint k) eqn:E;
    cbv beta iota delta [NilZero.string_of_uint]; intros H;
    [ exfalso; cbn [String.length] in H; unfold int_max_str_digits in H; lia | .. ];
    (apply int_of_str_numeral_long; [discriminate | exact H]).
Qed.

(** A separator that [str.strip] removes and [int] does not skip makes
    [int] refuse the text. *)
Lemma int_of_str_separator : forall c s,
  py_isspace c = true -> int_isspace c = false ->
  int_of_str (String c s) = Raise (int_invalid_literal (String c s)).
Proof.
  intros c s Hp Hi. unfold int_of_str. cbn [int_skip_space]. rewrite Hi.
  destruct c as [[] [] [] [] [] [] [] []]; try discriminate Hp; try discriminate Hi;
    reflexivity.
Qed.

(** C5, as the code has it.  [_parse_schema_value] by type tag.
    "integer" is [int]: every refusal is a [ValueError]; a decimal numeral
    is read back as its value up to the limit of 4300 digits and refused
    beyond it; a separator that [str.strip] removes is not skipped; signs,
    single underscores between digits, leading zeros and surrounding
    blanks are read as [int] reads them.  "number" is [float].  "boolean"
    compares the lower-cased text with the two token lists and otherwise
    raises [ValueError] "Please enter true/false.".  "array" and "object"
    are [json.loads]: a [JSONDecodeError] becomes a [ValueError] carrying
    its message, any other exception passes unchanged.  Any other tag
    returns the text.  Whatever is raised is a [ValueError] or that other
    exception of [json.loads].  In the loop, a [ValueError] is printed and
    logged, leaves the arguments untouched and asks for the same property
    again; another exception ends the prompting there, with nothing
    stored and nothing more read; a parsed value is what gets stored. *)
Theorem parse_schema_value_dispatch :
  (forall n s,
      _parse_schema_value n "integer" s =
        match int_of_str s with
        | Ok z => Ok (JInt z)
        | Raise e => Raise e
        end
      /\ (forall e, int_of_str s = Raise e -> exn_cls e = ValueError))
  /\ (forall n k,
        _parse_schema_value n "integer" (str_of_nat k) =
          if (String.length (str_of_nat k) <=? int_max_str_digits)%nat
          then Ok (JInt (Z.of_nat k))
          else Raise (int_exceeds_limit (String.length (str_of_nat k))))
  /\ (forall n c s,
        py_isspace c = true -> int_isspace c = false ->
        _parse_schema_value n "integer" (String c s)
        = Raise (int_invalid_literal (String c s)))
  /\ (forall n,
        map (_parse_schema_value n "integer") [" 5 "; "-12"; "+7"; "1_0"; "007"]
        = [Ok (JInt 5); Ok (JInt (-12)); Ok (JInt 7); Ok (JInt 10); Ok (JInt 7)]
        /\ (forall s, In s [""; "+"; "+ 1"; "1 2"; "_1"; "1_"; "1__0"; "0x10"; "1.0"] ->
              _parse_schema_value n "integer" s = Raise (int_invalid_literal s))
        /\ (exists z, _parse_schema_value n "integer" (ones 4300) = Ok (JInt z))
        /\ _parse_schema_value n "integer" (ones 4301)
           = Raise (Exn ValueError
                      ("Exceeds the limit (4300 digits) for integer string conversion: "
                       ^^ "value has 4301 digits; "
                       ^^ "use sys.set_int_max_str_digits() to increase the limit")))
  /\ (forall n s,
        _parse_schema_value n "number" s =
          match py_float s with
          | Some f => Ok (JFloat f)
          | None => Raise (Exn ValueError ("could not convert string to float: " ^^ py_repr s))
          end)
  /\ (forall n s,
        (In (lower s) truthy -> _parse_schema_value n "boolean" s = Ok (JBool true)) /\
        (In (lower s) falsy -> _parse_schema_value n "boolean" s = Ok (JBool false)) /\
        (~ In (lower s) (truthy ++ falsy) ->
           _parse_schema_value n "boolean" s = Raise (Exn ValueError "Please enter true/false.")))
  /\ (forall n t s,
        t = "array" \/ t = "object" ->
        _parse_schema_value n t s =
          match json_loads s with
          | Ok v => Ok v
          | Raise e =>
              if is_JSONDecodeError e
              then Raise (Exn ValueError
                            ("Please enter valid JSON for " ^^ t ^^ ": " ^^ exn_msg e))
              else Raise e
          end)
  /\ (forall n t s, ~ In t type_tags -> _parse_schema_value n t s = Ok (JStr s))
  /\ (forall n t s e,
        _parse_schema_value n t s = Raise e ->
        exn_cls e = ValueError
        \/ ((t = "array" \/ t = "object") /\ json_loads s = Raise e
            /\ is_JSONDecodeError e = false))
  /\ (forall required k pd props args c line rest tr e,
        strip line <> "" ->
        _parse_schema_value k (prop_type_of pd) (strip line) = Raise e ->
        for_properties required ((k, pd) :: props) args (MkState c (line :: rest) tr) =
          if is_ValueError e then
            for_properties required ((k, pd) :: props) args
              (MkState c rest
                 (tr ++ EvInput (prop_prompt required k pd) :: rejected_value k (strip line) e))
          else
            (Raise e, MkState c rest (tr ++ [EvInput (prop_prompt required k pd)])))
  /\ (forall required k pd args c line rest tr v,
        strip line <> "" ->
        _parse_schema_value k (prop_type_of pd) (strip line) = Ok v ->
        prompt_property required k pd args (MkState c (line :: rest) tr) =
        (Ok (dict_set args k v),
         MkState c rest (tr ++ [EvInput (prop_prompt required k pd)]))).
Proof.
  repeat match goal with |- _ /\ _ => split end.
  - intros n s. split; [reflexivity|].
    intros e H. eapply int_of_str_raises; eassumption.
  - intros n k. rewrite parse_integer.
    destruct (String.length (str_of_nat k) <=? int_max_str_digits)%nat eqn:E.
    + apply Nat.leb_le in E. rewrite (int_of_str_of_nat k E). reflexivity.
    + apply Nat.leb_gt in E. rewrite (int_of_str_beyond_limit k E). reflexivity.
  - intros n c s Hp Hi. rewrite parse_integer, (int_of_str_separator c s Hp Hi). reflexivity.
  - intros n. split; [vm_compute; reflexivity|]. split; [|split].
    + intros s Hs. cbn [In] in Hs.
      repeat (destruct Hs as [<-|Hs]; [vm_compute; reflexivity|]). destruct Hs.
    + eexists. vm_compute. reflexivity.
    + vm_compute. reflexivity.
  - reflexivity.
  - intros n s. rewrite parse_boolean. repeat split.
    + intros H. apply str_in_In in H. rewrite H. reflexivity.
    + intros H. destruct (str_in (lower s) truthy) eqn:Ht.
      * apply str_in_In in Ht. exfalso.
        cbn in H, Ht. intuition congruence.
      * apply str_in_In in H. rewrite H. reflexivity.
    + intros H.
      assert (Ht : str_in (lower s) truthy = false)
        by (apply str_in_not_In; intros Hi; apply H; apply in_or_app; auto).
      assert (Hf : str_in (lower s) falsy = false)
        by (apply str_in_not_In; intros Hi; apply H; apply in_or_app; auto).
      rewrite Ht, Hf. reflexivity.
  - intros n t s Ht. apply parse_json. exact Ht.
  - intros n t s H. apply parse_other. exact H.
  - intros n t s e H. eapply parse_raises; eassumption.
  - intros required k pd props args c line rest tr e Hne Hp.
    cbn [for_properties]. unfold bind.
    rewrite prompt_property_step. cbv zeta. rewrite Hp.
    destruct (is_empty (strip line)) eqn:He; [apply is_empty_true in He; contradiction|].
    destruct (is_ValueError e); [norm_tr|]; reflexivity.
  - intros required k pd args c line rest tr v Hne Hp.
    rewrite prompt_property_step. cbv zeta. rewrite Hp.
    destruct (is_empty (strip line)) eqn:He; [apply is_empty_true in He; contradiction|].
    reflexivity.
Qed.

End PromptingClaims.

(** C5 fails as stated: a text nested too deep is no parse error and is
    not asked for again: [json.loads] raises [RecursionError], which is no [ValueError], and
    [prompt_arguments_for_tool] ends with it, the next line unread. *)
Lemma deep_json_is_not_asked_again :
  _parse_schema_value (B:=deep_builtins) "xs" "array" deep_text = Raise recursion_error
  /\ is_ValueError recursion_error = false
  /\ fst (prompt_arguments_for_tool (B:=deep_builtins) list_tool
            (fresh "http" [deep_text; "[]"])) = Raise recursion_error
  /\ stdin (snd (prompt_arguments_for_tool (B:=deep_builtins) list_tool
                   (fresh "http" [deep_text; "[]"]))) = ["[]"]
  /\ count is_print
       (trace (snd (prompt_arguments_for_tool (B:=deep_builtins) list_tool
                      (fresh "http" [deep_text; "[]"])))) = 1.
Proof. vm_compute. repeat split; reflexivity. Qed.

(* ----------------------------------------------------------------- *)
(** ** Invocation and rendering *)

Section Rendering.

Lemma replace_scan_here : forall old new c s,
  replace_scan old new 0 (String c s) =
    if prefix_eqb old (String c s)
    then new ^^ replace_scan old new (String.length old - 1) s
    else String c (replace_scan old new 0 s).
Proof. reflexivity. Qed.

Lemma replace_scan_skip : forall old new k c s,
  replace_scan old new (S k) (String c s) = replace_scan old new k s.
Proof. reflexivity. Qed.

Lemma unescape_newlines_pair : forall c1 c2 s,
  unescape_newlines (String c1 (String c2 s)) =
    if is_backslash c1 && Ascii.eqb c2 "n"
    then String (ascii_of_nat 10) (unescape_newlines s)
    else String c1 (unescape_newlines (String c2 s)).
Proof. reflexivity. Qed.

Lemma replace_newline_escapes : forall s,
  replace_scan ESCAPED_N LF 0 s = unescape_newlines s /\
  forall c, replace_scan ESCAPED_N LF 0 (String c s) = unescape_newlines (String c s).
Proof.
  induction s as [|c2 s2 [IH1 IH2]].
  - split; [reflexivity|]. intros c. cbn. rewrite andb_false_r. reflexivity.
  - split; [apply IH2|]. intros c1.
    rewrite replace_scan_here, unescape_newlines_pair.
    change (prefix_eqb ESCAPED_N (String c1 (String c2 s2)))
      with (Ascii.eqb (ascii_of_nat 92) c1 && (Ascii.eqb "n" c2 && true)).
    unfold is_backslash. rewrite andb_true_r.
    rewrite (Ascii.eqb_sym (ascii_of_nat 92) c1), (Ascii.eqb_sym "n"%char c2).
    destruct (Ascii.eqb c1 (ascii_of_nat 92) && Ascii.eqb c2 "n").
    + change (String.length ESCAPED_N - 1) with 1.
      rewrite replace_scan_skip, IH1. reflexivity.
    + rewrite IH2. reflexivity.
Qed.

Lemma replace_backslashes : forall s,
  replace_scan BACKSLASH "" 0 s = strip_backslashes s.
Proof.
  induction s as [|c s IH]; [reflexivity|].
  rewrite replace_scan_here. cbn [strip_backslashes].
  change (prefix_eqb BACKSLASH (String c s)) with (Ascii.eqb (ascii_of_nat 92) c && true).
  unfold is_backslash. rewrite andb_true_r, (Ascii.eqb_sym (ascii_of_nat 92) c).
  destruct (Ascii.eqb c (ascii_of_nat 92)).
  - change (String.length BACKSLASH - 1) with 0. rewrite IH. reflexivity.
  - rewrite IH. reflexivity.
Qed.

Lemma render_final_spec : forall s,
  render_final s = strip_backslashes (unescape_newlines s).
Proof.
  intros s. unfold render_final.
  change (replace (BACKSLASH ^^ "n") LF s) with (replace_scan ESCAPED_N LF 0 s).
  change (replace BACKSLASH "" ?x) with (replace_scan BACKSLASH "" 0 x).
  rewrite (proj1 (replace_newline_escapes s)). apply replace_backslashes.
Qed.

End Rendering.

Section Invocation.
Context {B : Builtins} {W : World}.

Lemma call_tool_unfold : forall tool arguments st,
  let h := announced tool arguments (trace st) in
  call_tool tool arguments st =
    match _session (self st) with
    | None => (Raise (Exn RuntimeError "Session not started"), st)
    | Some _ =>
        match json_dumps_raises (JObj arguments) with
        | Some e =>
            (Raise e, MkState (self st) (stdin st) (call_heading tool (trace st)))
        | None =>
        match session_call_tool (name tool) arguments h with
        | Ok result_dict =>
            let sent := h ++ [EvCall (SessionCallTool (name tool) arguments) true] in
            match json_dumps_raises result_dict with
            | Some e => (Raise e, MkState (self st) (stdin st) sent)
            | None =>
            (Ok result_dict,
             MkState (self st) (stdin st)
               (h ++ [EvCall (SessionCallTool (name tool) arguments) true;
                      EvPrint (LF ^^ "[TOOL RESULT (raw JSON)]");
                      EvPrint (json_dumps result_dict);
                      EvPrint (LF ^^ "[FINAL RESULT (rendered for readability, JSON formatting may be invalid)]");
                      EvPrint (render_final (json_dumps result_dict))]))
            end
        | Raise e =>
            (Raise e,
             MkState (self st) (stdin st)
               (h ++ [EvCall (SessionCallTool (name tool) arguments) false;
                      EvLog ERROR "Tool call for '%s' failed: %s"
                        [LStr (name tool); LExn e] true]))
        end
        end
    end.
Proof.
  intros tool arguments [c lines tr]. unfold call_tool, announced, call_heading, dumps. step_m.
  destruct (_session c); [|reflexivity]. step_m. norm_tr.
  destruct (json_dumps_raises (JObj arguments)); step_m; norm_tr; [reflexivity|].
  destruct (session_call_tool _ _ _) as [r|e]; step_m; norm_tr; [|reflexivity].
  destruct (json_dumps_raises r); step_m; norm_tr; reflexivity.
Qed.

(** C10.  When [call_tool] returns, its value is the result the session
    returned, and the last thing printed is the indented JSON text of that
    result with every backslash-n pair turned into a line break and every
    backslash left after that removed. *)
Theorem call_tool_rendering : forall tool arguments st result st',
  call_tool tool arguments st = (Ok result, st') ->
  let h := announced tool arguments (trace st) in
  session_call_tool (name tool) arguments h = Ok result
  /\ self st' = self st /\ stdin st' = stdin st
  /\ trace st' =
       h ++ [EvCall (SessionCallTool (name tool) arguments) true;
             EvPrint (LF ^^ "[TOOL RESULT (raw JSON)]");
             EvPrint (json_dumps result);
             EvPrint (LF ^^ "[FINAL RESULT (rendered for readability, JSON formatting may be invalid)]");
             EvPrint (strip_backslashes (unescape_newlines (json_dumps result)))].
Proof.
  intros tool arguments st result st' H. cbv zeta.
  rewrite call_tool_unfold in H. cbv zeta in H.
  destruct (_session (self st)); [|discriminate].
  destruct (json_dumps_raises (JObj arguments)); [discriminate|].
  destruct (session_call_tool _ _ _) as [r|e]; [|discriminate].
  cbv zeta in H. destruct (json_dumps_raises r); [discriminate|].
  inversion H; subst. cbn [self stdin trace]. rewrite render_final_spec. auto.
Qed.

End Invocation.

(* ----------------------------------------------------------------- *)
(** ** What the methods leave untouched *)

Section Frames.

Lemma follows_refl : forall st, follows st st.
Proof.
  intros st. split; [reflexivity|]. split; [lia|].
  exists []. rewrite app_nil_r. auto.
Qed.

Lemma follows_trans : forall st1 st2 st3, follows st1 st2 -> follows st2 st3 -> follows st1 st3.
Proof.
  intros st1 st2 st3 [S1 [L1 [e1 [T1 F1]]]] [S2 [L2 [e2 [T2 F2]]]].
  split; [congruence|]. split; [lia|].
  exists (e1 ++ e2). rewrite T2, T1, app_assoc, forallb_app, F1, F2. auto.
Qed.

Lemma follows_emit : forall st evs,
  forallb body_event evs = true ->
  follows st (MkState (self st) (stdin st) (trace st ++ evs)).
Proof.
  intros st evs H. split; [reflexivity|]. split; [cbn; lia|].
  exists evs. split; [reflexivity | exact H].
Qed.

Lemma framed_ret : forall A (a : A), framed (ret a).
Proof. intros A a st. apply follows_refl. Qed.

Lemma framed_raise : forall A e, framed (@raise A e).
Proof. intros A e st. apply follows_refl. Qed.

Lemma framed_bind : forall A C (m : M A) (k : A -> M C),
  framed m -> (forall a, framed (k a)) -> framed (bind m k).
Proof.
  intros A C m k Hm Hk st. unfold bind. specialize (Hm st).
  destruct (m st) as [[a|e] st1]; cbn [snd] in *; [|exact Hm].
  eapply follows_trans; [exact Hm | apply Hk].
Qed.

Lemma framed_try_except : forall A (m : M A) (h : exn -> M A),
  framed m -> (forall e, framed (h e)) -> framed (try_except m h).
Proof.
  intros A m h Hm Hh st. unfold try_except. specialize (Hm st).
  destruct (m st) as [[a|e] st1]; cbn [snd] in *; [exact Hm|].
  eapply follows_trans; [exact Hm | apply Hh].
Qed.

Lemma framed_emit : forall e, body_event e = true -> framed (emit e).
Proof.
  intros e H st. unfold emit. cbn [snd]. apply follows_emit.
  cbn [forallb]. rewrite H. reflexivity.
Qed.

Lemma framed_log : forall l f a x, framed (log l f a x).
Proof. intros. apply framed_emit. reflexivity. Qed.

Lemma framed_print : forall s, framed (print s).
Proof. intros. apply framed_emit. reflexivity. Qed.

Lemma framed_get_self : framed get_self.
Proof. intros st. apply follows_refl. Qed.

Lemma framed_input : forall p, framed (input p).
Proof.
  intros p [c lines tr]. unfold input. cbn [stdin self trace].
  destruct lines as [|l rest]; cbn [snd]; (split; [reflexivity|]); (split; [cbn; lia|]);
    exists [EvInput p]; auto.
Qed.

Lemma framed_call : forall A c (f : history -> result A),
  (forall b, body_event (EvCall c b) = true) -> framed (call c f).
Proof.
  intros A c f H st. unfold call. cbn [snd]. apply follows_emit.
  cbn [forallb]. rewrite H. reflexivity.
Qed.

Lemma while_input_frame : forall A p (body : string -> M (loop_ctl A)),
  (forall line, framed (body line)) ->
  forall lines st,
    self (snd (while_input p body lines st)) = self st /\
    length (stdin (snd (while_input p body lines st))) <= length lines /\
    exists evs, trace (snd (while_input p body lines st)) = trace st ++ evs /\
                forallb body_event evs = true.
Proof.
  intros A p body Hb. induction lines as [|line rest IH]; intros st; cbn [while_input].
  - cbn [snd self stdin trace length]. split; [reflexivity|]. split; [lia|].
    exists [EvInput p]. auto.
  - pose proof (Hb line (MkState (self st) rest (trace st ++ [EvInput p])))
      as [S1 [L1 [e1 [T1 F1]]]].
    destruct (body line (MkState (self st) rest (trace st ++ [EvInput p])))
      as [[[|a]|e] st1]; cbn [snd self stdin trace] in *.
    + destruct (IH st1) as [S2 [L2 [e2 [T2 F2]]]].
      split; [congruence|]. split; [cbn [length]; lia|].
      exists (EvInput p :: e1 ++ e2). rewrite T2, T1.
      split; [norm_tr; reflexivity|].
      cbn [forallb body_event]. rewrite forallb_app, F1, F2. reflexivity.
    + split; [exact S1|]. split; [cbn [length]; lia|].
      exists (EvInput p :: e1). rewrite T1.
      split; [norm_tr; reflexivity|]. cbn [forallb body_event]. rewrite F1. reflexivity.
    + split; [exact S1|]. split; [cbn [length]; lia|].
      exists (EvInput p :: e1). rewrite T1.
      split; [norm_tr; reflexivity|]. cbn [forallb body_event]. rewrite F1. reflexivity.
Qed.

End Frames.

#[export] Hint Resolve framed_ret framed_raise framed_log framed_print framed_get_self
  framed_input : pyclient.

Ltac frame :=
  repeat first
    [ apply framed_bind; [|intro]
    | apply framed_try_except; [|intro]
    | apply framed_call; reflexivity
    | solve [auto with pyclient] ].

Section MethodFrames.
Context {B : Builtins} {W : World}.

Lemma framed_initialize : framed initialize.
Proof.
  unfold initialize. apply framed_bind; [auto with pyclient|]. intros c.
  destruct (_session c); frame.
Qed.

Lemma framed_list_tools : framed list_tools.
Proof.
  unfold list_tools. apply framed_bind; [auto with pyclient|]. intros c.
  destruct (_session c); frame.
Qed.

Lemma framed_print_listing : forall tools i, framed (print_listing i tools).
Proof.
  induction tools as [|t ts IH]; intros i; cbn [print_listing]; [frame|].
  apply framed_bind; [frame | intro; apply IH].
Qed.

Lemma framed_choose_tool : forall tools, framed (choose_tool tools).
Proof.
  intros tools. unfold choose_tool. destruct tools as [|t ts]; [frame|].
  apply framed_bind; [frame|]. intros _.
  apply framed_bind; [apply framed_print_listing|]. intros _.
  apply framed_bind; [frame|]. intros line.
  destruct (py_int (strip line)) as [idx|]; [|frame].
  destruct ((1 <=? idx) && (idx <=? Z.of_nat (length (t :: ts))))%Z; [|frame].
  destruct (nth_error (t :: ts) (Z.to_nat (idx - 1))); frame.
Qed.

Lemma framed_prompt_body : forall k ty r args line, framed (prompt_body k ty r args line).
Proof.
  intros k ty r args line. unfold prompt_body.
  destruct (is_empty (strip line)); [destruct r; frame|].
  destruct (_parse_schema_value k ty (strip line)) as [v|e]; [frame|].
  destruct (is_ValueError e); frame.
Qed.

Lemma framed_prompt_property : forall required k pd args,
  framed (prompt_property required k pd args).
Proof.
  intros required k pd args st. unfold prompt_property.
  destruct (while_input_frame _ (prop_label k pd (str_in k required) ^^ ": ")
              (prompt_body k (get_default (pd_type pd) "string") (str_in k required) args)
              (framed_prompt_body _ _ _ _) (stdin st) st) as [S1 [L1 E1]].
  split; [exact S1|]. split; [exact L1 | exact E1].
Qed.

Lemma framed_for_properties : forall required props args,
  framed (for_properties required props args).
Proof.
  intros required props. induction props as [|[k pd] props IH]; intros args;
    cbn [for_properties]; [frame|].
  apply framed_bind; [apply framed_prompt_property | intro; apply IH].
Qed.

Lemma framed_prompt_arguments : forall tool, framed (prompt_arguments_for_tool tool).
Proof.
  intros tool. unfold prompt_arguments_for_tool.
  apply framed_bind; [frame|]. intros _.
  destruct (properties (inputSchema tool)); [frame|].
  apply framed_bind; [apply framed_for_properties | intro; frame].
Qed.

Lemma framed_dumps : forall v, framed (dumps v).
Proof.
  intros v. unfold dumps. destruct (json_dumps_raises v); frame.
Qed.

Lemma framed_call_tool : forall tool args, framed (call_tool tool args).
Proof.
  intros tool args. unfold call_tool. apply framed_bind; [frame|]. intros c.
  destruct (_session c); [|frame].
  apply framed_bind; [frame|]. intros _.
  apply framed_bind; [frame|]. intros _.
  apply framed_bind; [apply framed_dumps|]. intros text.
  apply framed_bind; [frame|]. intros _.
  apply framed_bind; [frame|]. intros r.
  apply framed_bind; [apply framed_dumps|]. intros text'.
  frame.
Qed.

Lemma framed_loop_body : forall tools, framed (loop_body tools).
Proof.
  intros tools. unfold loop_body.
  apply framed_bind; [apply framed_choose_tool|]. intros [tool|]; [|frame].
  apply framed_bind; [apply framed_prompt_arguments|]. intros args.
  apply framed_bind; [apply framed_call_tool | intro; frame].
Qed.

Lemma framed_loop_try : forall tools, framed (loop_try tools).
Proof.
  intros tools. unfold loop_try.
  apply framed_try_except; [apply framed_loop_body | intro; frame].
Qed.

Lemma framed_run_loop : forall fuel tools, framed (run_loop fuel tools).
Proof.
  induction fuel as [|fuel IH]; intros tools; cbn [run_loop]; [frame|].
  apply framed_bind; [apply framed_loop_try|]. intros [| |]; [apply IH | frame |].
  apply framed_bind; [frame|]. intros line.
  destruct (str_in (lower (strip line)) ["n"; "no"; ""]); [frame | apply IH].
Qed.

Lemma framed_run : framed run.
Proof.
  unfold run. apply framed_bind.
  - apply framed_try_except; [|intro; frame].
    apply framed_bind; [apply framed_initialize|]. intros _.
    apply framed_bind; [apply framed_list_tools | intro; frame].
  - intros [[|t ts]|]; [frame | | frame].
    intros st. apply framed_run_loop.
Qed.

End MethodFrames.

(* ----------------------------------------------------------------- *)
(** ** Required and optional properties *)

Section RequiredAndOptional.
Context {B : Builtins}.

Lemma framed_prompt_rest : forall tool remaining args, framed (prompt_rest tool remaining args).
Proof.
  intros tool remaining args. unfold prompt_rest.
  apply framed_bind; [apply framed_for_properties | intro; frame].
Qed.

(** The first thing the loop of a property does is ask for it. *)
Lemma prompt_property_asks_first : forall required k pd args st,
  exists evs,
    trace (snd (prompt_property required k pd args st))
    = trace st ++ EvInput (prop_prompt required k pd) :: evs.
Proof.
  intros required k pd args [c [|line rest] tr].
  - rewrite prompt_property_eof. exists []. reflexivity.
  - rewrite prompt_property_step. cbv zeta. cbn [trace].
    assert (Hrec : forall more,
              exists evs,
                trace (snd (prompt_property required k pd args
                              (MkState c rest ((tr ++ [EvInput (prop_prompt required k pd)]) ++ more))))
                = tr ++ EvInput (prop_prompt required k pd) :: evs).
    { intros more.
      destruct (framed_prompt_property required k pd args
                  (MkState c rest ((tr ++ [EvInput (prop_prompt required k pd)]) ++ more)))
        as [_ [_ [evs [T _]]]].
      rewrite T. cbn [trace]. exists (more ++ evs). norm_tr. reflexivity. }
    assert (Hone : exists evs,
              tr ++ [EvInput (prop_prompt required k pd)]
              = tr ++ EvInput (prop_prompt required k pd) :: evs)
      by (exists []; reflexivity).
    destruct (is_empty (strip line)).
    + destruct (str_in k required); [apply Hrec | exact Hone].
    + destruct (_parse_schema_value k (prop_type_of pd) (strip line)) as [v|e];
        [exact Hone|].
      destruct (is_ValueError e); [apply Hrec | exact Hone].
Qed.

Lemma prompt_rest_asks_first : forall tool k pd after args0 st,
  exists evs,
    trace (snd (prompt_rest tool ((k, pd) :: after) args0 st))
    = trace st ++ EvInput (prop_prompt (required (inputSchema tool)) k pd) :: evs.
Proof.
  intros tool k pd after args0 st. rewrite prompt_rest_step.
  destruct (prompt_property_asks_first (required (inputSchema tool)) k pd args0 st) as [e1 T1].
  destruct (prompt_property (required (inputSchema tool)) k pd args0 st) as [[args1|e] st1];
    cbn [snd] in *; [|eauto].
  destruct (framed_prompt_rest tool after args1 st1) as [_ [_ [e2 [T2 _]]]].
  rewrite T2, T1. exists (e1 ++ e2). norm_tr. reflexivity.
Qed.

(** C4.  In [prompt_arguments_for_tool], when the turn of a declared
    property comes and the line read is empty once trimmed: for a required
    property the reason is printed, a warning is logged and the function
    goes on from the same property with the arguments unchanged, so that
    the next thing it does is ask for that property again; for an optional
    property the function goes on from the next property with the
    arguments unchanged.  Whenever the function returns, every required
    property among the schema's properties has a value; and, property
    names being distinct, a property that is optional and was answered by
    an empty line is not a key of the returned dictionary. *)
Theorem prompt_arguments_required_and_optional :
  (forall tool before k pd after st args0 c line rest tr,
      let required := required (inputSchema tool) in
      properties (inputSchema tool) = before ++ (k, pd) :: after ->
      for_properties required before [] (heading_shown tool st)
        = (Ok args0, MkState c (line :: rest) tr) ->
      strip line = "" ->
      prompt_arguments_for_tool tool st =
        if str_in k required then
          prompt_rest tool ((k, pd) :: after) args0
            (MkState c rest (tr ++ EvInput (prop_prompt required k pd) :: rejected_empty k))
        else
          prompt_rest tool after args0
            (MkState c rest (tr ++ [EvInput (prop_prompt required k pd)])))
  /\ (forall tool k pd after args0 st,
        exists evs,
          trace (snd (prompt_rest tool ((k, pd) :: after) args0 st))
          = trace st ++ EvInput (prop_prompt (required (inputSchema tool)) k pd) :: evs)
  /\ (forall tool st args st',
        prompt_arguments_for_tool tool st = (Ok args, st') ->
        forall k, In k (dict_keys (properties (inputSchema tool))) ->
                  str_in k (required (inputSchema tool)) = true ->
                  dict_mem args k = true)
  /\ (forall tool before k pd after st args0 st1 line rest args st',
        properties (inputSchema tool) = before ++ (k, pd) :: after ->
        NoDup (dict_keys (properties (inputSchema tool))) ->
        str_in k (required (inputSchema tool)) = false ->
        for_properties (required (inputSchema tool)) before [] (heading_shown tool st)
          = (Ok args0, st1) ->
        stdin st1 = line :: rest -> strip line = "" ->
        prompt_arguments_for_tool tool st = (Ok args, st') ->
        dict_mem args k = false).
Proof.
  split; [|split; [|split]].
  - intros tool before k pd after st args0 c line rest tr req Hprops Hb He. subst req.
    rewrite (prompt_arguments_resume _ _ _ _ _ _ _ _ Hprops Hb).
    rewrite prompt_rest_step, prompt_property_step. cbv zeta. rewrite He. cbn [is_empty].
    destruct (str_in k (required (inputSchema tool))) eqn:Hr.
    + rewrite prompt_rest_step. norm_tr. reflexivity.
    + reflexivity.
  - intros tool k pd after args0 st. apply prompt_rest_asks_first.
  - intros tool st args st' H k Hin Hr.
    apply prompt_arguments_ok in H; [|intros E; rewrite E in Hin; destruct Hin].
    destruct H as [st2 Hf].
    destruct (for_properties_keys _ _ _ _ _ _ Hf k) as [_ [Hreq _]]. auto.
  - intros tool before k pd after st args0 st1 line rest args st' Hprops Hnd Hr Hb Hs He H.
    apply prompt_arguments_ok in H; [|rewrite Hprops; destruct before; discriminate].
    destruct H as [st2 Hf]. rewrite Hprops in Hf, Hnd.
    rewrite for_properties_app in Hf. unfold bind in Hf. rewrite Hb in Hf.
    cbn [for_properties] in Hf. unfold bind in Hf.
    destruct st1 as [c1 lines1 tr1]. cbn [stdin] in Hs. subst lines1.
    rewrite prompt_property_step in Hf. cbv zeta in Hf. rewrite He, Hr in Hf.
    cbn [is_empty] in Hf.
    unfold dict_keys in Hnd. rewrite map_app in Hnd. cbn [map fst] in Hnd.
    apply NoDup_remove_2 in Hnd.
    destruct (dict_mem args k) eqn:Hk; [exfalso|reflexivity].
    destruct (for_properties_keys _ _ _ _ _ _ Hf k) as [_ [_ Hinv]].
    destruct (Hinv Hk) as [Hk0|Hin].
    + destruct (for_properties_keys _ _ _ _ _ _ Hb k) as [_ [_ Hinv0]].
      destruct (Hinv0 Hk0) as [Hnil|Hin]; [discriminate|].
      apply Hnd. apply in_or_app. left. exact Hin.
    + apply Hnd. apply in_or_app. right. exact Hin.
Qed.

End RequiredAndOptional.

(* ----------------------------------------------------------------- *)
(** ** The interactive loop *)

Section Controller.
Context {B : Builtins} {W : World}.

Lemma run_loop_unfold : forall fuel tools st,
  run_loop (S fuel) tools st =
    match loop_body tools st with
    | (Raise e, st1) =>
        (Ok tt, record st1 [EvLog ERROR "Error during interactive tool call: %s" [LExn e] true])
    | (Ok PassContinue, st1) => run_loop fuel tools st1
    | (Ok PassBreak, st1) => (Ok tt, st1)
    | (Ok PassAsk, st1) =>
        match stdin st1 with
        | [] => (Raise eof_error, after_input st1 again_prompt)
        | line :: _ =>
            if str_in (lower (strip line)) stop_answers
            then (Ok tt, record (after_input st1 again_prompt)
                           [EvLog INFO "User chose to exit interactive loop" [] false])
            else run_loop fuel tools (after_input st1 again_prompt)
        end
    end.
Proof.
  intros fuel tools st. cbn [run_loop]. unfold bind at 1. unfold loop_try, try_except.
  destruct (loop_body tools st) as [[[| |]|e] st1].
  - reflexivity.
  - reflexivity.
  - unfold bind at 1. unfold input, after_input, record, again_prompt, stop_answers.
    destruct st1 as [c lines tr]. cbn [stdin self trace tl].
    destruct lines as [|line rest]; [reflexivity|]. cbn [tl].
    destruct (str_in (lower (strip line)) ["n"; "no"; ""]); [|reflexivity].
    step_m. reflexivity.
  - step_m. reflexivity.
Qed.

Lemma choose_tool_consumes : forall t ts st r st0,
  choose_tool (t :: ts) st = (Ok r, st0) -> length (stdin st0) < length (stdin st).
Proof.
  intros t ts [c lines tr] r st0 H. destruct lines as [|line rest].
  - rewrite choose_tool_eof in H. discriminate.
  - rewrite choose_tool_line in H. cbv zeta in H.
    destruct (py_int (strip line)) as [idx|].
    + destruct ((1 <=? idx) && (idx <=? Z.of_nat (length (t :: ts))))%Z.
      * destruct (nth_error (t :: ts) (Z.to_nat (idx - 1))); inversion H; subst; cbn; lia.
      * inversion H; subst; cbn; lia.
    + inversion H; subst; cbn; lia.
Qed.

(** A pass that does not raise has read at least one line, and it ends in
    [continue] or at the question, never in [break]. *)
Lemma loop_body_consumes : forall t ts st p st1,
  loop_body (t :: ts) st = (Ok p, st1) ->
  length (stdin st1) < length (stdin st) /\ p <> PassBreak.
Proof.
  intros t ts st p st1 H. unfold loop_body in H. unfold bind at 1 in H.
  destruct (choose_tool (t :: ts) st) as [[[tool|]|e] st0] eqn:Hc; [| |discriminate].
  - apply choose_tool_consumes in Hc.
    unfold bind at 1 in H.
    pose proof (framed_prompt_arguments tool st0) as [_ [L1 _]].
    destruct (prompt_arguments_for_tool tool st0) as [[args|e] st2]; [|discriminate].
    cbn [snd] in L1. unfold bind at 1 in H.
    pose proof (framed_call_tool tool args st2) as [_ [L2 _]].
    destruct (call_tool tool args st2) as [[r|e] st3]; [|discriminate].
    cbn [snd] in L2. inversion H; subst. split; [lia | discriminate].
  - apply choose_tool_consumes in Hc. inversion H; subst. split; [lia | discriminate].
Qed.

(** The budget does not matter once it exceeds the lines left. *)
Lemma run_loop_fuel : forall f1 f2 t ts st,
  length (stdin st) < f1 -> length (stdin st) < f2 ->
  run_loop f1 (t :: ts) st = run_loop f2 (t :: ts) st.
Proof.
  induction f1 as [|f1 IH]; intros f2 t ts st H1 H2; [lia|].
  destruct f2 as [|f2]; [lia|].
  rewrite !run_loop_unfold.
  destruct (loop_body (t :: ts) st) as [[p|e] st1] eqn:Hb; [|reflexivity].
  apply loop_body_consumes in Hb as [Hl Hp].
  destruct p; [apply IH; lia | reflexivity |].
  destruct (stdin st1) as [|line rest] eqn:Hs; [reflexivity|].
  destruct (str_in (lower (strip line)) stop_answers); [reflexivity|].
  apply IH; unfold after_input; cbn [stdin]; rewrite Hs; cbn [tl length] in *; lia.
Qed.

Lemma interactive_loop_from : forall fuel t ts st,
  length (stdin st) < fuel -> run_loop fuel (t :: ts) st = interactive_loop (t :: ts) st.
Proof.
  intros fuel t ts st H. unfold interactive_loop. apply run_loop_fuel; lia.
Qed.

Lemma bind_after : forall A C (m : M A) (k : A -> M C) st,
  (forall a, framed (k a)) -> follows (snd (m st)) (snd (bind m k st)).
Proof.
  intros A C m k st Hk. unfold bind.
  destruct (m st) as [[a|e] st1]; cbn [snd]; [apply Hk | apply follows_refl].
Qed.

Lemma try_except_after : forall A (m : M A) (h : exn -> M A) st,
  (forall e, framed (h e)) -> follows (snd (m st)) (snd (try_except m h st)).
Proof.
  intros A m h st Hh. unfold try_except.
  destruct (m st) as [[a|e] st1]; cbn [snd]; [apply follows_refl | apply Hh].
Qed.

Lemma choose_tool_header : forall t ts st,
  exists evs,
    trace (snd (choose_tool (t :: ts) st))
    = trace st ++ EvPrint (LF ^^ "Available tools:") :: evs.
Proof.
  intros t ts [c lines tr]. destruct lines as [|line rest].
  - rewrite choose_tool_eof. unfold asked. cbn [snd trace]. eauto.
  - rewrite choose_tool_line. cbv zeta. unfold asked.
    destruct (py_int (strip line)) as [idx|].
    + destruct ((1 <=? idx) && (idx <=? Z.of_nat (length (t :: ts))))%Z.
      * destruct (nth_error (t :: ts) (Z.to_nat (idx - 1)));
          cbn [snd trace]; norm_tr; eauto.
      * cbn [snd trace]; eauto.
    + cbn [snd trace]; norm_tr; eauto.
Qed.

(** Every run of the loop with budget left starts by printing the listing. *)
Lemma run_loop_header : forall fuel t ts st,
  exists evs,
    trace (snd (run_loop (S fuel) (t :: ts) st))
    = trace st ++ EvPrint (LF ^^ "Available tools:") :: evs.
Proof.
  intros fuel t ts st.
  destruct (choose_tool_header t ts st) as [e0 T0].
  assert (H1 : follows (snd (choose_tool (t :: ts) st)) (snd (loop_body (t :: ts) st))).
  { unfold loop_body. apply bind_after. intros [tool|]; [|apply framed_ret].
    apply framed_bind; [apply framed_prompt_arguments|]. intros args.
    apply framed_bind; [apply framed_call_tool | intro; apply framed_ret]. }
  assert (H2 : follows (snd (loop_body (t :: ts) st)) (snd (loop_try (t :: ts) st))).
  { unfold loop_try. apply try_except_after. intro e.
    apply framed_bind; [apply framed_log | intro; apply framed_ret]. }
  assert (H3 : follows (snd (loop_try (t :: ts) st)) (snd (run_loop (S fuel) (t :: ts) st))).
  { cbn [run_loop]. apply bind_after. intros [| |]; [apply framed_run_loop | apply framed_ret |].
    apply framed_bind; [apply framed_input|]. intros line.
    destruct (str_in (lower (strip line)) ["n"; "no"; ""]); [|apply framed_run_loop].
    apply framed_bind; [apply framed_log | intro; apply framed_ret]. }
  destruct (follows_trans _ _ _ H1 (follows_trans _ _ _ H2 H3)) as [_ [_ [evs [T _]]]].
  exists (e0 ++ evs). rewrite T, T0. norm_tr. reflexivity.
Qed.

(** With budget above the lines left, the loop returns or raises
    [EOFError]; the budget is not used up. *)
Lemma run_loop_result : forall fuel t ts st,
  length (stdin st) < fuel ->
  fst (run_loop fuel (t :: ts) st) = Ok tt \/ fst (run_loop fuel (t :: ts) st) = Raise eof_error.
Proof.
  induction fuel as [|fuel IH]; intros t ts st H; [lia|].
  rewrite run_loop_unfold.
  destruct (loop_body (t :: ts) st) as [[p|e] st1] eqn:Hb; [|auto].
  apply loop_body_consumes in Hb as [Hl Hp].
  destruct p; [apply IH; lia | auto |].
  destruct (stdin st1) as [|line rest] eqn:Hs; [auto|].
  destruct (str_in (lower (strip line)) stop_answers); [auto|].
  apply IH. unfold after_input. cbn [stdin]. rewrite Hs. cbn [tl length] in *. lia.
Qed.


End Controller.

(* ----------------------------------------------------------------- *)
(** ** Scoped acquisition *)

Section Scope.
Context {B : Builtins} {W : World}.

(** What [__aenter__] adds to the history: never an exit of the transport,
    at most one successful entry, and exactly one, with the context
    manager kept in [_ctx], when it returns. *)
Lemma aenter_outcome : forall st r st1,
  __aenter__ st = (r, st1) ->
  exists evs,
    trace st1 = trace st ++ evs /\
    count transport_exit_invoked evs = 0 /\
    count transport_opened evs <= 1 /\
    (r = Ok tt -> count transport_opened evs = 1 /\ is_some (_ctx (self st1)) = true).
Proof.
  intros [c lines tr] r st1 H. unfold __aenter__ in H. step_m.
  destruct (transport c =? "http").
  - step_m.
    destruct (transport_aenter StreamableHttp (url c) _) as [sid|e]; step_m.
    + destruct (session_aenter _) as [[]|e]; step_m; inversion H; subst; cbn [trace self _ctx];
        norm_tr; eexists; (split; [reflexivity|]); cbn; repeat split; auto; discriminate.
    + inversion H; subst; cbn [trace self _ctx];
        norm_tr; eexists; (split; [reflexivity|]); cbn; repeat split; auto; discriminate.
  - destruct (transport c =? "sse").
    + step_m.
      destruct (transport_aenter Sse (url c) _) as [sid|e]; step_m.
      * destruct (session_aenter _) as [[]|e]; step_m; inversion H; subst; cbn [trace self _ctx];
          norm_tr; eexists; (split; [reflexivity|]); cbn; repeat split; auto; discriminate.
      * inversion H; subst; cbn [trace self _ctx];
          norm_tr; eexists; (split; [reflexivity|]); cbn; repeat split; auto; discriminate.
    + step_m. inversion H; subst; cbn [trace self _ctx];
        norm_tr; eexists; (split; [reflexivity|]); cbn; repeat split; auto; discriminate.
Qed.

Lemma body_events_no_transport : forall evs,
  forallb body_event evs = true ->
  count transport_exit_invoked evs = 0 /\ count transport_opened evs = 0.
Proof.
  induction evs as [|e evs IH]; intros H; [split; reflexivity|].
  cbn [forallb] in H. apply andb_true_iff in H as [He Hr].
  destruct (IH Hr) as [I1 I2]. unfold count in *. cbn [filter].
  destruct e as [| | |[] b]; try discriminate He; cbn; auto.
Qed.

Lemma close_session_counts : forall present o m1 m2,
  count transport_opened (close_events present SessionExit o m1 m2) = 0 /\
  count transport_exit_invoked (close_events present SessionExit o m1 m2) = 0.
Proof.
  intros present o m1 m2. unfold close_events.
  destruct present; [|split; reflexivity]. destruct o; split; reflexivity.
Qed.

Lemma close_transport_counts : forall present o m1 m2,
  count transport_opened (close_events present TransportExit o m1 m2) = 0 /\
  count transport_exit_invoked (close_events present TransportExit o m1 m2)
  = if present then 1 else 0.
Proof.
  intros present o m1 m2. unfold close_events.
  destruct present; [|split; reflexivity]. destruct o; split; reflexivity.
Qed.

(** Once [__aenter__] has returned, the block closes the transport it
    opened exactly once, however the body ends. *)
Lemma entered_scope_closes_once : forall A (body : M A) st st1,
  framed body ->
  __aenter__ st = (Ok tt, st1) ->
  count transport_opened (trace (snd (async_with body st)))
    = count transport_opened (trace st) + 1 /\
  count transport_exit_invoked (trace (snd (async_with body st)))
    = count transport_exit_invoked (trace st) + 1.
Proof.
  intros A body st st1 Hb Hin.
  destruct (aenter_outcome _ _ _ Hin) as [e1 [T1 [X1 [_ Hok]]]].
  destruct (Hok eq_refl) as [O1 C1].
  unfold async_with, bind. rewrite Hin.
  destruct (Hb st1) as [S2 [_ [e2 [T2 F2]]]].
  destruct (body_events_no_transport _ F2) as [X2 O2].
  assert (Hx : forall exc st2, self st2 = self st1 -> trace st2 = trace st1 ++ e2 ->
            count transport_opened (trace (snd (__aexit__ exc st2)))
              = count transport_opened (trace st) + 1 /\
            count transport_exit_invoked (trace (snd (__aexit__ exc st2)))
              = count transport_exit_invoked (trace st) + 1).
  { intros exc st2 Hs Ht. rewrite aexit_spec. cbn [snd trace]. rewrite Hs, Ht, T1.
    destruct (_ctx (self st1)) as [k|]; [|discriminate C1].
    rewrite !count_app.
    match goal with
    | |- context [close_events ?p SessionExit ?o ?a ?b] =>
        destruct (close_session_counts p o a b) as [Hs1 Hs2]; rewrite Hs1, Hs2
    end.
    match goal with
    | |- context [close_events ?p TransportExit ?o ?a ?b] =>
        destruct (close_transport_counts p o a b) as [Ht1 Ht2]; rewrite Ht1, Ht2
    end.
    rewrite X1, O1, X2, O2. cbn. split; lia. }
  destruct (body st1) as [[a|e] st2]; cbn [snd] in *.
  - specialize (Hx None st2 S2 T2). rewrite aexit_spec in Hx |- *.
    unfold ret, raise. cbn [snd] in *. exact Hx.
  - specialize (Hx (Some e) st2 S2 T2). rewrite aexit_spec in Hx |- *.
    unfold ret, raise. cbn [snd] in *. exact Hx.
Qed.

(** When [__aenter__] raises, the block is over: [__aexit__] is not run. *)
Lemma failed_entry_skips_exit : forall A (body : M A) st e st1,
  __aenter__ st = (Raise e, st1) ->
  async_with body st = (Raise e, st1) /\
  count transport_exit_invoked (trace st1) = count transport_exit_invoked (trace st).
Proof.
  intros A body st e st1 H. split.
  - unfold async_with. unfold bind at 1. rewrite H. reflexivity.
  - destruct (aenter_outcome _ _ _ H) as [evs [T [X _]]]. rewrite T, count_app, X. lia.
Qed.

(** In particular with [run] as the body, as the example programs use the
    client. *)
Lemma run_scope_closes_once : forall st st1,
  __aenter__ st = (Ok tt, st1) ->
  count transport_exit_invoked (trace (snd (async_with run st)))
    = count transport_exit_invoked (trace st) + 1.
Proof.
  intros st st1 H. apply (entered_scope_closes_once unit run st st1 framed_run H).
Qed.

End Scope.

(** C1 at the failing input.  The streamable-http transport opens and
    entering the protocol session raises: the error leaves the
    [async with] block, the transport was opened once, and its exit was
    never invoked. *)
Theorem transport_left_open_when_session_entry_fails :
  let outcome :=
    async_with (W:=session_entry_fails)
      (run (B:=plain_builtins) (W:=session_entry_fails)) (fresh "http" ["1"]) in
  fst outcome = Raise (Exn RuntimeError "session entry failed") /\
  count transport_opened (trace (snd outcome)) = 1 /\
  count transport_exit_invoked (trace (snd outcome)) = 0.
Proof. vm_compute. repeat split. Qed.

(* ----------------------------------------------------------------- *)
(** ** Scenarios *)

(** The rendering theorem at the echo tool: the escaped line break of the
    sample text becomes a line break and the escaped backslash is gone. *)
Lemma call_tool_rendering_witness :
  exists result st',
    call_tool (B:=plain_builtins) (W:=healthy_world) echo_tool [("msg", JStr "hi")] (entered [])
      = (Ok result, st') /\
    result = JObj [("isError", JBool false)] /\
    trace st' =
      announced (B:=plain_builtins) echo_tool [("msg", JStr "hi")] []
      ++ [EvCall (SessionCallTool "echo" [("msg", JStr "hi")]) true;
          EvPrint (LF ^^ "[TOOL RESULT (raw JSON)]");
          EvPrint sample_rendering;
          EvPrint (LF ^^ "[FINAL RESULT (rendered for readability, JSON formatting may be invalid)]");
          EvPrint ("{" ^^ LF ^^ "  " ^^ QUOTE ^^ "text" ^^ QUOTE ^^ ": " ^^ QUOTE ^^ "a"
                   ^^ LF ^^ "bc" ^^ QUOTE ^^ LF ^^ "}")].
Proof.
  eexists _, _. split; [vm_compute; reflexivity|]. split; [reflexivity|].
  refine (proj2 (proj2 (proj2
    (call_tool_rendering (B:=plain_builtins) (W:=healthy_world)
       echo_tool [("msg", JStr "hi")] (entered []) _ _ _)))).
  vm_compute; reflexivity.
Defined.

(** The specification's scenario: selecting "1" and entering "hi" for
    [msg] calls [echo] with [{"msg": "hi"}]. *)
Example scenario_echo :
  let outcome :=
    async_with (W:=healthy_world) (run (B:=plain_builtins) (W:=healthy_world))
      (fresh "http" ["1"; "hi"; "n"]) in
  fst outcome = Ok tt /\
  In (EvCall (SessionCallTool "echo" [("msg", JStr "hi")]) true) (trace (snd outcome)) /\
  count transport_exit_invoked (trace (snd outcome)) = 1.
Proof. vm_compute. intuition. Qed.

(** Selections "0" and "abc" against three tools give [None]. *)
Example scenario_invalid_selection :
  fst (choose_tool [echo_tool; count_tool; echo_tool] (entered ["0"])) = Ok None /\
  fst (choose_tool [echo_tool; count_tool; echo_tool] (entered ["abc"])) = Ok None.
Proof. split; vm_compute; reflexivity. Qed.

(** An optional property left empty is absent from the arguments; a
    required one is asked for until it has a value. *)
Example scenario_optional_and_required :
  fst (prompt_arguments_for_tool (B:=plain_builtins) count_tool (entered [" "])) = Ok [] /\
  fst (prompt_arguments_for_tool (B:=plain_builtins) echo_tool (entered [""; " "; "hi"]))
    = Ok [("msg", JStr "hi")].
Proof. split; vm_compute; reflexivity. Qed.

(** Boolean tokens in any case; anything else is refused. *)
Example scenario_boolean_tokens :
  _parse_schema_value (B:=plain_builtins) "flag" "boolean" "YES" = Ok (JBool true) /\
  _parse_schema_value (B:=plain_builtins) "flag" "boolean" "N" = Ok (JBool false) /\
  _parse_schema_value (B:=plain_builtins) "flag" "boolean" "maybe"
    = Raise (Exn ValueError "Please enter true/false.").
Proof. repeat split. Qed.

(* ----------------------------------------------------------------- *)
(** ** The session operations outside the claims *)

Section SessionOperations.
Context {B : Builtins} {W : World}.

Lemma initialize_unfold : forall st,
  let h := trace st ++ [EvLog INFO "Initializing MCP session" [] false] in
  initialize st =
    match _session (self st) with
    | None => (Raise (Exn RuntimeError "Session not started"), st)
    | Some _ =>
        match session_initialize h with
        | Ok _ =>
            (Ok tt,
             MkState (self st) (stdin st)
               (h ++ [EvCall SessionInitialize true;
                      EvLog INFO "MCP session successfully initialized" [] false]))
        | Raise e =>
            (Raise e,
             MkState (self st) (stdin st)
               (h ++ [EvCall SessionInitialize false;
                      EvLog ERROR "Initialize failed: %s" [LExn e] true]))
        end
    end.
Proof.
  intros [c lines tr]. unfold initialize. step_m. destruct (_session c); [|reflexivity].
  step_m. destruct (session_initialize _) as [[]|e]; step_m; norm_tr; reflexivity.
Qed.

Lemma handshake_done_app : forall h1 h2,
  handshake_done (h1 ++ h2) = handshake_done h1 || handshake_done h2.
Proof. intros. unfold handshake_done. apply existsb_app. Qed.

(** X1.  [initialize] leaves the client object and standard input alone.
    Without a session it raises [RuntimeError] and does nothing else.
    With one, the handshake is on record exactly when [initialize]
    returns; when the session's handshake raises, that same exception
    comes out, after an error record naming it. *)
Theorem initialize_records_handshake : forall st r st',
  initialize st = (r, st') ->
  self st' = self st /\ stdin st' = stdin st /\
  handshake_done (trace st') = handshake_done (trace st) || is_ok r /\
  (_session (self st) = None ->
     st' = st /\ r = Raise (Exn RuntimeError "Session not started")) /\
  (forall e, r = Raise e -> _session (self st) <> None ->
     session_initialize (trace st ++ [EvLog INFO "Initializing MCP session" [] false])
       = Raise e /\
     In (EvLog ERROR "Initialize failed: %s" [LExn e] true) (trace st')).
Proof.
  intros st r st' H. rewrite initialize_unfold in H. cbv zeta in H.
  destruct (_session (self st)) as [s|].
  - destruct (session_initialize _) as [[]|e] eqn:Hs; inversion H; subst;
      cbn [self stdin trace is_ok]; (split; [reflexivity|]); (split; [reflexivity|]);
      rewrite !handshake_done_app; cbn [handshake_done existsb orb];
      (split; [|split; [intros Hn; discriminate Hn|]]).
    + rewrite !orb_true_r. reflexivity.
    + intros e0 He. discriminate He.
    + rewrite !orb_false_r. reflexivity.
    + intros e0 He _. inversion He; subst. split; [reflexivity|].
      apply in_or_app. right. cbn. auto.
  - inversion H; subst. cbn [is_ok]. rewrite orb_false_r.
    split; [reflexivity|]. split; [reflexivity|]. split; [reflexivity|].
    split; [intros _; split; reflexivity|]. intros e0 _ Hne. congruence.
Qed.

Lemma call_tool_by_name_unfold : forall name arguments st,
  let h := trace st ++ [EvLog INFO "Calling tool by name '%s' (non-interactive)" [LStr name] false] in
  call_tool_by_name name arguments st =
    match _session (self st) with
    | None => (Raise (Exn RuntimeError "Session not started"), st)
    | Some _ =>
        match session_call_tool name arguments h with
        | Ok result => (Ok result, record st [EvLog INFO "Calling tool by name '%s' (non-interactive)" [LStr name] false;
                                               EvCall (SessionCallTool name arguments) true])
        | Raise e =>
            (Raise e,
             record st [EvLog INFO "Calling tool by name '%s' (non-interactive)" [LStr name] false;
                        EvCall (SessionCallTool name arguments) false;
                        EvLog ERROR "Non-interactive tool call for '%s' failed: %s"
                          [LStr name; LExn e] true])
        end
    end.
Proof.
  intros name arguments [c lines tr]. unfold call_tool_by_name, record. step_m.
  destruct (_session c); [|reflexivity]. step_m.
  destruct (session_call_tool _ _ _) as [r|e]; step_m; norm_tr; reflexivity.
Qed.

(** X2.  [call_tool_by_name] is silent: whatever happens it prints nothing
    and reads nothing, and leaves the client object alone.  With a session
    it sends exactly one call, with the name and arguments given, and its
    outcome is the session's: the result as returned, or the session's
    exception.  Without a session nothing is sent. *)
Theorem call_tool_by_name_silent : forall name arguments st,
  exists r evs,
    call_tool_by_name name arguments st = (r, record st evs) /\
    count is_print evs = 0 /\ count is_input evs = 0 /\
    count is_collaborator_call evs = (if is_some (_session (self st)) then 1 else 0) /\
    (is_some (_session (self st)) = true ->
       In (EvCall (SessionCallTool name arguments) (is_ok r)) evs /\
       r = session_call_tool name arguments
             (trace st ++ [EvLog INFO "Calling tool by name '%s' (non-interactive)"
                             [LStr name] false])).
Proof.
  intros name arguments st. rewrite call_tool_by_name_unfold. cbv zeta.
  destruct (_session (self st)) as [s|]; cbn [is_some].
  - destruct (session_call_tool _ _ _) as [r|e] eqn:Hs; do 2 eexists;
      (split; [reflexivity|]); cbn; repeat split; auto.
  - exists (Raise (Exn RuntimeError "Session not started")), [].
    split; [unfold record; rewrite app_nil_r; destruct st; reflexivity|].
    repeat split; discriminate.
Qed.

(** X3.  [call_tool] raises in four ways and no other.  There is no
    session: nothing at all was printed, logged or sent.  [json.dumps]
    refuses the arguments: its exception comes out after the log record
    and the heading, and no request is sent.  The session's call raises:
    that same exception comes out, after the echo of the arguments, the
    failed call and one error record.  [json.dumps] refuses the result:
    its exception comes out after the call that returned, and nothing of
    the result is printed.  In no case is a result rendered. *)
Theorem call_tool_failure : forall tool arguments st e st',
  call_tool tool arguments st = (Raise e, st') ->
  (_session (self st) = None /\ st' = st /\ e = Exn RuntimeError "Session not started")
  \/ (json_dumps_raises (JObj arguments) = Some e /\
      st' = MkState (self st) (stdin st) (call_heading tool (trace st)))
  \/ (session_call_tool (name tool) arguments (announced tool arguments (trace st)) = Raise e /\
      st' = MkState (self st) (stdin st)
              (announced tool arguments (trace st)
                 ++ [EvCall (SessionCallTool (name tool) arguments) false;
                     EvLog ERROR "Tool call for '%s' failed: %s"
                       [LStr (name tool); LExn e] true]))
  \/ (exists result,
        session_call_tool (name tool) arguments (announced tool arguments (trace st))
          = Ok result /\
        json_dumps_raises result = Some e /\
        st' = MkState (self st) (stdin st)
                (announced tool arguments (trace st)
                   ++ [EvCall (SessionCallTool (name tool) arguments) true])).
Proof.
  intros tool arguments st e st' H. rewrite call_tool_unfold in H. cbv zeta in H.
  destruct (_session (self st)).
  - destruct (json_dumps_raises (JObj arguments)) as [e1|] eqn:Hd.
    { inversion H; subst. right. left. auto. }
    destruct (session_call_tool _ _ _) as [r|e0] eqn:Hc.
    + destruct (json_dumps_raises r) as [e2|] eqn:Hr; [|discriminate].
      inversion H; subst. right. right. right. exists r. auto.
    + inversion H; subst. right. right. left. auto.
  - inversion H; subst. left. auto.
Qed.

End SessionOperations.

(** A call on a client that was never entered fails before any request. *)
Lemma call_tool_failure_witness :
  exists e st',
    call_tool (B:=plain_builtins) (W:=healthy_world) echo_tool [] (fresh "http" [])
      = (Raise e, st') /\
    st' = fresh "http" [] /\ e = Exn RuntimeError "Session not started".
Proof.
  do 2 eexists. split; [vm_compute; reflexivity|].
  destruct (call_tool_failure (B:=plain_builtins) (W:=healthy_world) echo_tool []
              (fresh "http" []) (Exn RuntimeError "Session not started") (fresh "http" []))
    as [[_ [H1 H2]]|[[H _]|[[H _]|[r [_ [H _]]]]]].
  - vm_compute; reflexivity.
  - split; reflexivity.
  - vm_compute in H. discriminate H.
  - vm_compute in H. discriminate H.
  - vm_compute in H. discriminate H.
Defined.

Lemma initialize_records_handshake_witness :
  exists st',
    initialize (W:=healthy_world) (entered []) = (Ok tt, st') /\
    handshake_done (trace st') = true.
Proof.
  eexists. split; [vm_compute; reflexivity|].
  apply (initialize_records_handshake (W:=healthy_world) (entered []) (Ok tt)).
  vm_compute; reflexivity.
Defined.

(* ----------------------------------------------------------------- *)
(** ** The collected arguments: keys, order and values *)

Section DictFacts.
Context {V : Type}.

Lemma dict_mem_In : forall (d : dict V) k, dict_mem d k = true <-> In k (dict_keys d).
Proof.
  unfold dict_mem, dict_keys. induction d as [|[k0 v0] d IH]; intros k; cbn [dict_get map fst In].
  - split; [discriminate | tauto].
  - destruct (k0 =? k) eqn:E.
    + apply String.eqb_eq in E. split; auto.
    + apply String.eqb_neq in E. rewrite IH. split; [auto | intros [H|H]; [contradiction | exact H]].
Qed.

Lemma dict_keys_set_new : forall (d : dict V) k v,
  ~ In k (dict_keys d) -> dict_keys (dict_set d k v) = dict_keys d ++ [k].
Proof.
  unfold dict_keys. induction d as [|[k0 v0] d IH]; intros k v H; cbn [dict_set map fst app].
  - reflexivity.
  - cbn [map fst In] in H. destruct (k0 =? k) eqn:E.
    + apply String.eqb_eq in E. exfalso. apply H. auto.
    + cbn [map fst]. rewrite IH; [reflexivity | intros Hin; apply H; auto].
Qed.

Lemma dict_get_set : forall (d : dict V) k v k',
  dict_get (dict_set d k v) k' = if k' =? k then Some v else dict_get d k'.
Proof.
  induction d as [|[k0 v0] d IH]; intros k v k'; cbn [dict_set dict_get].
  - destruct (String.eqb_spec k k'), (String.eqb_spec k' k); congruence.
  - destruct (String.eqb_spec k0 k); cbn [dict_get].
    + subst k0. destruct (String.eqb_spec k k'), (String.eqb_spec k' k); congruence.
    + rewrite IH.
      destruct (String.eqb_spec k0 k'), (String.eqb_spec k' k); congruence.
Qed.

End DictFacts.

Section Arguments.
Context {B : Builtins}.

(** What a property's loop stores is the parse of a non-empty line among
    those it read. *)
Lemma prompt_property_value : forall required k pd args lines c tr args' st',
  prompt_property required k pd args (MkState c lines tr) = (Ok args', st') ->
  exists consumed,
    lines = consumed ++ stdin st' /\
    ((str_in k required = false /\ args' = args)
     \/ (exists v line,
           args' = dict_set args k v /\ In line consumed /\ strip line <> "" /\
           _parse_schema_value k (prop_type_of pd) (strip line) = Ok v)).
Proof.
  intros required k pd args lines. induction lines as [|line rest IH]; intros c tr args' st' H.
  - rewrite prompt_property_eof in H. discriminate.
  - rewrite prompt_property_step in H. cbv zeta in H.
    assert (Hrec : forall tr0,
              prompt_property required k pd args (MkState c rest tr0) = (Ok args', st') ->
              exists consumed,
                line :: rest = consumed ++ stdin st' /\
                ((str_in k required = false /\ args' = args)
                 \/ (exists v l,
                       args' = dict_set args k v /\ In l consumed /\ strip l <> "" /\
                       _parse_schema_value k (prop_type_of pd) (strip l) = Ok v))).
    { intros tr0 H0. destruct (IH _ _ _ _ H0) as [consumed [Hc Hv]].
      exists (line :: consumed). split; [cbn [app]; rewrite <- Hc; reflexivity|].
      destruct Hv as [Hv|[v [l [Ha [Hin Hrest]]]]]; [left; exact Hv|].
      right. exists v, l. split; [exact Ha|]. split; [right; exact Hin | exact Hrest]. }
    destruct (is_empty (strip line)) eqn:He.
    + destruct (str_in k required) eqn:Hr; [eapply Hrec; eauto|].
      inversion H; subst. exists [line]. split; [reflexivity|]. left. auto.
    + destruct (_parse_schema_value k (prop_type_of pd) (strip line)) as [v|e] eqn:Hp.
      * inversion H; subst. exists [line]. split; [reflexivity|].
        right. exists v, line. cbn [In]. repeat split; auto.
        intros Hs. rewrite Hs in He. discriminate.
      * destruct (is_ValueError e); [eapply Hrec; eauto | discriminate].
Qed.

Lemma for_properties_values : forall required props args st args' st',
  for_properties required props args st = (Ok args', st') ->
  exists consumed,
    stdin st = consumed ++ stdin st' /\
    forall k v, dict_get args' k = Some v ->
      dict_get args k = Some v
      \/ (exists pd line,
            In (k, pd) props /\ In line consumed /\ strip line <> "" /\
            _parse_schema_value k (prop_type_of pd) (strip line) = Ok v).
Proof.
  intros required props. induction props as [|[k0 pd] props IH]; intros args st args' st' H.
  - cbn in H. inversion H; subst. exists []. split; [reflexivity | auto].
  - cbn [for_properties] in H. unfold bind in H.
    destruct (prompt_property required k0 pd args st) as [[args1|e] st1] eqn:Hp; [|discriminate].
    destruct st as [c lines tr].
    destruct (prompt_property_value _ _ _ _ _ _ _ _ _ Hp) as [c1 [H1 Hv1]].
    destruct (IH _ _ _ _ H) as [c2 [H2 Hv2]].
    exists (c1 ++ c2). cbn [stdin]. split; [rewrite H1, H2, app_assoc; reflexivity|].
    intros k v Hg.
    destruct (Hv2 k v Hg) as [Hg1|[pd' [l [Hin [Hl Hrest]]]]].
    + destruct Hv1 as [[_ ->]|[v0 [l [-> [Hl Hrest]]]]]; [auto|].
      rewrite dict_get_set in Hg1. destruct (k =? k0) eqn:E; [|auto].
      apply String.eqb_eq in E. subst k0. inversion Hg1; subst v0.
      right. exists pd, l. cbn [In]. split; [auto|].
      split; [apply in_or_app; left; exact Hl | exact Hrest].
    + right. exists pd', l. cbn [In]. split; [auto|].
      split; [apply in_or_app; right; exact Hl | exact Hrest].
Qed.

Lemma for_properties_key_order : forall required props args st args' st',
  for_properties required props args st = (Ok args', st') ->
  NoDup (dict_keys props) ->
  (forall k, In k (dict_keys args) -> ~ In k (dict_keys props)) ->
  dict_keys args' = dict_keys args ++ filter (dict_mem args') (dict_keys props).
Proof.
  intros required props. induction props as [|[k0 pd] props IH]; intros args st args' st' H Hnd Hdis.
  - cbn in H. inversion H; subst. cbn. rewrite app_nil_r. reflexivity.
  - cbn [for_properties] in H. unfold bind in H.
    destruct (prompt_property required k0 pd args st) as [[args1|e] st1] eqn:Hp; [|discriminate].
    destruct st as [c lines tr].
    cbn [dict_keys map fst] in Hnd, Hdis |- *. fold (dict_keys props) in *.
    inversion Hnd as [|x l Hk0 Hnd']; subst.
    assert (Hk0a : ~ In k0 (dict_keys args)).
    { intros Hin. apply (Hdis k0 Hin). cbn. auto. }
    destruct (for_properties_keys _ _ _ _ _ _ H k0) as [Hmono [_ Hinv]].
    destruct (prompt_property_result _ _ _ _ _ _ _ _ _ Hp) as [[_ ->]|[v ->]].
    + rewrite (IH _ _ _ _ H Hnd') by (intros k Hin Hp'; apply (Hdis k Hin); cbn; auto).
      cbn [filter].
      destruct (dict_mem args' k0) eqn:Hm; [|reflexivity].
      exfalso. destruct (Hinv eq_refl) as [Ha|Hin]; [|contradiction].
      apply dict_mem_In in Ha. contradiction.
    + rewrite (IH _ _ _ _ H Hnd').
      * rewrite dict_keys_set_new by exact Hk0a. cbn [filter].
        rewrite (Hmono (dict_mem_set_same _ _ _)). norm_tr. reflexivity.
      * intros k Hin Hp'. rewrite dict_keys_set_new in Hin by exact Hk0a.
        apply in_app_or in Hin as [Hin|[<-|[]]]; [|contradiction].
        apply (Hdis k Hin). cbn. auto.
Qed.

(** X4.  Only declared properties get a value: a name listed in
    [required] and missing from [properties] is never asked for and never
    among the arguments.  With no declared property the result is the
    empty dictionary and no input is read, whatever [required] lists. *)
Theorem arguments_only_for_declared : forall tool st args st',
  prompt_arguments_for_tool tool st = (Ok args, st') ->
  (forall k, dict_mem args k = true -> In k (dict_keys (properties (inputSchema tool))))
  /\ (properties (inputSchema tool) = [] -> args = [] /\ stdin st' = stdin st).
Proof.
  intros tool st args st' H. split.
  - intros k Hk.
    destruct (properties (inputSchema tool)) as [|p props] eqn:E.
    + rewrite prompt_arguments_unfold, E in H. inversion H; subst. discriminate Hk.
    + apply prompt_arguments_ok in H; [|rewrite E; discriminate].
      destruct H as [st2 Hf]. rewrite E in Hf.
      destruct (for_properties_keys _ _ _ _ _ _ Hf k) as [_ [_ Hinv]].
      destruct (Hinv Hk) as [Hnil|Hin]; [discriminate | exact Hin].
  - intros E. rewrite prompt_arguments_unfold, E in H. inversion H; subst. auto.
Qed.

(** X5.  The keys of the collected arguments are the properties that got a
    value, in the order of the schema (property names being distinct). *)
Theorem arguments_in_schema_order : forall tool st args st',
  prompt_arguments_for_tool tool st = (Ok args, st') ->
  NoDup (dict_keys (properties (inputSchema tool))) ->
  dict_keys args = filter (dict_mem args) (dict_keys (properties (inputSchema tool))).
Proof.
  intros tool st args st' H Hnd.
  destruct (properties (inputSchema tool)) as [|p props] eqn:E.
  - rewrite prompt_arguments_unfold, E in H. inversion H; subst. reflexivity.
  - apply prompt_arguments_ok in H; [|rewrite E; discriminate].
    destruct H as [st2 Hf]. rewrite E in Hf.
    apply for_properties_key_order in Hf; [exact Hf | exact Hnd | intros k []].
Qed.

(** X6.  Every value among the collected arguments is what
    [_parse_schema_value] returned for an entry that was read: one of the
    lines the function took from standard input, non-empty once trimmed,
    parsed under the type declared for a property of that name.  Nothing
    is stored unparsed, and no empty entry is ever stored. *)
Theorem arguments_are_parsed_entries : forall tool st args st',
  prompt_arguments_for_tool tool st = (Ok args, st') ->
  exists consumed,
    stdin st = consumed ++ stdin st' /\
    forall k v, dict_get args k = Some v ->
      exists pd line,
        In (k, pd) (properties (inputSchema tool)) /\ In line consumed /\
        strip line <> "" /\
        _parse_schema_value k (prop_type_of pd) (strip line) = Ok v.
Proof.
  intros tool st args st' H.
  destruct (properties (inputSchema tool)) as [|p props] eqn:E.
  - rewrite prompt_arguments_unfold, E in H. inversion H; subst.
    exists []. split; [reflexivity|]. intros k v Hg. discriminate Hg.
  - pose proof H as H0. rewrite prompt_arguments_unfold, E in H0.
    apply prompt_arguments_ok in H; [|rewrite E; discriminate].
    destruct H as [st2 Hf]. rewrite E in Hf. rewrite Hf in H0. inversion H0; subst st'.
    destruct (for_properties_values _ _ _ _ _ _ Hf) as [consumed [Hc Hv]].
    exists consumed. cbn [stdin]. split; [exact Hc|].
    intros k v Hg. destruct (Hv k v Hg) as [Hnil|Hex]; [discriminate | exact Hex].
Qed.

End Arguments.

Lemma arguments_only_for_declared_witness :
  exists st',
    prompt_arguments_for_tool (B:=plain_builtins) mixed_tool (entered [""; "hi"])
      = (Ok [("msg", JStr "hi")], st') /\
    forall k, dict_mem [("msg", JStr "hi")] k = true -> In k ["n"; "msg"].
Proof.
  eexists. split; [vm_compute; reflexivity|].
  refine (proj1 (arguments_only_for_declared (B:=plain_builtins) mixed_tool
                   (entered [""; "hi"]) [("msg", JStr "hi")] _ _)).
  vm_compute; reflexivity.
Defined.

Lemma arguments_in_schema_order_witness :
  exists st',
    prompt_arguments_for_tool (B:=plain_builtins) mixed_tool (entered ["4_2"; "hi"])
      = (Ok [("n", JInt 42); ("msg", JStr "hi")], st') /\
    dict_keys [("n", JInt 42); ("msg", JStr "hi")]
    = filter (dict_mem [("n", JInt 42); ("msg", JStr "hi")]) ["n"; "msg"].
Proof.
  eexists. split; [vm_compute; reflexivity|].
  refine (arguments_in_schema_order (B:=plain_builtins) mixed_tool
            (entered ["4_2"; "hi"]) [("n", JInt 42); ("msg", JStr "hi")] _ _ _).
  - vm_compute; reflexivity.
  - repeat constructor; cbn; intuition discriminate.
Defined.

Lemma arguments_are_parsed_entries_witness :
  exists st' consumed,
    prompt_arguments_for_tool (B:=plain_builtins) mixed_tool (entered ["4_2"; "hi"; "n"])
      = (Ok [("n", JInt 42); ("msg", JStr "hi")], st') /\
    ["4_2"; "hi"; "n"] = consumed ++ stdin st' /\
    exists pd line,
      In ("n", pd) [("n", PropDef None (Some "integer"));
                    ("msg", PropDef (Some "text") None)] /\
      In line consumed /\ strip line <> "" /\
      _parse_schema_value (B:=plain_builtins) "n" (prop_type_of pd) (strip line) = Ok (JInt 42).
Proof.
  destruct (arguments_are_parsed_entries (B:=plain_builtins) mixed_tool
              (entered ["4_2"; "hi"; "n"]) [("n", JInt 42); ("msg", JStr "hi")]
              (snd (prompt_arguments_for_tool (B:=plain_builtins) mixed_tool
                      (entered ["4_2"; "hi"; "n"]))))
    as [consumed [Hc Hv]]; [vm_compute; reflexivity|].
  eexists. exists consumed. split; [vm_compute; reflexivity|].
  split; [exact Hc|]. exact (Hv "n" (JInt 42) eq_refl).
Defined.

(* ----------------------------------------------------------------- *)
(** ** The interactive run as a whole *)

Section WholeRun.
Context {B : Builtins} {W : World}.

Lemma run_unfold : forall st,
  run st =
    match (initialize ;; list_tools) st with
    | (Raise e, st1) =>
        (Ok tt, record st1 [EvLog ERROR "Failed to start interactive loop: %s" [LExn e] true])
    | (Ok [], st1) =>
        (Ok tt, record st1 [EvPrint "No tools available.";
                            EvLog WARNING "Server returned no tools" [] false])
    | (Ok tools, st1) => interactive_loop tools st1
    end.
Proof.
  intros st. unfold run, record, bind, try_except.
  destruct (initialize st) as [[[]|e] st1].
  - destruct (list_tools st1) as [[[|t ts]|e] st2]; step_m; norm_tr; reflexivity.
  - step_m. reflexivity.
Qed.

(** X7.  When the server lists no tools, [run] says so on the console,
    logs a warning and returns: the selection loop is not entered and no
    input is read. *)
Theorem run_without_tools : forall st st1,
  (initialize ;; list_tools) st = (Ok [], st1) ->
  run st = (Ok tt, record st1 [EvPrint "No tools available.";
                               EvLog WARNING "Server returned no tools" [] false])
  /\ stdin st1 = stdin st.
Proof.
  intros st st1 H. split; [rewrite run_unfold, H; reflexivity|].
  unfold bind in H.
  destruct (framed_initialize st) as [_ [_ _]].
  pose proof (initialize_frame st) as [e1 [E1 _]].
  destruct (initialize st) as [[[]|e] sti]; [|discriminate]. cbn [snd] in E1.
  pose proof (list_tools_frame sti) as [e2 [E2 _]]. rewrite H in E2. cbn [snd] in E2.
  subst. reflexivity.
Qed.

(** The loop ends by returning, or by [EOFError] at the question that
    follows an invocation, with standard input used up. *)
Lemma run_loop_outcome : forall fuel t ts st,
  length (stdin st) < fuel ->
  fst (run_loop fuel (t :: ts) st) = Ok tt
  \/ (fst (run_loop fuel (t :: ts) st) = Raise eof_error /\
      stdin (snd (run_loop fuel (t :: ts) st)) = [] /\
      exists h, trace (snd (run_loop fuel (t :: ts) st)) = h ++ [EvInput again_prompt]).
Proof.
  induction fuel as [|fuel IH]; intros t ts st H; [lia|].
  rewrite run_loop_unfold.
  destruct (loop_body (t :: ts) st) as [[p|e] st1] eqn:Hb; [|auto].
  apply loop_body_consumes in Hb as [Hl Hp].
  destruct p; [apply IH; lia | auto |].
  destruct (stdin st1) as [|line rest] eqn:Hs.
  - right. unfold after_input. cbn [fst snd stdin trace]. rewrite Hs. eauto.
  - destruct (str_in (lower (strip line)) stop_answers); [auto|].
    apply IH. unfold after_input. cbn [stdin]. rewrite Hs. cbn [tl length] in *. lia.
Qed.

(** X8.  [run] keeps every failure to itself but one.  A refused
    handshake, a failed listing, a failed tool call, end of input while
    selecting or prompting: all end in a normal return.  The one exception
    that can leave [run] is the [EOFError] of the question asked after an
    invocation, when standard input is used up. *)
Theorem run_lets_only_eof_escape : forall st,
  fst (run st) = Ok tt
  \/ (fst (run st) = Raise eof_error /\
      stdin (snd (run st)) = [] /\
      exists h, trace (snd (run st)) = h ++ [EvInput again_prompt]).
Proof.
  intros st. rewrite run_unfold.
  destruct ((initialize ;; list_tools) st) as [[[|t ts]|e] st1]; [auto | | auto].
  unfold interactive_loop. apply run_loop_outcome. lia.
Qed.

Lemma run_after_handshake : forall st st1,
  initialize st = (Ok tt, st1) -> follows st1 (snd (run st)).
Proof.
  intros st st1 H. unfold run.
  eapply follows_trans; [|apply bind_after].
  - eapply follows_trans; [|apply try_except_after].
    + unfold bind at 1. rewrite H.
      assert (F : framed (tools <- list_tools ;; ret (Some tools))).
      { apply framed_bind; [apply framed_list_tools | intro; apply framed_ret]. }
      apply F.
    + intro e. apply framed_bind; [apply framed_log | intro; apply framed_ret].
  - intros [[|t ts]|]; [| |apply framed_ret].
    + apply framed_bind; [apply framed_print|]. intros _.
      apply framed_bind; [apply framed_log | intro; apply framed_ret].
    + intros st0. apply framed_run_loop.
Qed.

(** X9.  Inside [run] nothing is asked of the server before the handshake:
    if the events that [run] adds hold a listing request or a tool call,
    a successful [initialize] comes before the first of them. *)
Theorem run_handshake_before_traffic : forall st,
  exists evs,
    trace (snd (run st)) = trace st ++ evs /\
    (existsb tool_traffic evs = true ->
       exists pre post,
         evs = pre ++ EvCall SessionInitialize true :: post /\
         existsb tool_traffic pre = false).
Proof.
  intros st. destruct (initialize st) as [[[]|e] st1] eqn:Hi.
  - destruct (run_after_handshake _ _ Hi) as [_ [_ [evs [T _]]]].
    rewrite initialize_unfold in Hi. cbv zeta in Hi.
    destruct (_session (self st)); [|discriminate].
    destruct (session_initialize _); [|discriminate].
    inversion Hi; subst. cbn [trace] in T.
    eexists. split; [rewrite T; norm_tr; reflexivity|].
    intros _. exists [EvLog INFO "Initializing MCP session" [] false]. eexists.
    split; reflexivity.
  - assert (Hr : run st = (Ok tt, record st1
               [EvLog ERROR "Failed to start interactive loop: %s" [LExn e] true])).
    { rewrite run_unfold. unfold bind. rewrite Hi. reflexivity. }
    rewrite Hr. cbn [snd record trace].
    rewrite initialize_unfold in Hi. cbv zeta in Hi.
    destruct (_session (self st)).
    + destruct (session_initialize _); [discriminate|].
      inversion Hi; subst. cbn [trace]. eexists. split; [norm_tr; reflexivity|].
      cbn. discriminate.
    + inversion Hi; subst. eexists. split; [reflexivity|]. cbn. discriminate.
Qed.

End WholeRun.

Lemma run_without_tools_witness :
  exists st1,
    (initialize (W:=empty_server) ;; list_tools (W:=empty_server)) (entered ["1"]) = (Ok [], st1) /\
    run (B:=plain_builtins) (W:=empty_server) (entered ["1"])
    = (Ok tt, record st1 [EvPrint "No tools available.";
                          EvLog WARNING "Server returned no tools" [] false]) /\
    stdin st1 = ["1"].
Proof.
  eexists. split; [vm_compute; reflexivity|].
  apply (run_without_tools (B:=plain_builtins) (W:=empty_server) (entered ["1"])).
  vm_compute; reflexivity.
Defined.

(* ----------------------------------------------------------------- *)
(** ** The opened client, and closing it *)

Section OpenedClient.
Context {B : Builtins} {W : World}.

(** X10.  When [__aenter__] returns, the client holds the context manager
    of the transport its string selects, the two streams of that
    transport, and a session built on exactly these streams; url and
    transport string are as before.  The session id accessor is set by the
    streamable-http transport only, which logs the id; the SSE transport
    leaves the attribute as it was. *)
Theorem aenter_success_state : forall st st1,
  __aenter__ st = (Ok tt, st1) ->
  exists k,
    kind_of (transport (self st)) = Some k /\
    url (self st1) = url (self st) /\ transport (self st1) = transport (self st) /\
    _ctx (self st1) = Some k /\
    _read_stream (self st1) = Some (ReadStream k) /\
    _write_stream (self st1) = Some (WriteStream k) /\
    _session (self st1) = Some (MkSession (Some (ReadStream k)) (Some (WriteStream k))) /\
    match k with
    | Sse => _get_session_id (self st1) = _get_session_id (self st)
    | StreamableHttp =>
        exists sid,
          _get_session_id (self st1) = Some sid /\
          In (EvLog INFO "Streamable-http session started (session_id=%s)" [LOptStr sid] false)
             (trace st1)
    end.
Proof.
  intros [c lines tr] st1 H. unfold __aenter__ in H. unfold kind_of. step_m.
  destruct (transport c =? "http").
  - step_m.
    destruct (transport_aenter StreamableHttp (url c) _) as [sid|e]; step_m; [|discriminate].
    destruct (session_aenter _) as [[]|e]; step_m; [|discriminate].
    inversion H; subst. cbn. exists StreamableHttp. repeat split.
    exists sid. split; [reflexivity|]. rewrite !in_app_iff. cbn. tauto.
  - destruct (transport c =? "sse").
    + step_m.
      destruct (transport_aenter Sse (url c) _) as [sid|e]; step_m; [|discriminate].
      destruct (session_aenter _) as [[]|e]; step_m; [|discriminate].
      inversion H; subst. cbn. exists Sse. repeat split.
    + step_m. discriminate.
Qed.

Lemma aenter_sets_both : forall st st1,
  __aenter__ st = (Ok tt, st1) ->
  is_some (_ctx (self st1)) = true /\ is_some (_session (self st1)) = true.
Proof.
  intros [c lines tr] st1 H. unfold __aenter__ in H. step_m.
  destruct (transport c =? "http").
  - step_m.
    destruct (transport_aenter StreamableHttp (url c) _) as [sid|e]; step_m; [|discriminate].
    destruct (session_aenter _) as [[]|e]; step_m; [|discriminate].
    inversion H; subst. cbn. split; reflexivity.
  - destruct (transport c =? "sse").
    + step_m.
      destruct (transport_aenter Sse (url c) _) as [sid|e]; step_m; [|discriminate].
      destruct (session_aenter _) as [[]|e]; step_m; [|discriminate].
      inversion H; subst. cbn. split; reflexivity.
    + step_m. discriminate.
Qed.

(** X11.  Once [__aenter__] has returned, leaving the block releases the
    two resources in order, once each and last of all: after the body's
    events come the closing record, the session's exit with its record and
    the transport's exit with its record, and nothing more; this holds
    however the body ends. *)
Theorem scope_releases_in_order : forall (A : Type) (body : M A) st st1,
  framed body ->
  __aenter__ st = (Ok tt, st1) ->
  exists b1 l1 b2 l2,
    trace (snd (async_with body st)) =
      trace (snd (body st1))
      ++ [EvLog INFO "Closing interactive client" [] false;
          EvCall SessionExit b1; l1; EvCall TransportExit b2; l2] /\
    is_log l1 = true /\ is_log l2 = true.
Proof.
  intros A body st st1 Hb Hin.
  destruct (aenter_sets_both _ _ Hin) as [Hc Hs].
  unfold async_with, bind. rewrite Hin.
  destruct (Hb st1) as [S2 _].
  assert (Hx : forall exc st2, self st2 = self st1 ->
            exists b1 l1 b2 l2,
              trace (snd (__aexit__ exc st2)) =
                trace st2 ++ [EvLog INFO "Closing interactive client" [] false;
                              EvCall SessionExit b1; l1; EvCall TransportExit b2; l2] /\
              is_log l1 = true /\ is_log l2 = true).
  { intros exc st2 Hself. rewrite aexit_spec. cbn [snd trace]. rewrite Hself, Hs, Hc.
    unfold close_events.
    destruct (session_aexit exc _); destruct (transport_aexit exc _);
      do 4 eexists; (split; [norm_tr; reflexivity|]); split; reflexivity. }
  destruct (body st1) as [[a|e] st2]; cbn [snd] in *.
  - destruct (Hx None st2 S2) as [b1 [l1 [b2 [l2 [T L]]]]].
    exists b1, l1, b2, l2. split; [|exact L].
    rewrite aexit_spec in T |- *. unfold ret. cbn [snd] in *. exact T.
  - destruct (Hx (Some e) st2 S2) as [b1 [l1 [b2 [l2 [T L]]]]].
    exists b1, l1, b2, l2. split; [|exact L].
    rewrite aexit_spec in T |- *. unfold raise. cbn [snd] in *. exact T.
Qed.

(** X12.  [__aexit__] does not clear [_session] or [_ctx]: the client
    object is the same afterwards, so a second [__aexit__] invokes both
    exits again. *)
Theorem aexit_does_not_reset : forall exc1 exc2 st,
  let st1 := snd (__aexit__ exc1 st) in
  let st2 := snd (__aexit__ exc2 st1) in
  self st1 = self st /\
  count session_exit_invoked (trace st2)
    = count session_exit_invoked (trace st) + (if is_some (_session (self st)) then 2 else 0) /\
  count transport_exit_invoked (trace st2)
    = count transport_exit_invoked (trace st) + (if is_some (_ctx (self st)) then 2 else 0).
Proof.
  intros exc1 exc2 st. cbv zeta. rewrite aexit_spec. cbn [snd self].
  split; [reflexivity|]. rewrite aexit_spec. cbn [snd self trace].
  rewrite !count_app.
  assert (Hs : forall p o m1 m2,
            count session_exit_invoked (close_events p SessionExit o m1 m2)
            = (if p then 1 else 0) /\
            count session_exit_invoked (close_events p TransportExit o m1 m2) = 0).
  { intros p o m1 m2. unfold close_events. destruct p; [|split; reflexivity].
    destruct o; split; reflexivity. }
  split.
  - repeat match goal with
           | |- context [count session_exit_invoked (close_events ?p ?c ?o ?a ?b)] =>
               first [ rewrite (proj1 (Hs p o a b)) | rewrite (proj2 (Hs p o a b)) ]
           end.
    destruct (is_some (_session (self st))); cbn; lia.
  - repeat match goal with
           | |- context [count transport_exit_invoked (close_events ?p SessionExit ?o ?a ?b)] =>
               rewrite (proj2 (close_session_counts p o a b))
           | |- context [count transport_exit_invoked (close_events ?p TransportExit ?o ?a ?b)] =>
               rewrite (proj2 (close_transport_counts p o a b))
           end.
    destruct (is_some (_ctx (self st))); cbn; lia.
Qed.

End OpenedClient.

Lemma aenter_success_state_witness :
  let st1 := snd (__aenter__ (W:=healthy_world) (fresh "sse" [])) in
  _ctx (self st1) = Some Sse /\ _get_session_id (self st1) = None.
Proof.
  cbv zeta.
  assert (H : __aenter__ (W:=healthy_world) (fresh "sse" [])
              = (Ok tt, snd (__aenter__ (W:=healthy_world) (fresh "sse" []))))
    by (vm_compute; reflexivity).
  destruct (aenter_success_state (W:=healthy_world) (fresh "sse" []) _ H)
    as [k [Hk [_ [_ [Hc [_ [_ [_ Hg]]]]]]]].
  vm_compute in Hk. inversion Hk; subst k. split; [exact Hc | exact Hg].
Defined.

Lemma scope_releases_in_order_witness :
  let st := fresh "http" ["1"; "hi"; "n"] in
  let st1 := snd (__aenter__ (W:=healthy_world) st) in
  exists b1 l1 b2 l2,
    trace (snd (async_with (W:=healthy_world) (run (B:=plain_builtins) (W:=healthy_world)) st))
    = trace (snd (run (B:=plain_builtins) (W:=healthy_world) st1))
      ++ [EvLog INFO "Closing interactive client" [] false;
          EvCall SessionExit b1; l1; EvCall TransportExit b2; l2] /\
    is_log l1 = true /\ is_log l2 = true.
Proof.
  cbv zeta.
  refine (scope_releases_in_order (W:=healthy_world) unit
            (run (B:=plain_builtins) (W:=healthy_world)) (fresh "http" ["1"; "hi"; "n"])
            (snd (__aenter__ (W:=healthy_world) (fresh "http" ["1"; "hi"; "n"]))) _ _).
  - apply framed_run.
  - vm_compute; reflexivity.
Defined.

(* ----------------------------------------------------------------- *)
(** ** What [choose_tool] shows *)

Section Shown.

Lemma listing_length : forall tools i, length (listing i tools) = length tools.
Proof.
  induction tools as [|t ts IH]; intros i; cbn [listing length]; [reflexivity|].
  rewrite IH. reflexivity.
Qed.

Lemma listing_nth : forall tools i j tool,
  nth_error tools j = Some tool ->
  nth_error (listing i tools) j
  = Some (EvPrint (str_of_nat (i + j) ^^ ". " ^^ name tool ^^ " - "
                   ^^ or_empty (description tool))).
Proof.
  induction tools as [|t ts IH]; intros i j tool H.
  - destruct j; discriminate H.
  - destruct j as [|j]; cbn [nth_error listing] in *.
    + inversion H; subst. rewrite Nat.add_0_r. reflexivity.
    + rewrite (IH (S i) j tool H). rewrite Nat.add_succ_r. reflexivity.
Qed.

(** What [choose_tool] adds to the history after the question. *)
Lemma choose_tool_tail : forall t ts c lines tr,
  exists tail,
    trace (snd (choose_tool (t :: ts) (MkState c lines tr))) = asked tr (t :: ts) ++ tail /\
    length tail <= 1 /\ forallb is_log tail = true.
Proof.
  intros t ts c [|line rest] tr.
  - rewrite choose_tool_eof. exists []. rewrite app_nil_r. cbn. auto.
  - rewrite (choose_tool_line t ts c line rest tr). cbv zeta.
    destruct (py_int (strip line)) as [idx|].
    + destruct ((1 <=? idx) && (idx <=? Z.of_nat (length (t :: ts))))%Z.
      * destruct (nth_error (t :: ts) (Z.to_nat (idx - 1))); cbn [snd trace].
        -- eexists. split; [reflexivity|]. cbn. auto.
        -- exists []. rewrite app_nil_r. cbn. auto.
      * exists []. rewrite app_nil_r. cbn. auto.
    + cbn [snd trace]. eexists. split; [reflexivity|]. cbn. auto.
Qed.

(** X13.  For a non-empty list, whatever is on standard input,
    [choose_tool] prints the heading, then one line per tool in the order
    of the list, the tool at index [i] on the line numbered [i + 1] with
    its name and its description (empty when it has none), then asks the
    question; after that it logs at most one record and prints nothing. *)
Theorem choose_tool_listing : forall t ts c lines tr,
  let tools := t :: ts in
  exists shown tail,
    trace (snd (choose_tool tools (MkState c lines tr)))
    = tr ++ [EvPrint (LF ^^ "Available tools:")] ++ shown
         ++ [EvInput (LF ^^ "Select a tool by number: ")] ++ tail /\
    length shown = length tools /\
    (forall i tool, nth_error tools i = Some tool ->
       nth_error shown i
       = Some (EvPrint (str_of_nat (S i) ^^ ". " ^^ name tool ^^ " - "
                        ^^ or_empty (description tool)))) /\
    length tail <= 1 /\ forallb is_log tail = true.
Proof.
  intros t ts c lines tr tools. subst tools.
  destruct (choose_tool_tail t ts c lines tr) as [tail [T [L F]]].
  exists (listing 1 (t :: ts)), tail. split.
  - rewrite T. unfold asked. norm_tr. reflexivity.
  - split; [apply listing_length|]. split; [|auto].
    intros i tool H. rewrite (listing_nth _ 1 i tool H). reflexivity.
Qed.


End Shown.

(* ----------------------------------------------------------------- *)
(** ** Logging set-up *)

Section LoggingSetup.

Lemma setup_colored_logger_result : forall level root,
  setup_colored_logger level root
  = {| root_level := level;
       root_handlers :=
         [StreamHandler (Some (ColorFormatter "[%(levelname)s] %(name)s: %(message)s"))] |}.
Proof. intros level [l hs]. reflexivity. Qed.

Lemma construct_all_configured : forall flags root,
  root_handlers root <> [] ->
  fst (construct_all flags root) = root.
Proof.
  induction flags as [|f rest IH]; intros root H; [reflexivity|].
  cbn [construct_all]. unfold init_logging.
  destruct f.
  - destruct (root_handlers root) as [|h hs] eqn:E; [contradiction|].
    specialize (IH root). rewrite E in IH.
    destruct (construct_all rest root) as [r2 e2]. cbn [fst] in *. apply IH. discriminate.
  - specialize (IH root H).
    destruct (construct_all rest root) as [r2 e2]. cbn [fst] in *. exact IH.
Qed.

(** X15.  Logging is configured at most once, and never over an existing
    configuration.  After any number of constructions, with any flags: a
    root logger that had a handler is exactly as it was, level included;
    so is one for which no construction asked for logging; otherwise the
    root logger has level INFO and the colour handler as its only handler,
    installed by the first construction that asked, whatever came after.
    Each construction that asked logs its record, the others log nothing. *)
Theorem logging_configured_once : forall flags root,
  let root' := fst (construct_all flags root) in
  (root_handlers root <> [] -> root' = root) /\
  (existsb (fun f => f) flags = false -> root' = root) /\
  (root_handlers root = [] -> existsb (fun f => f) flags = true -> root' = colored_root) /\
  snd (construct_all flags root)
  = repeat (EvLog INFO "Logger activated for MCPInteractiveHTTPClient" [] false)
           (activations flags).
Proof.
  intros flags root root'. subst root'.
  split; [apply construct_all_configured|].
  split; [|split].
  - revert root. induction flags as [|f rest IH]; intros root H; [reflexivity|].
    cbn [existsb] in H. destruct f; [discriminate H|]. cbn [orb] in H.
    cbn [construct_all init_logging]. specialize (IH root H).
    destruct (construct_all rest root) as [r2 e2]. exact IH.
  - revert root. induction flags as [|f rest IH]; intros root Hn H; [discriminate H|].
    cbn [construct_all]. unfold init_logging. destruct f.
    + rewrite Hn.
      pose proof (construct_all_configured rest (setup_colored_logger logging_INFO root)) as Hc.
      rewrite setup_colored_logger_result in *.
      destruct (construct_all rest _) as [r2 e2]. cbn [fst] in *.
      apply Hc. cbn. discriminate.
    + cbn [existsb orb] in H. specialize (IH root Hn H).
      destruct (construct_all rest root) as [r2 e2]. exact IH.
  - revert root. induction flags as [|f rest IH]; intros root; [reflexivity|].
    cbn [construct_all activations]. unfold init_logging. destruct f.
    + match goal with
      | |- context [construct_all rest ?r] => specialize (IH r); destruct (construct_all rest r) as [r2 e2]
      end.
      cbn [snd] in *. rewrite IH. reflexivity.
    + specialize (IH root). destruct (construct_all rest root) as [r2 e2].
      cbn [snd] in *. rewrite IH. reflexivity.
Qed.

End LoggingSetup.

(* ----------------------------------------------------------------- *)
(** ** The example program *)

Section ExampleProgram.
Context {B : Builtins} {W : World}.

(** With a transport string the client knows, [__aenter__] gets as far as
    opening that transport at the client's url, whatever follows; url and
    transport string stay. *)
Lemma aenter_reaches_transport : forall st k,
  kind_of (transport (self st)) = Some k ->
  exists b evs,
    trace (snd (__aenter__ st))
    = trace st ++ [EvLog INFO "Opening interactive client (transport=%s, url=%s)"
                     [LStr (transport (self st)); LStr (url (self st))] false;
                   EvCall (TransportEnter k (url (self st))) b] ++ evs /\
    url (self (snd (__aenter__ st))) = url (self st) /\
    transport (self (snd (__aenter__ st))) = transport (self st).
Proof.
  intros [c lines tr] k Hk. unfold kind_of in Hk. cbn [self] in Hk.
  unfold __aenter__. step_m.
  destruct (transport c =? "http").
  - inversion Hk; subst k. step_m.
    destruct (transport_aenter StreamableHttp (url c) _) as [sid|e]; step_m.
    + destruct (session_aenter _) as [[]|e]; step_m; norm_tr;
        do 2 eexists; (split; [reflexivity|]); cbn; auto.
    + norm_tr. do 2 eexists; (split; [reflexivity|]); cbn; auto.
  - destruct (transport c =? "sse"); [|discriminate Hk].
    inversion Hk; subst k. step_m.
    destruct (transport_aenter Sse (url c) _) as [sid|e]; step_m.
    + destruct (session_aenter _) as [[]|e]; step_m; norm_tr;
        do 2 eexists; (split; [reflexivity|]); cbn; auto.
    + norm_tr. do 2 eexists; (split; [reflexivity|]); cbn; auto.
Qed.

(** The block only adds to the history of [__aenter__], and leaves the
    client object as [__aenter__] left it. *)
Lemma async_with_extends : forall (A : Type) (body : M A) st,
  framed body ->
  self (snd (async_with body st)) = self (snd (__aenter__ st)) /\
  exists evs, trace (snd (async_with body st)) = trace (snd (__aenter__ st)) ++ evs.
Proof.
  intros A body st Hb. unfold async_with, bind.
  destruct (__aenter__ st) as [[[]|e] st1]; cbn [snd].
  - destruct (Hb st1) as [S2 [_ [e2 [T2 _]]]].
    destruct (body st1) as [[a|e] st2]; cbn [snd] in *;
      rewrite aexit_spec; cbn [snd self trace]; (split; [exact S2|]);
      rewrite T2; norm_tr; eexists; reflexivity.
  - split; [reflexivity|]. exists []. rewrite app_nil_r. reflexivity.
Qed.

(** The program after a line is read: the block runs on a new client. *)
Lemma example_main_line : forall line rest c tr,
  let sse := line =? "2" in
  example_main (MkState c (line :: rest) tr)
  = async_with run
      (MkState (__init__ (if sse then SSE_URL else HTTP_URL) (if sse then "sse" else "http"))
         rest
         (tr ++ [EvInput transport_question; EvPrint (banner line);
                 EvLog INFO "Logger activated for MCPInteractiveHTTPClient" [] false])).
Proof.
  intros line rest c tr. cbv zeta.
  unfold example_main, banner, main_http, main_sse, construct.
  unfold bind at 1. unfold input at 1. cbn [stdin self trace].
  destruct (line =? "1") eqn:H1.
  - apply String.eqb_eq in H1. subst line.
    replace ("1" =? "2") with false by reflexivity.
    step_m. norm_tr. reflexivity.
  - destruct (line =? "2") eqn:H2; step_m; norm_tr; reflexivity.
Qed.

(** X16.  The example program.  At end of input it stops on its
    question: [EOFError], no client constructed, no collaborator called.
    Given a line, it runs the SSE client exactly when the line is the one
    character 2, and the streamable-http client for every other line: the
    line is compared as typed, without trimming.  Whatever the line, the
    program prints its banner, constructs the client (which logs the
    activation record), and reaches the opening of the chosen transport
    at the url that goes with it, so it never stops on an unknown
    transport string; the client it leaves has that url and that
    transport. *)
Theorem example_main_dispatch :
  (forall c tr,
     example_main (MkState c [] tr)
     = (Raise eof_error, MkState c [] (tr ++ [EvInput transport_question])))
  /\ (forall line rest c tr,
        let st' := snd (example_main (MkState c (line :: rest) tr)) in
        let sse := line =? "2" in
        let k := if sse then Sse else StreamableHttp in
        let u := if sse then SSE_URL else HTTP_URL in
        let t := if sse then "sse" else "http" in
        (exists b evs,
           trace st'
           = tr ++ [EvInput transport_question;
                    EvPrint (banner line);
                    EvLog INFO "Logger activated for MCPInteractiveHTTPClient" [] false;
                    EvLog INFO "Opening interactive client (transport=%s, url=%s)"
                      [LStr t; LStr u] false;
                    EvCall (TransportEnter k u) b] ++ evs) /\
        url (self st') = u /\ transport (self st') = t).
Proof.
  split.
  { intros c tr. unfold example_main. unfold bind at 1. unfold input. reflexivity. }
  intros line rest c tr. cbv zeta. rewrite example_main_line. cbv zeta.
  set (u := if line =? "2" then SSE_URL else HTTP_URL).
  set (t := if line =? "2" then "sse" else "http").
  set (k := if line =? "2" then Sse else StreamableHttp).
  assert (Hk : kind_of t = Some k) by (subst t k; destruct (line =? "2"); reflexivity).
  match goal with |- context [async_with run ?s] => set (st0 := s) end.
  destruct (async_with_extends unit run st0 framed_run) as [Hs [e2 T2]].
  destruct (aenter_reaches_transport st0 k Hk) as [b [e1 [T1 [U1 R1]]]].
  rewrite Hs, T2, T1, U1, R1. subst st0. cbn [self trace url transport __init__].
  split; [|split; reflexivity].
  exists b, (e1 ++ e2). rewrite <- !app_assoc. reflexivity.
Qed.

End ExampleProgram.
